(** * Verification of the report engine of [task2/report.py]

    The development embeds the report-generation functions of
    [report.py] ([generate_hierarchy], [generate_report_by_department],
    [save_department_report], [generate_report]) and its command line
    ([validate_files], [parse_parameters], [get_menu_option], the script)
    and proves the properties of its specification about grouping,
    aggregation, rendering and error behaviour.

    Modelling conventions.
    - A Python [str] is the [string] of its UTF-8 encoding, and a file is
      the [string] of its bytes; one character is one [ascii] when it is
      an ASCII character and up to four of them otherwise.  Where the
      program counts characters ([line[:-1]]) the model counts encoded
      characters, not bytes.
    - A Python [int] is a [Z] (unbounded); a Python [float] is a binary64
      value of [SpecFloat], the IEEE 754 specification of the Standard
      Library ([prec = 53], [emax = 1024]).
    - A [dict] (and [defaultdict]) is an association list in insertion
      order, which is the iteration order of Python dictionaries; a [set]
      of strings is a [gset string].
    - An open text file is the list of lines its iteration yields, every
      line with its line terminator.  A file is read as [open(..., 'r',
      encoding='utf8')] reads it: the bytes are decoded as UTF-8 and
      every line terminator ([\n], [\r], [\r\n]) is translated to [\n].
      A file is written with the line feed for line separator
      ([os.linesep] where the program is meant to run).
    - The files of the [world] are the regular files that the program may
      read.  Whether a file can be opened for writing is decided outside
      of the world (a missing directory, an empty name, permissions): it
      is the parameter [writable] of the engine.
    - Exceptions are values of [exception], and every name stands for the
      class with its subclasses; a computation that may raise returns a
      [result].  [ValueError] is the format error of the
      specification.
    - The builtins [int()] and [str()] of a float are parameters of the
      engine; [py_int] and [float_str_exact] instantiate them in the
      worked examples.

    Main results.
    - Aggregation: [department_summary_correct] (C1),
      [report_in_first_occurrence_order] (C2),
      [generate_report_by_department_returns].
    - Rendering: [render_line_single_char] and
      [long_separator_is_not_stripped] (C3), [save_then_reparse] (C4),
      [save_empty_report_raises] (C5).
    - Hierarchy: [hierarchy_departments_and_teams] (C6),
      [team_under_departments_of_its_lines] (C7).
    - Malformed lines: [malformed_line_aborts_before_output] (C8),
      [short_line_raises] (C9), [hierarchy_ignores_salary] (C10). *)

From Stdlib Require Import ZArith String Ascii List SpecFloat DecimalString.
From stdpp Require Import base option list gmap strings.

#[local] Set Warnings "-clear-no-such-hyp".
Local Open Scope Z_scope.

(** ** Exceptions and results *)

(** [ValueError] includes the [UnicodeDecodeError] of the decoder;
    [FileNotFoundError] is raised for a missing file that is read or
    compared; [OSError] is what [open] raises for a file that cannot be
    opened for writing ([FileNotFoundError] for a missing directory,
    [PermissionError], [IsADirectoryError], ...: the program tells none
    of them apart). *)
Inductive exception : Set :=
| ValueError
| IndexError
| ZeroDivisionError
| OverflowError
| FileNotFoundError
| OSError.

Definition exception_name (e : exception) : string :=
  match e with
  | ValueError => "ValueError"
  | IndexError => "IndexError"
  | ZeroDivisionError => "ZeroDivisionError"
  | OverflowError => "OverflowError"
  | FileNotFoundError => "FileNotFoundError"
  | OSError => "OSError"
  end.

Inductive result (A : Type) : Type :=
| Return (a : A)
| Raise (e : exception).
Arguments Return {A} a.
Arguments Raise {A} e.

#[global] Instance result_ret : MRet result := @Return.
#[global] Instance result_bind : MBind result := λ A B f m,
  match m with
  | Return a => f a
  | Raise e => Raise e
  end.

Definition raises {A} (m : result A) : Prop := ∃ e, m = Raise e.

(** ** Strings *)

Definition newline : string := String "010" EmptyString.

(** [s.split(sep)] for a non-empty [sep]: the occurrences of [sep] are
    found from left to right and do not overlap.  [skip] counts the
    characters of a separator that are still to be passed over. *)
Fixpoint split_from (sep s : string) (skip : nat) : list string :=
  match s with
  | EmptyString => [EmptyString]
  | String c s' =>
      match skip with
      | S k => split_from sep s' k
      | O =>
          if String.prefix sep s
          then EmptyString :: split_from sep s' (String.length sep - 1)
          else match split_from sep s' 0 with
               | field :: fields => String c field :: fields
               | [] => [String c EmptyString]
               end
      end
  end.

(** [str.split] raises [ValueError] ("empty separator") on [sep = '']. *)
Definition str_split (s sep : string) : result (list string) :=
  match sep with
  | EmptyString => Raise ValueError
  | _ => Return (split_from sep s 0)
  end.

(** UTF-8: the bytes [10xxxxxx] continue a character, every other byte
    begins one. *)
Definition is_continuation (c : ascii) : bool :=
  let n := nat_of_ascii c in ((128 <=? n) && (n <=? 191))%nat.

Fixpoint all_continuation (s : string) : bool :=
  match s with
  | EmptyString => true
  | String c s' => is_continuation c && all_continuation s'
  end.

(** [s[:-1]]: everything but the last character, which is the last byte
    that begins a character together with the bytes that continue it;
    [''] stays ['']. *)
Fixpoint drop_last (s : string) : string :=
  match s with
  | EmptyString => EmptyString
  | String c s' => if all_continuation s' then EmptyString else String c (drop_last s')
  end.

(** [str(n)] for an integer: decimal digits, with a minus sign. *)
Definition str_of_int (n : Z) : string := NilZero.string_of_int (Z.to_int n).

(** ** Integers and floats *)

(** The text syntax accepted by [int(s)] in base 10, on ASCII text:
    optional white space, an optional sign, digits with single
    underscores between them, optional white space. *)
Definition is_space (c : ascii) : bool :=
  let n := nat_of_ascii c in
  ((9 <=? n) && (n <=? 13))%nat || (n =? 32)%nat.

Definition digit_value (c : ascii) : option Z :=
  let n := nat_of_ascii c in
  if ((48 <=? n) && (n <=? 57))%nat then Some (Z.of_nat (n - 48)) else None.

Fixpoint lstrip (l : list ascii) : list ascii :=
  match l with
  | c :: l' => if is_space c then lstrip l' else l
  | [] => []
  end.

Definition strip (l : list ascii) : list ascii := rev (lstrip (rev (lstrip l))).

Fixpoint parse_digits (l : list ascii) (acc : Z) (after_digit : bool) : option Z :=
  match l with
  | [] => if after_digit then Some acc else None
  | c :: l' =>
      match digit_value c with
      | Some d => parse_digits l' (10 * acc + d) true
      | None =>
          if Ascii.eqb c "_" && after_digit then parse_digits l' acc false else None
      end
  end.

Definition py_int (s : string) : option Z :=
  match strip (list_ascii_of_string s) with
  | "-"%char :: l => Z.opp <$> parse_digits l 0 false
  | "+"%char :: l => parse_digits l 0 false
  | l => parse_digits l 0 false
  end.

(** Binary64. *)
Definition prec : Z := 53.
Definition emax : Z := 1024.

Definition float_of_Z_exact (n : Z) : spec_float :=
  match n with
  | Z0 => S754_zero false
  | Zpos p => S754_finite false p 0
  | Zneg p => S754_finite true p 0
  end.

(** [a / b] on integers: the quotient of the two integers rounded once to
    the nearest binary64 value, ties to even; [ZeroDivisionError] for a
    zero divisor, [OverflowError] when the rounded quotient is not
    finite. *)
Definition int_truediv (a b : Z) : result spec_float :=
  if b =? 0 then Raise ZeroDivisionError
  else match SFdiv prec emax (float_of_Z_exact a) (float_of_Z_exact b) with
       | S754_zero s => Return (S754_zero s)
       | S754_finite s m e => Return (S754_finite s m e)
       | _ => Raise OverflowError
       end.

(** Comparison of an integer with a float is exact in Python: the float
    [(-1)^s * m * 2^e] is compared as a rational number. *)
Definition int_le_float (n : Z) (x : spec_float) : bool :=
  match x with
  | S754_zero _ => n <=? 0
  | S754_finite s m e =>
      let v := cond_Zopp s (Zpos m) in
      if 0 <=? e then n <=? v * 2 ^ e else n * 2 ^ (- e) <=? v
  | S754_infinity s => negb s
  | S754_nan => false
  end.

Definition float_le_int (x : spec_float) (n : Z) : bool :=
  match x with
  | S754_zero _ => 0 <=? n
  | S754_finite s m e =>
      let v := cond_Zopp s (Zpos m) in
      if 0 <=? e then v * 2 ^ e <=? n else v <=? n * 2 ^ (- e)
  | S754_infinity s => s
  | S754_nan => false
  end.

(** [min], [max] and [sum] of a list of integers; [min([])] and
    [max([])] raise [ValueError]. *)
Definition py_min (l : list Z) : result Z :=
  match l with
  | [] => Raise ValueError
  | x :: l' => Return (foldl Z.min x l')
  end.

Definition py_max (l : list Z) : result Z :=
  match l with
  | [] => Raise ValueError
  | x :: l' => Return (foldl Z.max x l')
  end.

Definition py_sum (l : list Z) : Z := foldl Z.add 0 l.

(** ** Dictionaries *)

(** [d[key] = f(d[key])] on a [defaultdict]: a missing key is first
    inserted, at the end, with the default value. *)
Fixpoint defaultdict_update {V} (default : V) (f : V → V) (key : string)
    (d : list (string * V)) : list (string * V) :=
  match d with
  | [] => [(key, f default)]
  | (k, v) :: d' =>
      if decide (k = key) then (k, f v) :: d'
      else (k, v) :: defaultdict_update default f key d'
  end.

Fixpoint dict_get {V} (d : list (string * V)) (key : string) : option V :=
  match d with
  | [] => None
  | (k, v) :: d' => if decide (k = key) then Some v else dict_get d' key
  end.

Definition dict_keys {V} (d : list (string * V)) : list string := d.*1.

(** ** The report engine *)

(** One entry of the department report: the dictionary with the keys
    ['Название'], ['Численность'], ['Вилка зарплат'] and
    ['Средняя зарплата'], in this order. *)
Record department_summary : Type := {
  name : string;
  count : Z;
  salary_range : string;
  average_salary : spec_float
}.

Definition summary_keys : list string :=
  ["Название"; "Численность"; "Вилка зарплат"; "Средняя зарплата"].

(** The file system and the console. *)
Record world : Type := {
  files : gmap string string;
  stdout : list string
}.

Definition print (line : string) (w : world) : world :=
  {| files := files w; stdout := stdout w ++ [line] |}.

(** What [open(filename, 'w+')] does to a file that can be opened: the
    file is created or truncated. *)
Definition open_truncate (filename : string) (w : world) : world :=
  {| files := <[filename := EmptyString]> (files w); stdout := stdout w |}.

(** [new_file.write(text)]: the text is added at the end of the file. *)
Definition write (filename text : string) (w : world) : world :=
  {| files := <[filename := default EmptyString (files w !! filename) +:+ text]> (files w);
     stdout := stdout w |}.

(** ** Reading a text file *)

(** Well-formed UTF-8, as the strict decoder of Python accepts it: no
    overlong form, no surrogate, nothing above [U+10FFFF]. *)
Definition byte_in (lo hi : nat) (c : ascii) : bool :=
  let n := nat_of_ascii c in ((lo <=? n) && (n <=? hi))%nat.

Definition second_of_three (b0 b1 : ascii) : bool :=
  byte_in 224 224 b0 && byte_in 160 191 b1 ||
  byte_in 225 236 b0 && byte_in 128 191 b1 ||
  byte_in 237 237 b0 && byte_in 128 159 b1 ||
  byte_in 238 239 b0 && byte_in 128 191 b1.

Definition second_of_four (b0 b1 : ascii) : bool :=
  byte_in 240 240 b0 && byte_in 144 191 b1 ||
  byte_in 241 243 b0 && byte_in 128 191 b1 ||
  byte_in 244 244 b0 && byte_in 128 143 b1.

Fixpoint utf8_valid (s : string) : bool :=
  match s with
  | EmptyString => true
  | String b0 s1 =>
      if byte_in 0 127 b0 then utf8_valid s1
      else
        match s1 with
        | EmptyString => false
        | String b1 s2 =>
            if byte_in 194 223 b0 then byte_in 128 191 b1 && utf8_valid s2
            else
              match s2 with
              | EmptyString => false
              | String b2 s3 =>
                  if second_of_three b0 b1 then byte_in 128 191 b2 && utf8_valid s3
                  else
                    match s3 with
                    | EmptyString => false
                    | String b3 s4 =>
                        second_of_four b0 b1 && byte_in 128 191 b2 &&
                        byte_in 128 191 b3 && utf8_valid s4
                    end
              end
        end
  end.

(** Universal newlines: [\r\n] and [\r] are read as [\n]. *)
Fixpoint universal_newlines (text : string) : string :=
  match text with
  | EmptyString => EmptyString
  | String c text' =>
      if Ascii.eqb c "013" then
        match text' with
        | String c' _ =>
            if Ascii.eqb c' "010" then universal_newlines text'
            else String "010" (universal_newlines text')
        | EmptyString => String "010" EmptyString
        end
      else String c (universal_newlines text')
  end.

(** The lines of a text, every line with the line feed that ends it; a
    last line may have none. *)
Fixpoint lines_of (text : string) : list string :=
  match text with
  | EmptyString => []
  | String c text' =>
      if Ascii.eqb c "010" then String c EmptyString :: lines_of text'
      else match lines_of text' with
           | line :: lines => String c line :: lines
           | [] => [String c EmptyString]
           end
  end.

(** The lines that iterating over a text file yields, for the bytes of
    the file. *)
Definition readlines (text : string) : list string :=
  lines_of (universal_newlines text).

(** [generate_hierarchy]: the loop body unpacks
    [_, department, team, *_ = line.split(separator)]. *)
Fixpoint hierarchy_loop (separator : string) (lines : list string)
    (departments_list : list (string * gset string))
    : result (list (string * gset string)) :=
  match lines with
  | [] => Return departments_list
  | line :: lines' =>
      fields ← str_split line separator;
      match fields with
      | _ :: department :: team :: _ =>
          hierarchy_loop separator lines'
            (defaultdict_update ∅ (λ teams, {[team]} ∪ teams) department departments_list)
      | _ => Raise ValueError
      end
  end.

Definition generate_hierarchy (file : list string) (separator : string)
    : result (list (string * gset string)) :=
  hierarchy_loop separator (tail file) [].

(** The teams of a department are printed in the order in which the set
    enumerates them, which Python leaves unspecified; [elements] stands
    for that order. *)
Definition print_department_hierarchy (departments_list : list (string * gset string))
    (w : world) : world :=
  foldl (λ w department,
           foldl (λ w team, print (String "009" "Команда: " +:+ team) w)
                 (print ("Департамент: " +:+ department) w)
                 (elements (default ∅ (dict_get departments_list department))))
        w (dict_keys departments_list).

Section Engine.
(** [int] is the builtin [int()] on a string ([None] when it raises
    [ValueError]); [float_str] is [str()] of a float. *)
Variable int : string → option Z.
Variable float_str : spec_float → string.

(** [writable filename] tells whether [open(filename, 'w+')] succeeds. *)
Variable writable : string → bool.

(** [generate_report_by_department], first loop: the body unpacks
    [_, department, *_, salary = line.split(separator)] and appends
    [int(salary)]. *)
Fixpoint salaries_loop (separator : string) (lines : list string)
    (departments_dict : list (string * list Z)) : result (list (string * list Z)) :=
  match lines with
  | [] => Return departments_dict
  | line :: lines' =>
      fields ← str_split line separator;
      match fields with
      | _ :: department :: field :: fields' =>
          match int (List.last fields' field) with
          | Some salary =>
              salaries_loop separator lines'
                (defaultdict_update [] (λ salaries, salaries ++ [salary])
                                    department departments_dict)
          | None => Raise ValueError
          end
      | _ => Raise ValueError
      end
  end.

(** Second loop: one dictionary per item of [departments_dict]. *)
Definition summary_of (department : string) (salaries : list Z)
    : result department_summary :=
  let n := Z.of_nat (length salaries) in
  lo ← py_min salaries;
  hi ← py_max salaries;
  average ← int_truediv (py_sum salaries) n;
  Return {| name := department;
            count := n;
            salary_range := str_of_int lo +:+ " - " +:+ str_of_int hi;
            average_salary := average |}.

Fixpoint summaries_loop (items : list (string * list Z))
    (departments_list : list department_summary) : result (list department_summary) :=
  match items with
  | [] => Return departments_list
  | (department, salaries) :: items' =>
      entry ← summary_of department salaries;
      summaries_loop items' (departments_list ++ [entry])
  end.

Definition generate_report_by_department (file : list string) (separator : string)
    : result (list department_summary) :=
  departments_dict ← salaries_loop separator (tail file) [];
  summaries_loop departments_dict [].

(** The values of an entry as the f-strings render them. *)
Definition summary_values (department : department_summary) : list string :=
  [name department; str_of_int (count department); salary_range department;
   float_str (average_salary department)].

Definition print_department_report (departments_list : list department_summary)
    (w : world) : world :=
  foldl (λ w department,
           print EmptyString
             (foldl (λ w item, print (item.1 +:+ ": " +:+ item.2) w) w
                    (zip summary_keys (summary_values department))))
        w departments_list.

(** [line = ''; for x in xs: line += f'{x}{separator}'; line = line[:-1]] *)
Definition render_line (separator : string) (xs : list string) : string :=
  drop_last (foldl (λ line x, line +:+ x +:+ separator) EmptyString xs).

Definition save_department_report (departments_list : list department_summary)
    (output_filename separator : string) (w : world) : result unit * world :=
  if writable output_filename then
    let w := open_truncate output_filename w in
    match departments_list with
    | [] => (Raise IndexError, w)
    | _ :: _ =>
        let w :=
          write output_filename (render_line separator summary_keys +:+ newline) w in
        (Return (),
         foldl (λ w department,
                  write output_filename
                        (render_line separator (summary_values department) +:+ newline)
                        w)
               w departments_list)
    end
  else (Raise OSError, w).

(** Both loops read the file to its end before anything is printed or
    written, and raise nothing but [ValueError] on the way: on a file
    that is not valid UTF-8 the run ends in a [ValueError], that of a
    line or the [UnicodeDecodeError] of the decoder, whichever comes
    first. *)
Definition generate_report (input_filename output_filename separator option : string)
    (w : world) : result unit * world :=
  match files w !! input_filename with
  | None => (Raise FileNotFoundError, w)
  | Some text =>
      let file := readlines text in
      if negb (utf8_valid text) then (Raise ValueError, w)
      else if decide (option = "1") then
        match generate_hierarchy file separator with
        | Return departments_hierarchy =>
            (Return (), print_department_hierarchy departments_hierarchy w)
        | Raise e => (Raise e, w)
        end
      else
        match generate_report_by_department file separator with
        | Return departments_report =>
            if decide (option = "2") then
              (Return (), print_department_report departments_report w)
            else save_department_report departments_report output_filename separator w
        | Raise e => (Raise e, w)
        end
  end.
End Engine.

(** ** Vocabulary of the specification *)

(** The data lines of a file: every line but the first. *)
Definition data_lines (file : list string) : list string := tail file.

Definition fields_of (separator line : string) : list string :=
  split_from separator line 0.

(** The department and team values of a line (fields 1 and 2) and its
    last field, which holds the salary. *)
Definition department_of (separator line : string) : option string :=
  fields_of separator line !! 1%nat.

Definition team_of (separator line : string) : option string :=
  fields_of separator line !! 2%nat.

Definition salary_field (separator line : string) : string :=
  List.last (fields_of separator line) EmptyString.

(** A data line is malformed for the aggregation when it has fewer than
    three fields or its salary field is not an integer. *)
Definition malformed (int : string → option Z) (separator line : string) : Prop :=
  (length (fields_of separator line) < 3)%nat ∨ int (salary_field separator line) = None.

(** The order of first occurrence: every value once, at the position
    where it occurs first. *)
Fixpoint first_occurrences (l : list string) : list string :=
  match l with
  | [] => []
  | x :: l' => x :: filter (λ y, y ≠ x) (first_occurrences l')
  end.

(** The records that the two loops read from one line. *)
Definition hierarchy_record (separator line : string) : option (string * string) :=
  match str_split line separator with
  | Return (_ :: department :: team :: _) => Some (department, team)
  | _ => None
  end.

Definition salary_record (int : string → option Z) (separator line : string)
    : option (string * Z) :=
  match str_split line separator with
  | Return (_ :: department :: field :: fields') =>
      (λ salary, (department, salary)) <$> int (List.last fields' field)
  | _ => None
  end.

(** Grouping a sequence of keyed records into a dictionary. *)
Definition group {X V} (default : V) (g : X → V → V) (records : list (string * X))
    (d : list (string * V)) : list (string * V) :=
  foldl (λ d r, defaultdict_update default (g r.2) r.1 d) d records.

Definition salaries_of (department : string) (records : list (string * Z)) : list Z :=
  (filter (λ r, r.1 = department) records).*2.

(** Re-reading a written report as the loops read a file: the lines of
    the file, split at the separator.  The last field of a line carries
    the line feed that ends the line. *)
Definition reparse (separator text : string) : list (list string) :=
  (λ line, split_from separator line 0) <$> readlines text.

Fixpoint with_line_feed (fields : list string) : list string :=
  match fields with
  | [] => []
  | [field] => [field +:+ newline]
  | field :: fields' => field :: with_line_feed fields'
  end.

(** A sample [str()] for floats: the exact decimal expansion of the
    binary64 value.  It agrees with Python on the values between [1e-4]
    and [1e16] in magnitude whose shortest decimal form is exact (such as
    [2000.0] or [1000.5]), which is all that the worked examples need;
    the theorems hold for every rendering of floats. *)
Fixpoint strip_zeros_rev (l : list ascii) : list ascii :=
  match l with
  | "0"%char :: l' => strip_zeros_rev l'
  | _ => l
  end.

Definition fraction_digits (k frac : Z) : string :=
  match list_ascii_of_string (str_of_int (10 ^ k + frac)) with
  | _ :: digits =>
      match rev (strip_zeros_rev (rev digits)) with
      | [] => "0"
      | digits' => string_of_list_ascii digits'
      end
  | [] => "0"
  end.

Definition float_str_exact (x : spec_float) : string :=
  match x with
  | S754_zero s => if s then "-0.0" else "0.0"
  | S754_infinity s => if s then "-inf" else "inf"
  | S754_nan => "nan"
  | S754_finite s m e =>
      (if s then "-" else "") +:+
      (if 0 <=? e then str_of_int (Zpos m * 2 ^ e) +:+ ".0"
       else let k := - e in
            let num := Zpos m * 5 ^ k in
            str_of_int (num / 10 ^ k) +:+ "." +:+ fraction_digits k (num mod 10 ^ k))
  end.

(** ** The command line *)

(** The exceptions of the command-line layer: the ones that the program
    raises itself carry their message; [EOFError] is raised by [input()]
    at the end of the input; [Uncaught] is an exception of another
    builtin or of the report engine that passes through. *)
Inductive cli_exception : Type :=
| AttributeError (message : string)
| ValueErrorWith (message : string)
| EOFError
| Uncaught (e : exception).

Inductive outcome (A : Type) : Type :=
| Success (a : A)
| Failure (e : cli_exception).
Arguments Success {A} a.
Arguments Failure {A} e.

#[global] Instance outcome_ret : MRet outcome := @Success.
#[global] Instance outcome_bind : MBind outcome := λ A B f m,
  match m with
  | Success a => f a
  | Failure e => Failure e
  end.

Definition uncaught {A} (r : result A) : outcome A :=
  match r with
  | Return a => Success a
  | Raise e => Failure (Uncaught e)
  end.

Definition INPUT_FILE : string := "test.csv".
Definition SEPARATOR : string := ";".
Definition OUTPUT_FILE : string := "result.csv".

(** [os.path.exists] *)
Definition path_exists (filename : string) (w : world) : bool :=
  bool_decide (is_Some (files w !! filename)).

(** One entry of [parameters_options]. *)
Record parameter_options : Type := {
  option_keys : list string;
  option_index : nat;
  option_value : string
}.

Definition parameters_options : list (string * parameter_options) :=
  [("input_filename",
    {| option_keys := ["-if"; "--input-file"]; option_index := 0;
       option_value := INPUT_FILE |});
   ("output_filename",
    {| option_keys := ["-of"; "--output-file"]; option_index := 0;
       option_value := OUTPUT_FILE |});
   ("separator",
    {| option_keys := ["-s"; "--separator"]; option_index := 0;
       option_value := SEPARATOR |})].

(** [parse_parameters], inner loop of the first pass: the argument
    [fact_parameter_value] at position [fact_parameter_index] is looked up
    in the keys of every parameter. *)
Fixpoint record_flag (fact_parameter_index : nat) (fact_parameter_value : string)
    (options : list (string * parameter_options))
    : outcome (list (string * parameter_options)) :=
  match options with
  | [] => Success []
  | (param_name, param_options) :: options' =>
      param_options' ←
        (if bool_decide (fact_parameter_value ∈ option_keys param_options) then
           if bool_decide (option_index param_options ≠ 0%nat) then
             Failure (AttributeError ("Your script has more than one " +:+ param_name))
           else
             Success {| option_keys := option_keys param_options;
                        option_index := fact_parameter_index;
                        option_value := option_value param_options |}
         else Success param_options);
      options'' ← record_flag fact_parameter_index fact_parameter_value options';
      Success ((param_name, param_options') :: options'')
  end.

(** First pass: [for fact_parameter_index, fact_parameter_value in
    enumerate(argv)]; [fact_parameter_index] is the position of the first
    of [arguments]. *)
Fixpoint record_flags (fact_parameter_index : nat) (arguments : list string)
    (options : list (string * parameter_options))
    : outcome (list (string * parameter_options)) :=
  match arguments with
  | [] => Success options
  | fact_parameter_value :: arguments' =>
      options' ← record_flag fact_parameter_index fact_parameter_value options;
      record_flags (S fact_parameter_index) arguments' options'
  end.

(** Second pass: the value of a flag is the argument after it;
    [argv[param_index + 1]] raises [IndexError] out of range. *)
Fixpoint read_values (argv : list string) (options : list (string * parameter_options))
    : outcome (list (string * parameter_options)) :=
  match options with
  | [] => Success []
  | (param_name, param_options) :: options' =>
      let param_index := option_index param_options in
      if bool_decide (param_index + 1 = length argv)%nat then
        Failure (AttributeError ("Your script parameters have no " +:+ param_name))
      else
        param_options' ←
          (if bool_decide (param_index ≠ 0%nat) then
             match argv !! (param_index + 1)%nat with
             | Some v =>
                 Success {| option_keys := option_keys param_options;
                            option_index := param_index;
                            option_value := v |}
             | None => Failure (Uncaught IndexError)
             end
           else Success param_options);
        options'' ← read_values argv options';
        Success ((param_name, param_options') :: options'')
  end.

(** [parameters_options[param_name]['value']]; the three names are keys
    of the dictionary. *)
Definition value_of (param_name : string) (options : list (string * parameter_options))
    : string :=
  default EmptyString (option_value <$> dict_get options param_name).

(** [get_menu_option]: [typed] is the line that [input()] reads, [None]
    at the end of the input. *)
Definition menu_lines : list string :=
  ["Выберите режим работы программы.";
   "1. Вывести иерархию команд, т.е. департамент и все команды, которые входят в него.";
   "2. Вывести сводный отчёт по департаментам: название, численность, " +:+
     String "034" "вилка" +:+ String "034" " зарплат.";
   "3. Сохранить сводный отчёт из пункта 2. в виде csv-файла.";
   "Введите одно число."].

Definition get_menu_option (typed : option string) (w : world) : outcome string * world :=
  let w := foldl (λ w line, print line w) w menu_lines in
  match typed with
  | None => (Failure EOFError, w)
  | Some option =>
      if bool_decide (option ∈ ["1"; "2"; "3"]) then (Success option, w)
      else (Failure (ValueErrorWith "Вы ввели некорректное значение для пункта меню."), w)
  end.

Section Cli.
(** [int], [float_str] and [writable] are as for the engine; [mtime]
    gives the modification time that [os.stat] reports for a file. *)
Variable int : string → option Z.
Variable float_str : spec_float → string.
Variable writable : string → bool.
Variable mtime : string → Z.

(** A text file is decoded block by block, ahead of the lines that are
    asked for: on a file that is not valid UTF-8, [readline] raises
    [UnicodeDecodeError] when an invalid byte is in the lines that it
    returns, and also when one is further on, in a block that has been
    decoded (a sequence that the end of the file cuts short is met at
    the end of the file only).  The size of the blocks is not fixed by
    the language; [reads_ahead text] tells whether, for the content
    [text], the two calls of [readline] in [validate_files] meet an
    invalid byte that is behind the second line. *)
Variable reads_ahead : string → bool.

Definition decode_error (text : string) : bool :=
  negb (utf8_valid text) &&
  (negb (forallb utf8_valid (take 2 (readlines text))) || reads_ahead text).

(** [filecmp.cmp(f1, f2)] with its default [shallow=True]: files with
    the same size and modification time are taken to be equal without
    being read; files of different sizes are different; otherwise the
    contents are compared.  [os.stat] raises [FileNotFoundError]. *)
Definition filecmp_cmp (f1 f2 : string) (w : world) : result bool :=
  match files w !! f1, files w !! f2 with
  | Some content1, Some content2 =>
      Return ((String.length content1 =? String.length content2)%nat &&
              ((mtime f1 =? mtime f2) || String.eqb content1 content2))
  | _, _ => Raise FileNotFoundError
  end.

Definition wrong_format : cli_exception :=
  ValueErrorWith "Your input file has wrong format".

Definition validate_files (input_filename output_filename separator : string)
    (w : world) : outcome unit :=
  same ← (if path_exists output_filename w
          then uncaught (filecmp_cmp input_filename output_filename w)
          else Success false);
  if (same : bool) then Failure (ValueErrorWith "Input and output files are the same")
  else
    match files w !! input_filename with
    | None => Failure (ValueErrorWith "Your input file doesn't exist")
    | Some text =>
        let extension := List.last (split_from "." input_filename 0) EmptyString in
        if negb (String.eqb extension "csv")
        then Failure (ValueErrorWith "Your input file is not .csv file")
        else if decode_error text then Failure (Uncaught ValueError)
        else
          let line := nth 1 (readlines text) EmptyString in
          splitted_line ← uncaught (str_split line separator);
          match splitted_line !! 5%nat with
          | Some field =>
              match int field with
              | Some _ =>
                  if bool_decide (length splitted_line ≠ 6%nat)
                  then Failure wrong_format
                  else Success ()
              | None => Failure wrong_format
              end
          | None => Failure wrong_format
          end
    end.

Definition parse_parameters (argv : list string) (w : world)
    : outcome (string * string * string) :=
  if bool_decide (length argv = 1%nat) then
    _ ← validate_files INPUT_FILE OUTPUT_FILE SEPARATOR w;
    Success (INPUT_FILE, OUTPUT_FILE, SEPARATOR)
  else
    options ← record_flags 0 argv parameters_options;
    options ← read_values argv options;
    let input_filename := value_of "input_filename" options in
    let output_filename := value_of "output_filename" options in
    let separator := value_of "separator" options in
    _ ← validate_files input_filename output_filename separator w;
    Success (input_filename, output_filename, separator).

(** The script: [parse_parameters], [get_menu_option],
    [generate_report]. *)
Definition main (argv : list string) (typed : option string) (w : world)
    : outcome unit * world :=
  match parse_parameters argv w with
  | Failure e => (Failure e, w)
  | Success (input_file, output_file, separator) =>
      match get_menu_option typed w with
      | (Failure e, w) => (Failure e, w)
      | (Success menu_option, w) =>
          let '(r, w) :=
            generate_report int float_str writable input_file output_file separator
                            menu_option w in
          (uncaught r, w)
      end
  end.
End Cli.

(** The data lines that bear a department value, and their salaries. *)
Definition lines_of_department (separator department : string) (file : list string)
    : list string :=
  filter (λ line, department_of separator line = Some department) (data_lines file).

Definition department_salaries (int : string → option Z) (separator department : string)
    (file : list string) : list Z :=
  omap (λ line, int (salary_field separator line))
       (lines_of_department separator department file).

Definition department_teams (separator department : string) (file : list string)
    : list string :=
  omap (team_of separator) (lines_of_department separator department file).

(** No team name is a member of the team sets of two departments. *)
Definition no_shared_team (departments_list : list (string * gset string)) : Prop :=
  ∀ department1 department2 teams1 teams2 team,
    dict_get departments_list department1 = Some teams1 →
    dict_get departments_list department2 = Some teams2 →
    team ∈ teams1 → team ∈ teams2 → department1 = department2.

(** The float [x] is between the integers [lo] and [hi], in the exact
    comparison of Python. *)
Definition float_between (lo hi : Z) (x : spec_float) : Prop :=
  int_le_float lo x = true ∧ float_le_int x hi = true.

(** The invariant of the right shifts of [SpecFloat]: [Y / D] is the value
    that is being shifted; the record holds its integer part and tells
    whether it is an integer. *)
Definition shr_inv (Y D : Z) (mrs : shr_record) : Prop :=
  shr_m mrs = Y / D ∧ (loc_of_shr_record mrs = loc_Exact ↔ Y mod D = 0).

(** Whether a character occurs in a string. *)
Fixpoint contains_char (c : ascii) (s : string) : bool :=
  match s with
  | EmptyString => false
  | String c' s' => Ascii.eqb c c' || contains_char c s'
  end.

(** Whether [sep] occurs in a string ([sep in s]). *)
Fixpoint occurs (sep s : string) : bool :=
  String.prefix sep s ||
  match s with
  | EmptyString => false
  | String _ s' => occurs sep s'
  end.

(** A string of one character: well-formed UTF-8 that is one byte that
    begins a character and the bytes that continue it. *)
Definition one_character (s : string) : bool :=
  match s with
  | EmptyString => false
  | String c s' => negb (is_continuation c) && all_continuation s' && utf8_valid s
  end.

Definition carriage_return : string := String "013" EmptyString.

(** The text fields of a report, as the renderer writes them: the labels
    and the values of every entry. *)
Definition report_rows (float_str : spec_float → string)
    (report : list department_summary) : list (list string) :=
  summary_keys :: (summary_values float_str <$> report).

(** The empty file system. *)
Definition empty_world : world := {| files := ∅; stdout := [] |}.

(** ** Vocabulary of the further properties *)

(** The text of the file that saving a report produces. *)
Definition rendered_report (float_str : spec_float → string) (separator : string)
    (report : list department_summary) : string :=
  match report with
  | [] => EmptyString
  | _ :: _ =>
      foldr (λ fields r, render_line separator fields +:+ newline +:+ r) EmptyString
            (report_rows float_str report)
  end.

(** The lines that the text mode prints for one entry. *)
Definition report_block (float_str : spec_float → string)
    (department : department_summary) : list string :=
  ["Название: " +:+ name department;
   "Численность: " +:+ str_of_int (count department);
   "Вилка зарплат: " +:+ salary_range department;
   "Средняя зарплата: " +:+ float_str (average_salary department);
   EmptyString].

(** The flags of the three parameters. *)
Definition input_keys : list string := ["-if"; "--input-file"].
Definition output_keys : list string := ["-of"; "--output-file"].
Definition separator_keys : list string := ["-s"; "--separator"].

(** The flag [keys] occurs in [argv] at position [k], which is not the
    position of the script name. *)
Definition flag_at (keys : list string) (argv : list string) (k : nat) : Prop :=
  (1 ≤ k)%nat ∧ ∃ v, argv !! k = Some v ∧ v ∈ keys.

(** The checks of [validate_files] that follow the comparison of the two
    files, taken apart for the proofs. *)
Definition check_input (int : string → option Z) (reads_ahead : string → bool)
    (input_filename separator : string) (w : world) : outcome unit :=
  match files w !! input_filename with
  | None => Failure (ValueErrorWith "Your input file doesn't exist")
  | Some text =>
      let extension := List.last (split_from "." input_filename 0) EmptyString in
      if negb (String.eqb extension "csv")
      then Failure (ValueErrorWith "Your input file is not .csv file")
      else if decode_error reads_ahead text then Failure (Uncaught ValueError)
      else
        let line := nth 1 (readlines text) EmptyString in
        splitted_line ← uncaught (str_split line separator);
        match splitted_line !! 5%nat with
        | Some field =>
            match int field with
            | Some _ =>
                if bool_decide (length splitted_line ≠ 6%nat)
                then Failure (ValueErrorWith "Your input file has wrong format")
                else Success ()
            | None => Failure (ValueErrorWith "Your input file has wrong format")
            end
        | None => Failure (ValueErrorWith "Your input file has wrong format")
        end
  end.

(** What [filecmp.cmp] takes for the same file: two files of the same
    size that have the same modification time or the same content. *)
Definition taken_for_same (mtime : string → Z) (input_filename output_filename : string)
    (w : world) : Prop :=
  ∃ content1 content2,
    files w !! input_filename = Some content1 ∧
    files w !! output_filename = Some content2 ∧
    String.length content1 = String.length content2 ∧
    (mtime input_filename = mtime output_filename ∨ content1 = content2).

(** The second line of the input passes the check of the format: it has
    exactly six fields and the last one is an integer. *)
Definition second_line_ok (int : string → option Z) (separator text : string) : Prop :=
  separator ≠ EmptyString ∧
  ∃ f0 f1 f2 f3 f4 f5,
    fields_of separator (nth 1 (readlines text) EmptyString) = [f0; f1; f2; f3; f4; f5] ∧
    is_Some (int f5).

(** The first pass of [parse_parameters] keeps the name, the keys and the
    value of an entry. *)
Definition same_option (e e' : string * parameter_options) : Prop :=
  e'.1 = e.1 ∧ option_keys e'.2 = option_keys e.2 ∧ option_value e'.2 = option_value e.2.

(** The index of an entry after the first pass has gone through
    [arguments], whose first element is at position [start]: an index that
    is set excludes a further occurrence of the flag, an occurrence at a
    position other than zero is the index, and the index is the old one
    or the position of an occurrence. *)
Definition scanned (keys : list string) (start : nat) (arguments : list string)
    (index index' : nat) : Prop :=
  (index ≠ 0%nat → ∀ v, v ∈ arguments → v ∉ keys) ∧
  (∀ j v, arguments !! j = Some v → v ∈ keys → (start + j ≠ 0)%nat →
          index' = (start + j)%nat) ∧
  (index' = index ∨
   ∃ j v, arguments !! j = Some v ∧ v ∈ keys ∧ index' = (start + j)%nat).

(** The value that [parse_parameters] returns for a flag: the argument
    after the flag wherever the flag occurs, the default when it does not
    occur. *)
Definition flag_value (keys : list string) (default_value : string) (argv : list string)
    (v : string) : Prop :=
  (∀ k, flag_at keys argv k → argv !! (k + 1)%nat = Some v) ∧
  ((∀ k, ¬ flag_at keys argv k) → v = default_value).

(** The lines that the hierarchy mode prints for one department. *)
Definition team_line (team : string) : string := String "009" "Команда: " +:+ team.

Definition hierarchy_block (departments_list : list (string * gset string))
    (department : string) : list string :=
  ("Департамент: " +:+ department) ::
  (team_line <$> elements (default ∅ (dict_get departments_list department))).

(** The world after [get_menu_option] has printed the menu. *)
Definition menu_printed (w : world) : world :=
  {| files := files w; stdout := stdout w ++ menu_lines |}.

(** ** Sample inputs *)

Definition sample_header : string := "id;dept;team;role;level;salary" +:+ newline.

(** The scenario of the specification. *)
Definition sample_file : list string :=
  [sample_header;
   "1;Eng;Backend;dev;2;1000" +:+ newline;
   "2;Eng;Frontend;dev;2;3000" +:+ newline].

(** A file whose second data line has two fields only. *)
Definition short_line_file : list string :=
  [sample_header;
   "1;Eng;Backend;dev;2;1000" +:+ newline;
   "2;3000" +:+ newline].

(** A file whose second data line has a salary that is not a number. *)
Definition bad_salary_file : list string :=
  [sample_header;
   "1;Eng;Backend;dev;2;1000" +:+ newline;
   "2;Ops;Support;dev;2;high" +:+ newline].

Definition world_with (filename : string) (file : list string) : world :=
  {| files := {[ filename := foldr String.append EmptyString file ]}; stdout := [] |}.

(** Two departments that both have a team called [Core]. *)
Definition shared_team_file : list string :=
  [sample_header;
   "1;Eng;Core;dev;2;1000" +:+ newline;
   "2;Ops;Core;dev;2;3000" +:+ newline].

(** Departments that alternate, to show the order of the report. *)
Definition interleaved_file : list string :=
  [sample_header;
   "1;Ops;Support;dev;2;500" +:+ newline;
   "2;Eng;Backend;dev;2;1000" +:+ newline;
   "3;Ops;Network;dev;2;700" +:+ newline].

(** A salary of [2^53 + 1], which no binary64 value equals. *)
Definition big_salary_file : list string :=
  [sample_header;
   "1;Eng;Backend;dev;2;9007199254740993" +:+ newline].

Definition sample_report : list department_summary :=
  [{| name := "Eng"; count := 2; salary_range := "1000 - 3000";
      average_salary := S754_finite false 8796093022208000 (-42) |}].

(** The scenario of the specification with a space for separator. *)
Definition space_file : list string :=
  ["id dept team role level salary" +:+ newline;
   "1 Eng Backend dev 2 1000" +:+ newline;
   "2 Eng Frontend dev 2 3000" +:+ newline].

(** The scenario of the specification with a separator of two characters. *)
Definition colon_file : list string :=
  ["id::dept::team::role::level::salary" +:+ newline;
   "1::Eng::Backend::dev::2::1000" +:+ newline;
   "2::Eng::Frontend::dev::2::3000" +:+ newline].

(** The lines of [interleaved_file] in another order. *)
Definition reordered_file : list string :=
  [sample_header;
   "3;Ops;Network;dev;2;700" +:+ newline;
   "2;Eng;Backend;dev;2;1000" +:+ newline;
   "1;Ops;Support;dev;2;500" +:+ newline].

(** Modification times for the worked examples: every file has its own. *)
Definition sample_mtime (filename : string) : Z :=
  if String.eqb filename "test.csv" then 1 else 2.

(** In the worked examples every file can be opened for writing, and
    the reader has decoded a whole file when it returns the second
    line. *)
Definition every_file (filename : string) : bool := true.
Definition one_block (text : string) : bool := true.

(** * Proofs *)

(** ** Results *)

Lemma bind_Return {A B} (f : A → result B) (m : result A) (b : B) :
  m ≫= f = Return b ↔ ∃ a, m = Return a ∧ f a = Return b.
Proof.
  destruct m as [a|e]; simpl; split.
  - intros H. by exists a.
  - by intros (a' & [= <-] & H).
  - discriminate.
  - by intros (a' & [=] & _).
Qed.

(** ** Dictionaries *)

Section dict.
Context {V : Type}.
Implicit Types (d : list (string * V)) (k : string).

Lemma dict_get_None d k : dict_get d k = None ↔ k ∉ dict_keys d.
Proof.
  unfold dict_keys. induction d as [|[k' v] d IH]; simpl.
  - split; [intros _; apply not_elem_of_nil | done].
  - rewrite not_elem_of_cons. case_decide; subst.
    + split; [done | by intros [? _]].
    + rewrite IH. split; [intros Hk; split; [congruence | exact Hk] | by intros [_ Hk]].
Qed.

Lemma dict_get_is_Some d k : is_Some (dict_get d k) ↔ k ∈ dict_keys d.
Proof.
  rewrite <-not_eq_None_Some, dict_get_None.
  destruct (decide (k ∈ dict_keys d)); naive_solver.
Qed.

Lemma dict_get_elem_of d k v : dict_get d k = Some v → (k, v) ∈ d.
Proof.
  induction d as [|[k' v'] d IH]; simpl; [done|].
  case_decide; subst.
  - intros [= ->]. apply elem_of_cons; by left.
  - intros H'. apply elem_of_cons; right; auto.
Qed.

Lemma elem_of_dict_get d k v :
  NoDup (dict_keys d) → (k, v) ∈ d → dict_get d k = Some v.
Proof.
  unfold dict_keys. induction d as [|[k' v'] d IH]; simpl.
  - intros _ H; by apply elem_of_nil in H.
  - rewrite NoDup_cons. intros [Hk Hd] [[= -> ->]|Hin]%elem_of_cons.
    + by rewrite decide_True.
    + rewrite decide_False; [auto|].
      intros ->. apply Hk. apply list_elem_of_fmap. by exists (k, v).
Qed.

Lemma dict_keys_update (dflt : V) f k d :
  dict_keys (defaultdict_update dflt f k d) =
    if decide (k ∈ dict_keys d) then dict_keys d else dict_keys d ++ [k].
Proof.
  unfold dict_keys. induction d as [|[k' v] d IH].
  - destruct (decide (k ∈ _)) as [Hin|_]; [by apply elem_of_nil in Hin | done].
  - cbn [defaultdict_update]. destruct (decide (k' = k)) as [->|Hne].
    + rewrite !fmap_cons. cbn [fst].
      destruct (decide (k ∈ k :: d.*1)) as [_|Hin]; [reflexivity|].
      exfalso. apply Hin. by left.
    + rewrite !fmap_cons, IH. cbn [fst].
      destruct (decide (k ∈ d.*1)) as [Hin|Hin];
        destruct (decide (k ∈ k' :: d.*1)) as [Hin'|Hin']; try done.
      * exfalso. apply Hin'. by right.
      * apply elem_of_cons in Hin' as [->|Hin']; done.
Qed.

Lemma dict_get_update (dflt : V) f k d k' :
  dict_get (defaultdict_update dflt f k d) k' =
    if decide (k = k') then Some (f (default dflt (dict_get d k))) else dict_get d k'.
Proof.
  induction d as [|[k0 v] d IH]; simpl.
  - destruct (decide (k = k')); [done|]. by destruct (decide (k = k')).
  - destruct (decide (k0 = k)) as [->|Hne]; simpl.
    + by destruct (decide (k = k')).
    + rewrite IH. destruct (decide (k0 = k')), (decide (k = k')); congruence.
Qed.
End dict.

(** ** First occurrences and grouping *)

Lemma elem_of_first_occurrences l x : x ∈ first_occurrences l ↔ x ∈ l.
Proof.
  induction l as [|y l IH]; simpl; [done|].
  rewrite !elem_of_cons, list_elem_of_filter, IH.
  destruct (decide (x = y)); naive_solver.
Qed.

Lemma NoDup_first_occurrences l : NoDup (first_occurrences l).
Proof.
  induction l as [|y l IH]; simpl; [constructor|].
  apply NoDup_cons. split.
  - rewrite list_elem_of_filter. naive_solver.
  - by apply NoDup_filter.
Qed.

Lemma filter_id {A} (P : A → Prop) `{∀ x, Decision (P x)} (l : list A) :
  Forall P l → filter P l = l.
Proof.
  induction 1 as [|x l Hx _ IH]; [done|].
  by rewrite filter_cons_True, IH.
Qed.

Lemma filter_filter_ext {A} (P Q R : A → Prop)
    `{∀ x, Decision (P x)} `{∀ x, Decision (Q x)} `{∀ x, Decision (R x)} (l : list A) :
  (∀ x, P x ∧ Q x ↔ R x) → filter P (filter Q l) = filter R l.
Proof.
  intros HPQ. induction l as [|x l IH]; [done|].
  rewrite (filter_cons Q), (filter_cons R).
  destruct (decide (Q x)) as [HQ|HQ].
  - rewrite filter_cons.
    destruct (decide (P x)) as [HP|HP], (decide (R x)) as [HR|HR].
    + by rewrite IH.
    + exfalso. apply HR, HPQ. by split.
    + exfalso. apply HP. by apply HPQ in HR as [? _].
    + done.
  - destruct (decide (R x)) as [HR|HR]; [|done].
    exfalso. apply HQ. by apply HPQ in HR as [_ ?].
Qed.

Lemma first_occurrences_NoDup l : NoDup l → first_occurrences l = l.
Proof.
  induction 1 as [|x l Hx _ IH]; simpl; [done|].
  rewrite IH. f_equal. apply filter_id, Forall_forall.
  intros y Hy ->. done.
Qed.

Section group.
Context {X V : Type} (dflt : V) (g : X → V → V).
Implicit Types (d : list (string * V)) (records : list (string * X)).

Lemma group_cons r records d :
  group dflt g (r :: records) d =
    group dflt g records (defaultdict_update dflt (g r.2) r.1 d).
Proof. done. Qed.

Lemma dict_keys_group records d :
  dict_keys (group dflt g records d) =
    dict_keys d ++ filter (λ k, k ∉ dict_keys d) (first_occurrences records.*1).
Proof.
  revert d. induction records as [|r records IH]; intros d.
  - simpl. by rewrite app_nil_r.
  - rewrite group_cons, IH, dict_keys_update, fmap_cons. simpl.
    destruct (decide (r.1 ∈ dict_keys d)) as [Hin|Hin].
    + rewrite filter_cons, decide_False by naive_solver.
      f_equal. symmetry. apply filter_filter_ext. naive_solver.
    + rewrite filter_cons, decide_True by done.
      rewrite <-app_assoc. simpl. do 2 f_equal.
      symmetry. apply filter_filter_ext.
      intros k. rewrite not_elem_of_app, list_elem_of_singleton. naive_solver.
Qed.

Lemma dict_get_group records d k :
  dict_get (group dflt g records d) k =
    if decide (k ∈ records.*1 ∨ k ∈ dict_keys d)
    then Some (foldl (λ v r, g r.2 v) (default dflt (dict_get d k))
                     (filter (λ r, r.1 = k) records))
    else None.
Proof.
  revert d. induction records as [|r records IH]; intros d.
  - simpl. destruct (decide _) as [[Hin|Hin]|Hnin].
    + by apply elem_of_nil in Hin.
    + apply dict_get_is_Some in Hin as [v ->]. done.
    + apply dict_get_None. naive_solver.
  - rewrite group_cons, IH, dict_keys_update, dict_get_update, fmap_cons, filter_cons.
    destruct (decide (r.1 = k)) as [<-|Hne].
    + rewrite !decide_True; [done | by left; left |].
      destruct (decide (r.1 ∈ dict_keys d)); [by right|].
      right. apply elem_of_app. right. by apply list_elem_of_singleton.
    + assert (k ∈ records.*1 ∨
                k ∈ (if decide (r.1 ∈ dict_keys d) then dict_keys d else dict_keys d ++ [r.1])
              ↔ k ∈ r.1 :: records.*1 ∨ k ∈ dict_keys d) as Hiff.
      { rewrite elem_of_cons. destruct (decide (r.1 ∈ dict_keys d)).
        - naive_solver.
        - rewrite elem_of_app, list_elem_of_singleton. naive_solver. }
      destruct (decide (k ∈ records.*1 ∨ _)) as [H1|H1];
        destruct (decide (k ∈ r.1 :: records.*1 ∨ _)) as [H2|H2]; try done.
      * exfalso. apply H2. by apply Hiff.
      * exfalso. apply H1. by apply Hiff.
Qed.

Lemma NoDup_dict_keys_group records : NoDup (dict_keys (group dflt g records [])).
Proof.
  rewrite dict_keys_group. simpl.
  apply NoDup_filter, NoDup_first_occurrences.
Qed.

Lemma dict_keys_group_nil records :
  dict_keys (group dflt g records []) = first_occurrences records.*1.
Proof.
  rewrite dict_keys_group. simpl.
  apply filter_id, Forall_forall. intros k _. apply not_elem_of_nil.
Qed.
End group.

(** ** The two reading loops *)

Lemma str_split_Return line sep :
  sep ≠ EmptyString → str_split line sep = Return (fields_of sep line).
Proof. by destruct sep. Qed.

Lemma str_split_empty line : str_split line EmptyString = Raise ValueError.
Proof. done. Qed.

Lemma str_split_Raise line sep e : str_split line sep = Raise e → e = ValueError.
Proof. destruct sep; [by intros [= <-] | done]. Qed.

Lemma hierarchy_loop_cons sep line lines d :
  hierarchy_loop sep (line :: lines) d =
    match hierarchy_record sep line with
    | Some r =>
        hierarchy_loop sep lines
          (defaultdict_update ∅ (λ teams, {[r.2]} ∪ teams) r.1 d)
    | None => Raise ValueError
    end.
Proof.
  unfold hierarchy_record. cbn [hierarchy_loop].
  destruct (str_split line sep) as [[|f0 [|department [|team fields]]]|e] eqn:Hsplit;
    simpl; try done.
  by rewrite (str_split_Raise _ _ _ Hsplit).
Qed.

Lemma hierarchy_loop_eq sep lines d :
  hierarchy_loop sep lines d =
    match mapM (hierarchy_record sep) lines with
    | Some records => Return (group ∅ (λ team teams, {[team]} ∪ teams) records d)
    | None => Raise ValueError
    end.
Proof.
  revert d. induction lines as [|line lines IH]; intros d; [done|].
  rewrite hierarchy_loop_cons. cbn [mapM].
  destruct (hierarchy_record sep line) as [r|]; simpl; [|done].
  rewrite IH. by destruct (mapM _ lines).
Qed.

Lemma salaries_loop_cons int sep line lines d :
  salaries_loop int sep (line :: lines) d =
    match salary_record int sep line with
    | Some r =>
        salaries_loop int sep lines
          (defaultdict_update [] (λ salaries, salaries ++ [r.2]) r.1 d)
    | None => Raise ValueError
    end.
Proof.
  unfold salary_record. cbn [salaries_loop].
  destruct (str_split line sep) as [[|f0 [|department [|field fields]]]|e] eqn:Hsplit;
    simpl; try done.
  - by destruct (int _).
  - by rewrite (str_split_Raise _ _ _ Hsplit).
Qed.

Lemma salaries_loop_eq int sep lines d :
  salaries_loop int sep lines d =
    match mapM (salary_record int sep) lines with
    | Some records => Return (group [] (λ salary salaries, salaries ++ [salary]) records d)
    | None => Raise ValueError
    end.
Proof.
  revert d. induction lines as [|line lines IH]; intros d; [done|].
  rewrite salaries_loop_cons. cbn [mapM].
  destruct (salary_record int sep line) as [r|]; simpl; [|done].
  rewrite IH. by destruct (mapM _ lines).
Qed.

(** What a line must look like for each loop to read it. *)

Lemma hierarchy_record_Some sep line department team :
  hierarchy_record sep line = Some (department, team) ↔
    sep ≠ EmptyString ∧ department_of sep line = Some department ∧
    team_of sep line = Some team.
Proof.
  unfold hierarchy_record, department_of, team_of, str_split, fields_of.
  destruct sep as [|c sep]; [split; [done | by intros [? _]]|].
  destruct (split_from _ line 0) as [|f0 [|d [|t fields]]]; simpl;
    split; try done; try (by intros (_ & ? & ?)).
  - by intros [= -> ->].
  - by intros (_ & [= ->] & [= ->]).
Qed.

Lemma hierarchy_record_None sep line :
  hierarchy_record sep line = None ↔
    sep = EmptyString ∨ (length (fields_of sep line) < 3)%nat.
Proof.
  unfold hierarchy_record, str_split, fields_of.
  destruct sep as [|c sep]; [split; [by left | done]|].
  destruct (split_from _ line 0) as [|f0 [|d [|t fields]]]; simpl;
    split; try done; try (intros _; right; lia).
  intros [|]; [done | lia].
Qed.

Lemma last_cons_cons {A} (x y d : A) l : List.last (x :: y :: l) d = List.last (y :: l) d.
Proof. done. Qed.

Lemma last_cons_default {A} (x d d' : A) l : List.last (x :: l) d = List.last (x :: l) d'.
Proof. revert x. induction l as [|y l IH]; intros x; [done|]. rewrite !last_cons_cons. apply IH. Qed.

Lemma last_field_eq {A} (f0 department field d : A) fields :
  List.last fields field = List.last (f0 :: department :: field :: fields) d.
Proof.
  rewrite !last_cons_cons. destruct fields as [|x fields]; [done|].
  rewrite last_cons_cons. apply last_cons_default.
Qed.

Lemma salary_record_Some int sep line department salary :
  salary_record int sep line = Some (department, salary) ↔
    sep ≠ EmptyString ∧ (3 ≤ length (fields_of sep line))%nat ∧
    department_of sep line = Some department ∧
    int (salary_field sep line) = Some salary.
Proof.
  unfold salary_record, department_of, salary_field, str_split, fields_of.
  destruct sep as [|c sep]; [split; [done | by intros [? _]]|].
  destruct (split_from _ line 0) as [|f0 [|d [|field fields]]] eqn:Hf;
    try (split; [done | simpl; intros (_ & ? & _); lia]).
  rewrite <-(last_field_eq f0 d field EmptyString).
  destruct (int (List.last fields field)) as [z|]; simpl; split.
  - intros [= -> ->]. repeat split; [done | lia].
  - by intros (_ & _ & [= ->] & [= ->]).
  - done.
  - by intros (_ & _ & _ & ?).
Qed.

Lemma salary_record_None int sep line :
  salary_record int sep line = None ↔ sep = EmptyString ∨ malformed int sep line.
Proof.
  unfold salary_record, malformed, salary_field, str_split, fields_of.
  destruct sep as [|c sep]; [split; [by left | done]|].
  destruct (split_from _ line 0) as [|f0 [|d [|field fields]]] eqn:Hf;
    try (split; [intros _; right; left; simpl; lia | done]).
  rewrite <-(last_field_eq f0 d field EmptyString).
  destruct (int (List.last fields field)) as [z|]; simpl; split; try done.
  - intros [|[|]]; [done | lia | done].
  - intros _. right. by right.
Qed.

Lemma department_of_record int sep line r :
  salary_record int sep line = Some r → department_of sep line = Some r.1.
Proof. destruct r as [d z]. rewrite salary_record_Some. tauto. Qed.

Lemma mapM_departments int sep lines records :
  mapM (salary_record int sep) lines = Some records →
  omap (department_of sep) lines = records.*1 ∧
  department_of sep <$> lines = Some <$> records.*1.
Proof.
  rewrite mapM_Some. induction 1 as [|line r lines records Hr _ [IH1 IH2]]; [done|].
  apply department_of_record in Hr. rewrite !fmap_cons. cbn [omap list_omap].
  fold (omap (department_of sep) lines).
  rewrite Hr, IH1, IH2. done.
Qed.

Lemma generate_hierarchy_eq file sep :
  generate_hierarchy file sep =
    match mapM (hierarchy_record sep) (data_lines file) with
    | Some records => Return (group ∅ (λ team teams, {[team]} ∪ teams) records [])
    | None => Raise ValueError
    end.
Proof. apply hierarchy_loop_eq. Qed.

Lemma mapM_None_elem_of {A B} (f : A → option B) l x :
  x ∈ l → f x = None → mapM f l = None.
Proof. intros Hx Hf. apply mapM_None, Exists_exists. eauto. Qed.

Lemma salaries_loop_raises int sep file line :
  line ∈ data_lines file → salary_record int sep line = None →
  generate_report_by_department int file sep = Raise ValueError.
Proof.
  intros Hin Hnone. unfold generate_report_by_department.
  fold (data_lines file).
  rewrite salaries_loop_eq, (mapM_None_elem_of _ _ _ Hin Hnone). done.
Qed.

(** ** Malformed lines (C9, C10, C8) *)

(** C9. Both loops need at least three fields on every data line: when
    some data line splits into fewer than three fields, the hierarchy
    and the aggregation both raise [ValueError], the format error of the
    program; a line of exactly two fields is refused by the aggregation
    although it has a field at index 1 and a last field (they are the
    same field). *)
Theorem short_line_raises (int : string → option Z) (file : list string)
    (sep line : string) :
  line ∈ data_lines file →
  (length (fields_of sep line) < 3)%nat →
  generate_hierarchy file sep = Raise ValueError ∧
  generate_report_by_department int file sep = Raise ValueError ∧
  (length (fields_of sep line) = 2%nat →
   ∃ field, department_of sep line = Some field ∧ salary_field sep line = field).
Proof.
  intros Hin Hlen. split; [|split].
  - rewrite generate_hierarchy_eq, (mapM_None_elem_of _ _ line); [done..|].
    apply hierarchy_record_None. by right.
  - apply (salaries_loop_raises _ _ _ line); [done|].
    apply salary_record_None. right. by left.
  - unfold department_of, salary_field.
    destruct (fields_of sep line) as [|f0 [|f1 [|f2 fields]]]; try done.
    intros _. by exists f1.
Qed.

Lemma short_line_raises_witness :
  generate_hierarchy short_line_file ";" = Raise ValueError ∧
  generate_report_by_department py_int short_line_file ";" = Raise ValueError ∧
  (length (fields_of ";" ("2;3000" +:+ newline)) = 2%nat →
   ∃ field, department_of ";" ("2;3000" +:+ newline) = Some field ∧
            salary_field ";" ("2;3000" +:+ newline) = field).
Proof.
  apply (short_line_raises py_int short_line_file ";" ("2;3000" +:+ newline)).
  - right. left.
  - vm_compute. lia.
Defined.

(** C10. The hierarchy never reads the salary: on a file whose data
    lines all have at least three fields it returns a hierarchy, also
    when the last field of some line is not an integer, and on such a
    file the aggregation raises [ValueError]. *)
Theorem hierarchy_ignores_salary (int : string → option Z) (file : list string)
    (sep : string) :
  sep ≠ EmptyString →
  (∀ line, line ∈ data_lines file → (3 ≤ length (fields_of sep line))%nat) →
  (∃ departments_list, generate_hierarchy file sep = Return departments_list) ∧
  ((∃ line, line ∈ data_lines file ∧ int (salary_field sep line) = None) →
   generate_report_by_department int file sep = Raise ValueError).
Proof.
  intros Hsep Hlen. split.
  - rewrite generate_hierarchy_eq.
    destruct (mapM _ _) as [records|] eqn:HmapM; [by eexists|].
    apply mapM_None, Exists_exists in HmapM as (line & Hin & Hnone).
    apply hierarchy_record_None in Hnone as [?|Hshort]; [done|].
    specialize (Hlen line Hin). lia.
  - intros (line & Hin & Hint).
    apply (salaries_loop_raises _ _ _ line); [done|].
    apply salary_record_None. right. by right.
Qed.

Lemma hierarchy_ignores_salary_witness :
  (∃ departments_list, generate_hierarchy bad_salary_file ";" = Return departments_list) ∧
  ((∃ line, line ∈ data_lines bad_salary_file ∧ py_int (salary_field ";" line) = None) →
   generate_report_by_department py_int bad_salary_file ";" = Raise ValueError).
Proof.
  apply (hierarchy_ignores_salary py_int bad_salary_file ";").
  - discriminate.
  - intros line Hin. cbn in Hin.
    apply elem_of_cons in Hin as [->|Hin]; [vm_compute; lia|].
    apply elem_of_cons in Hin as [->|Hin]; [vm_compute; lia|].
    by apply elem_of_nil in Hin.
Defined.

(** C8. In file mode (any option other than ['1'] and ['2']) a
    malformed data line anywhere after the header makes the run raise
    [ValueError] while the input is read: the output file is neither
    opened nor written, the file system and the console are unchanged. *)
Theorem malformed_line_aborts_before_output (int : string → option Z)
    (float_str : spec_float → string) (writable : string → bool)
    (input_filename output_filename separator option text line : string) (w : world) :
  option ≠ "1" → option ≠ "2" →
  files w !! input_filename = Some text →
  line ∈ data_lines (readlines text) →
  malformed int separator line →
  generate_report int float_str writable input_filename output_filename separator
                  option w =
    (Raise ValueError, w).
Proof.
  intros H1 H2 Hfile Hin Hbad. unfold generate_report. rewrite Hfile.
  destruct (utf8_valid text); [|done]. cbn [negb].
  rewrite decide_False by done.
  rewrite (salaries_loop_raises _ _ _ line); [done..|].
  apply salary_record_None. by right.
Qed.

Lemma malformed_line_aborts_before_output_witness :
  generate_report py_int float_str_exact every_file "test.csv" "result.csv" ";" "3"
                  (world_with "test.csv" bad_salary_file) =
    (Raise ValueError, world_with "test.csv" bad_salary_file).
Proof.
  apply (malformed_line_aborts_before_output py_int float_str_exact every_file
           "test.csv" "result.csv" ";" "3"
           (foldr String.append EmptyString bad_salary_file)
           ("2;Ops;Support;dev;2;high" +:+ newline)).
  - discriminate.
  - discriminate.
  - reflexivity.
  - right. left.
  - right. reflexivity.
Defined.

(** ** Rounding of an integer quotient to binary64 *)

Lemma digits2_pos_bounds (p : positive) :
  2 ^ (Zpos (digits2_pos p) - 1) ≤ Zpos p < 2 ^ Zpos (digits2_pos p).
Proof.
  induction p as [p IH|p IH|]; cbn [digits2_pos].
  - rewrite Pos2Z.inj_succ.
    replace (Z.succ (Zpos (digits2_pos p)) - 1) with (Z.succ (Zpos (digits2_pos p) - 1)) by lia.
    rewrite !Z.pow_succ_r by lia. lia.
  - rewrite Pos2Z.inj_succ.
    replace (Z.succ (Zpos (digits2_pos p)) - 1) with (Z.succ (Zpos (digits2_pos p) - 1)) by lia.
    rewrite !Z.pow_succ_r by lia. lia.
  - simpl. lia.
Qed.

Lemma Zdigits2_bounds (q : Z) :
  0 < q → 2 ^ (Zdigits2 q - 1) ≤ q < 2 ^ Zdigits2 q.
Proof. destruct q as [|p|p]; [lia | | lia]. intros _. apply digits2_pos_bounds. Qed.

Lemma Zdigits2_nonneg (q : Z) : 0 ≤ Zdigits2 q.
Proof. destruct q; simpl; lia. Qed.

Lemma Zdigits2_pos (q : Z) : 0 < q → 0 < Zdigits2 q.
Proof. destruct q; simpl; lia. Qed.

Lemma fexp_eq (z : Z) : fexp prec emax z = Z.max (z - 53) (-1074).
Proof. reflexivity. Qed.

Lemma shr_1_spec (m : Z) (r s : bool) :
  0 ≤ m →
  shr_1 {| shr_m := m; shr_r := r; shr_s := s |} =
    {| shr_m := m / 2; shr_r := Z.odd m; shr_s := r || s |}.
Proof.
  intros Hm. rewrite <-Z.div2_div.
  destruct m as [|[p|p|]|p]; try reflexivity. lia.
Qed.

Lemma mod_double (Y D : Z) :
  0 < D → Y mod (D * 2) = 0 ↔ Y mod D = 0 ∧ Z.odd (Y / D) = false.
Proof.
  intros HD. rewrite !Z.mod_divide by lia. split.
  - intros [k ->]. split.
    + exists (k * 2). lia.
    + replace (k * (D * 2)) with ((2 * k) * D) by lia.
      rewrite Z.div_mul by lia. by rewrite Z.odd_mul.
  - intros [[k ->] Hodd]. rewrite Z.div_mul in Hodd by lia.
    exists (Z.div2 k). rewrite (Z.div2_odd k) at 1. rewrite Hodd. simpl. lia.
Qed.

Lemma shr_1_inv (Y D : Z) (mrs : shr_record) :
  0 ≤ Y → 0 < D → shr_inv Y D mrs → shr_inv Y (D * 2) (shr_1 mrs).
Proof.
  intros HY HD. destruct mrs as [m r s]. intros [Hm Hloc]. simpl in Hm.
  rewrite shr_1_spec by (subst m; apply Z.div_pos; lia).
  split.
  - simpl. subst m. rewrite Z.div_div by lia. done.
  - rewrite mod_double by done. rewrite <-Hloc, <-Hm.
    destruct r, s, (Z.odd m); simpl; split; try done; by intros [? ?].
Qed.

Lemma iter_pos_shr_inv (Y : Z) (p : positive) :
  0 ≤ Y → ∀ D mrs,
    0 < D → shr_inv Y D mrs → shr_inv Y (D * 2 ^ Zpos p) (SpecFloat.iter_pos shr_1 p mrs).
Proof.
  intros HY. induction p as [p IH|p IH|]; intros D mrs HD Hinv; cbn [SpecFloat.iter_pos].
  - replace (D * 2 ^ Zpos p~1) with (D * 2 * 2 ^ Zpos p * 2 ^ Zpos p).
    + assert (0 < 2 ^ Zpos p) by (apply Z.pow_pos_nonneg; lia).
      apply IH; [lia|]. apply IH; [lia|]. by apply shr_1_inv.
    + replace (Zpos p~1) with (1 + Zpos p + Zpos p) by lia.
      rewrite !Z.pow_add_r, Z.pow_1_r by lia. lia.
  - replace (D * 2 ^ Zpos p~0) with (D * 2 ^ Zpos p * 2 ^ Zpos p).
    + assert (0 < 2 ^ Zpos p) by (apply Z.pow_pos_nonneg; lia).
      apply IH; [lia|]. by apply IH.
    + replace (Zpos p~0) with (Zpos p + Zpos p) by lia.
      rewrite !Z.pow_add_r by lia. lia.
  - rewrite Z.pow_1_r. by apply shr_1_inv.
Qed.

Lemma shr_shr_inv (Y D : Z) (mrs : shr_record) (e n : Z) :
  0 ≤ Y → 0 < D → shr_inv Y D mrs →
  (shr mrs e n).2 = e + Z.max n 0 ∧
  shr_inv Y (D * 2 ^ Z.max n 0) (shr mrs e n).1.
Proof.
  intros HY HD Hinv. destruct n as [|p|p]; simpl.
  - split; [lia|]. by rewrite Z.mul_1_r.
  - split; [lia|]. by apply iter_pos_shr_inv.
  - split; [lia|]. by rewrite Z.mul_1_r.
Qed.

Lemma shr_record_of_loc_inv (Y D q : Z) (lz : location) :
  q = Y / D → (lz = loc_Exact ↔ Y mod D = 0) →
  shr_inv Y D (shr_record_of_loc q lz).
Proof.
  intros -> Hlz. split.
  - by destruct lz as [|[]].
  - rewrite <-Hlz. by destruct lz as [|[]].
Qed.

Lemma round_nearest_even_bounds (m : Z) (lz : location) :
  m ≤ round_nearest_even m lz ≤ m + 1 ∧
  (lz = loc_Exact → round_nearest_even m lz = m).
Proof.
  destruct lz as [|[]]; simpl; try (split; [lia | done]).
  destruct (Z.even m); split; done || lia.
Qed.

Lemma pow2_pos (n : Z) : 0 ≤ n → 0 < 2 ^ n.
Proof. intros. apply Z.pow_pos_nonneg; lia. Qed.

Lemma pow2_le_inv (a b : Z) : 0 ≤ b → 2 ^ a ≤ 2 ^ b → a ≤ b.
Proof. intros Hb Hle. apply (Z.pow_le_mono_r_iff 2); lia. Qed.

Lemma pow2_le_digits (q k : Z) : 0 < q → 0 ≤ k → k < Zdigits2 q → 2 ^ k ≤ q.
Proof.
  intros Hq Hk Hlt. etrans; [|apply (Zdigits2_bounds q Hq)].
  apply Z.pow_le_mono_r; lia.
Qed.

Lemma mul_le_cancel_r (x y c : Z) : 0 < c → x * c ≤ y * c → x ≤ y.
Proof. intros Hc. by apply Z.mul_le_mono_pos_r. Qed.

Section rounding_bounds.
Variables (Y D s q H : Z) (lz : location).
Hypotheses (HY : 0 ≤ Y) (HD : 0 < D) (Hs : 0 ≤ s).
Hypothesis Hq : q = Y / D.
Hypothesis Hupper : Y ≤ H * (D * 2 ^ s).
Hypothesis HH : H ≤ 2 ^ 53.

Let n1 := Z.max (fexp prec emax (Zdigits2 q + - s) - - s) 0.

Lemma q_nonneg : 0 ≤ q.
Proof. subst q. apply Z.div_pos; lia. Qed.

Lemma q_upper : q ≤ 2 ^ (53 + s).
Proof.
  assert (0 < 2 ^ s) by by apply pow2_pos.
  assert (q * D ≤ Y) by (subst q; rewrite Z.mul_comm; apply Z.mul_div_le; lia).
  rewrite Z.pow_add_r by lia.
  apply (mul_le_cancel_r _ _ D HD). nia.
Qed.

(** A positive final exponent of the first shift only occurs when the
    quotient is [2^53] exactly. *)
Lemma first_shift_long :
  s < n1 → n1 = 1 + s ∧ Zdigits2 q = 54 + s ∧ Y = 2 ^ 52 * (D * 2 ^ n1).
Proof.
  intros Hn1. unfold n1 in *. rewrite fexp_eq in *.
  pose proof q_nonneg as Hq0. pose proof q_upper as Hqu.
  assert (54 + s ≤ Zdigits2 q) as Hdig by lia.
  assert (0 < q) as Hqpos.
  { destruct (decide (q = 0)) as [Hz|]; [|lia]. rewrite Hz in Hdig. simpl in Hdig. lia. }
  assert (2 ^ (53 + s) ≤ q) as Hql by (apply pow2_le_digits; lia).
  assert (q = 2 ^ (53 + s)) as Hqeq by lia.
  assert (Zdigits2 q ≤ 54 + s) as Hdig'.
  { pose proof (Zdigits2_bounds q Hqpos) as [Hlow _]. rewrite Hqeq in Hlow at 2.
    apply pow2_le_inv in Hlow; lia. }
  assert (Zdigits2 q = 54 + s) as Hdeq by lia.
  split; [lia|]. split; [done|].
  replace (Z.max (Z.max (Zdigits2 q + - s - 53) (-1074) - - s) 0) with (1 + s) by lia.
  assert (0 < 2 ^ s) by by apply pow2_pos.
  assert (q * D ≤ Y) by (subst q; rewrite Z.mul_comm; apply Z.mul_div_le; lia).
  rewrite Z.pow_add_r in Hqeq by lia.
  rewrite Z.pow_add_r, Z.pow_1_r by lia.
  change (2 ^ 53) with (2 ^ 52 * 2) in *. nia.
Qed.

Lemma rounded_upper (m2 : Z) :
  m2 ≤ Y / (D * 2 ^ n1) + 1 →
  (Y mod (D * 2 ^ n1) = 0 → m2 = Y / (D * 2 ^ n1)) →
  m2 * 2 ^ n1 ≤ H * 2 ^ s.
Proof.
  intros Hm2 Hexact.
  assert (0 ≤ n1) as Hn1 by (unfold n1; lia).
  assert (0 < 2 ^ n1) as HP by by apply pow2_pos.
  assert (0 < 2 ^ s) as HS by by apply pow2_pos.
  assert (0 < D * 2 ^ n1) as HDP by lia.
  destruct (decide (Y mod (D * 2 ^ n1) = 0)) as [Hz|Hnz].
  - rewrite (Hexact Hz).
    pose proof (Z_div_exact_full_2 Y (D * 2 ^ n1) ltac:(lia) Hz) as HYeq.
    apply (mul_le_cancel_r _ _ D HD).
    set (m1 := Y / (D * 2 ^ n1)) in *. nia.
  - destruct (decide (n1 ≤ s)) as [Hle|Hgt].
    + assert (2 ^ s = 2 ^ (s - n1) * 2 ^ n1) as HSeq
        by (rewrite <-Z.pow_add_r by lia; f_equal; lia).
      assert (0 < 2 ^ (s - n1)) as HT by (apply pow2_pos; lia).
      assert (Y ≠ (D * 2 ^ n1) * (H * 2 ^ (s - n1))) as Hne.
      { intros Heq. apply Hnz. rewrite Heq, Z.mul_comm. apply Z.mod_mul. lia. }
      assert (Y / (D * 2 ^ n1) < H * 2 ^ (s - n1)) as Hlt.
      { apply Z.div_lt_upper_bound; [done|]. rewrite HSeq in Hupper. nia. }
      rewrite HSeq. nia.
    + exfalso. apply Hnz.
      destruct first_shift_long as (_ & _ & ->); [lia|].
      apply Z.mod_mul. lia.
Qed.

Lemma rounded_lower (L m2 : Z) :
  L * (D * 2 ^ s) ≤ Y → L ≤ 2 ^ 53 →
  Y / (D * 2 ^ n1) ≤ m2 →
  let n2 := Z.max (fexp prec emax (Zdigits2 m2 + (- s + n1)) - (- s + n1)) 0 in
  L * 2 ^ s ≤ m2 / (1 * 2 ^ n2) * 2 ^ (n1 + n2).
Proof.
  intros Hlower HL Hm2 n2.
  assert (0 ≤ n1) as Hn1 by (unfold n1; lia).
  assert (0 ≤ n2) as Hn2 by (unfold n2; lia).
  assert (0 < 2 ^ n1) as HP1 by by apply pow2_pos.
  assert (0 < 2 ^ n2) as HP2 by by apply pow2_pos.
  assert (0 < 2 ^ s) as HS by by apply pow2_pos.
  rewrite Z.mul_1_l.
  destruct (decide (n1 + n2 ≤ s)) as [Hle|Hgt].
  - assert (2 ^ s = 2 ^ (s - (n1 + n2)) * 2 ^ (n1 + n2)) as HSeq
      by (rewrite <-Z.pow_add_r by lia; f_equal; lia).
    assert (0 < 2 ^ (s - (n1 + n2))) as HT by (apply pow2_pos; lia).
    assert (0 < 2 ^ (n1 + n2)) as HPN by (apply pow2_pos; lia).
    assert (L * 2 ^ (s - (n1 + n2)) ≤ m2 / 2 ^ n2) as Hle'.
    { etrans; [|apply Z.div_le_mono; [done | exact Hm2]].
      rewrite Z.div_div by lia. rewrite <-Z.mul_assoc, <-Z.pow_add_r by lia.
      apply Z.div_le_lower_bound; [lia|]. rewrite HSeq in Hlower. nia. }
    rewrite HSeq. nia.
  - assert (2 ^ 52 ≤ m2 / 2 ^ n2) as Hbig.
    { destruct (decide (0 < n2)) as [Hpos|Hzero].
      - unfold n2 in *. rewrite fexp_eq in *.
        assert (0 < m2) as Hm2pos.
        { assert (0 ≤ m2) by (etrans; [|exact Hm2]; apply Z.div_pos; lia).
          destruct (decide (m2 = 0)) as [Hz|]; [|lia].
          exfalso. rewrite Hz in Hpos. change (Zdigits2 0) with 0 in Hpos.
          unfold n1 in Hpos. rewrite fexp_eq in Hpos. lia. }
        apply Z.div_le_lower_bound; [done|].
        rewrite Z.mul_comm, <-Z.pow_add_r by lia.
        apply pow2_le_digits; lia.
      - assert (n2 = 0) as Hn2z by lia. rewrite Hn2z, Z.pow_0_r, Z.div_1_r.
        destruct first_shift_long as (_ & _ & HYeq); [lia|].
        fold n1 in HYeq. rewrite HYeq, Z.div_mul in Hm2 by lia. done. }
    assert (2 ^ s * 2 ≤ 2 ^ (n1 + n2)) as Hpow.
    { rewrite <-(Z.pow_1_r 2) at 2. rewrite <-Z.pow_add_r by lia.
      apply Z.pow_le_mono_r; lia. }
    change (2 ^ 53) with (2 ^ 52 * 2) in HL. nia.
Qed.
End rounding_bounds.

(** The rounded quotient lies between two integer bounds of the exact
    quotient [Y / (D * 2^s)] when the bounds are at most [2^53]. *)
Lemma binary_round_aux_bounds (sx : bool) (Y D s q L H : Z) (lz : location) :
  0 ≤ Y → 0 < D → 0 ≤ s →
  q = Y / D → (lz = loc_Exact ↔ Y mod D = 0) →
  L * (D * 2 ^ s) ≤ Y ≤ H * (D * 2 ^ s) →
  L ≤ 2 ^ 53 → H ≤ 2 ^ 53 →
  ∃ m e,
    0 ≤ m ∧
    binary_round_aux prec emax sx q (- s) lz =
      match m with
      | Z0 => S754_zero sx
      | Zpos p => S754_finite sx p e
      | Zneg _ => S754_nan
      end ∧
    (0 ≤ e → L ≤ m * 2 ^ e ≤ H) ∧
    (e < 0 → L * 2 ^ (- e) ≤ m ≤ H * 2 ^ (- e)).
Proof.
  intros HY HD Hs Hq Hlz [Hlower Hupper] HL HH.
  unfold binary_round_aux, shr_fexp.
  set (n1 := fexp prec emax (Zdigits2 q + - s) - - s).
  pose proof (shr_shr_inv Y D (shr_record_of_loc q lz) (- s) n1 HY HD
                (shr_record_of_loc_inv Y D q lz Hq Hlz)) as [He1 [Hm1 Hloc1]].
  destruct (shr (shr_record_of_loc q lz) (- s) n1) as [mrs1 e1]. simpl in He1, Hm1, Hloc1.
  pose proof (round_nearest_even_bounds (shr_m mrs1) (loc_of_shr_record mrs1))
    as [[Hm2l Hm2u] Hm2e].
  set (m2 := round_nearest_even (shr_m mrs1) (loc_of_shr_record mrs1)) in *.
  assert (0 ≤ shr_m mrs1) as Hm1pos.
  { rewrite Hm1. apply Z.div_pos; [lia|].
    apply Z.mul_pos_pos; [lia|]. apply pow2_pos. lia. }
  set (n2 := fexp prec emax (Zdigits2 m2 + e1) - e1).
  pose proof (shr_shr_inv m2 1 (shr_record_of_loc m2 loc_Exact) e1 n2
                ltac:(lia) ltac:(lia)
                (shr_record_of_loc_inv m2 1 m2 loc_Exact
                   ltac:(by rewrite Z.div_1_r)
                   ltac:(by rewrite Z.mod_1_r))) as [He2 [Hm3 _]].
  destruct (shr (shr_record_of_loc m2 loc_Exact) e1 n2) as [mrs2 e2]. simpl in He2, Hm3.
  assert (0 ≤ Z.max n1 0 ∧ 0 ≤ Z.max n2 0) as [Hn1 Hn2] by lia.
  assert (0 < 2 ^ Z.max n1 0) as HP1 by by apply pow2_pos.
  assert (0 < 2 ^ Z.max n2 0) as HP2 by by apply pow2_pos.
  assert (0 < 2 ^ s) as HS by by apply pow2_pos.
  assert (0 ≤ shr_m mrs2) as Hm3pos.
  { rewrite Hm3. apply Z.div_pos; lia. }
  (* the value, scaled by [2^s], against the scaled bounds *)
  assert (shr_m mrs2 * 2 ^ (Z.max n1 0 + Z.max n2 0) ≤ H * 2 ^ s) as HU.
  { pose proof (rounded_upper Y D s q H HY HD Hs Hq Hupper HH m2) as HA.
    cbv zeta in HA. fold n1 in HA. rewrite <-Hm1 in HA.
    specialize (HA Hm2u (λ Hz, Hm2e (proj2 Hloc1 Hz))).
    rewrite Z.pow_add_r by lia.
    assert (shr_m mrs2 * 2 ^ Z.max n2 0 ≤ m2) as Hfloor.
    { rewrite Hm3, Z.mul_1_l, Z.mul_comm. apply Z.mul_div_le. lia. }
    nia. }
  assert (L * 2 ^ s ≤ shr_m mrs2 * 2 ^ (Z.max n1 0 + Z.max n2 0)) as HLo.
  { pose proof (rounded_lower Y D s q H HY HD Hs Hq Hupper HH L m2 Hlower HL) as HB.
    cbv zeta in HB. fold n1 in HB. rewrite <-Hm1 in HB. specialize (HB Hm2l).
    rewrite <-He1 in HB. fold n2 in HB. by rewrite Hm3. }
  exists (shr_m mrs2), e2. split; [done|]. split.
  - destruct (shr_m mrs2) as [|p|p] eqn:Hm3eq; [done | | lia].
    assert (2 ^ (Z.max n1 0 + Z.max n2 0) ≤ 2 ^ (53 + s)) as Hpow.
    { rewrite (Z.pow_add_r 2 53 s) by lia.
      assert (0 < 2 ^ (Z.max n1 0 + Z.max n2 0)) by (apply pow2_pos; lia). nia. }
    apply pow2_le_inv in Hpow; [|lia].
    assert ((e2 <=? emax - prec) = true) as -> by (apply Z.leb_le; unfold emax, prec; lia).
    done.
  - assert (e2 = Z.max n1 0 + Z.max n2 0 - s) as He2' by lia.
    split; intros He.
    + assert (2 ^ (Z.max n1 0 + Z.max n2 0) = 2 ^ e2 * 2 ^ s) as Hsplit
        by (rewrite <-Z.pow_add_r by lia; f_equal; lia).
      rewrite Hsplit in HU, HLo.
      split; apply (mul_le_cancel_r _ _ (2 ^ s) HS); lia.
    + assert (2 ^ s = 2 ^ (- e2) * 2 ^ (Z.max n1 0 + Z.max n2 0)) as Hsplit
        by (rewrite <-Z.pow_add_r by lia; f_equal; lia).
      assert (0 < 2 ^ (Z.max n1 0 + Z.max n2 0)) as HPN by (apply pow2_pos; lia).
      rewrite Hsplit in HU, HLo.
      split; apply (mul_le_cancel_r _ _ _ HPN); lia.
Qed.

Lemma new_location_Exact (n k : Z) : new_location n k = loc_Exact ↔ k = 0.
Proof.
  unfold new_location, new_location_even, new_location_odd.
  destruct (Z.even n), (Z.eqb_spec k 0); split; done.
Qed.

Lemma SFdiv_core_binary_spec (a b : positive) :
  ∃ s, 0 ≤ s ∧
    SFdiv_core_binary prec emax (Zpos a) 0 (Zpos b) 0 =
      (Zpos a * 2 ^ s / Zpos b, - s,
       new_location (Zpos b) ((Zpos a * 2 ^ s) mod Zpos b)).
Proof.
  unfold SFdiv_core_binary.
  set (e' := Z.min _ _).
  assert (e' ≤ 0) as He' by (unfold e'; lia).
  exists (- e'). split; [lia|].
  replace (0 - 0 - e') with (- e') by lia. rewrite Z.opp_involutive.
  assert (match - e' with
          | 0 => Zpos a
          | Zpos _ => Z.shiftl (Zpos a) (- e')
          | Zneg _ => 0
          end = Zpos a * 2 ^ (- e')) as ->.
  { destruct (- e') as [|p|p] eqn:Hp; [simpl; lia | | lia].
    rewrite Z.shiftl_mul_pow2 by lia. done. }
  unfold Z.div, Z.modulo. by destruct (Z.div_eucl _ _).
Qed.

Lemma SFdiv_pos_between (sx : bool) (a b : positive) (L H : Z) :
  L * Zpos b ≤ Zpos a ≤ H * Zpos b → L ≤ 2 ^ 53 → H ≤ 2 ^ 53 →
  ∃ m e,
    0 ≤ m ∧
    (let '(mz, ez, lz) := SFdiv_core_binary prec emax (Zpos a) 0 (Zpos b) 0 in
     binary_round_aux prec emax sx mz ez lz) =
      match m with
      | Z0 => S754_zero sx
      | Zpos p => S754_finite sx p e
      | Zneg _ => S754_nan
      end ∧
    (0 ≤ e → L ≤ m * 2 ^ e ≤ H) ∧
    (e < 0 → L * 2 ^ (- e) ≤ m ≤ H * 2 ^ (- e)).
Proof.
  intros [Hlower Hupper] HL HH.
  destruct (SFdiv_core_binary_spec a b) as (s & Hs & ->).
  assert (0 < 2 ^ s) by by apply pow2_pos.
  apply (binary_round_aux_bounds sx (Zpos a * 2 ^ s) (Zpos b) s); try done; try lia.
  - apply new_location_Exact.
  - split; nia.
Qed.

Lemma int_truediv_between (a b lo hi : Z) :
  0 < b → lo * b ≤ a ≤ hi * b → - 2 ^ 53 ≤ lo → hi ≤ 2 ^ 53 →
  ∃ x, int_truediv a b = Return x ∧ float_between lo hi x.
Proof.
  intros Hb [Hlower Hupper] Hlo Hhi. unfold int_truediv, float_between.
  destruct (Z.eqb_spec b 0) as [->|_]; [lia|].
  assert (lo ≤ hi) as Hlohi by nia.
  destruct b as [|pb|pb]; try lia.
  destruct a as [|pa|pa]; cbn [float_of_Z_exact SFdiv xorb].
  - eexists. split; [done|]. simpl. split; apply Z.leb_le; nia.
  - destruct (SFdiv_pos_between false pa pb lo hi) as (m & e & Hm & -> & Hpos & Hneg);
      [lia.. |].
    destruct m as [|p|p]; [| |lia].
    + eexists. split; [done|]. simpl.
      destruct (Z.le_gt_cases 0 e) as [He|He].
      * specialize (Hpos He). split; apply Z.leb_le; lia.
      * specialize (Hneg He). assert (0 < 2 ^ (- e)) by (apply pow2_pos; lia).
        split; apply Z.leb_le; nia.
    + eexists. split; [done|]. cbn [int_le_float float_le_int cond_Zopp].
      destruct (Z.leb_spec 0 e) as [He|He].
      * specialize (Hpos He). split; apply Z.leb_le; lia.
      * specialize (Hneg He). split; apply Z.leb_le; lia.
  - destruct (SFdiv_pos_between true pa pb (- hi) (- lo)) as (m & e & Hm & -> & Hpos & Hneg);
      [lia.. |].
    destruct m as [|p|p]; [| |lia].
    + eexists. split; [done|]. simpl.
      destruct (Z.le_gt_cases 0 e) as [He|He].
      * specialize (Hpos He). split; apply Z.leb_le; lia.
      * specialize (Hneg He). assert (0 < 2 ^ (- e)) by (apply pow2_pos; lia).
        split; apply Z.leb_le; nia.
    + eexists. split; [done|]. cbn [int_le_float float_le_int cond_Zopp].
      destruct (Z.leb_spec 0 e) as [He|He].
      * specialize (Hpos He). split; apply Z.leb_le; lia.
      * specialize (Hneg He). split; apply Z.leb_le; lia.
Qed.

(** ** The hierarchy (C6, C7) *)

Lemma foldl_add_team (records : list (string * string)) (teams : gset string) :
  foldl (λ teams r, {[r.2]} ∪ teams) teams records = list_to_set records.*2 ∪ teams.
Proof.
  revert teams. induction records as [|r records IH]; intros teams; simpl.
  - set_solver.
  - rewrite IH. set_solver.
Qed.

Lemma hierarchy_records_of_department sep lines records department :
  mapM (hierarchy_record sep) lines = Some records →
  (filter (λ r, r.1 = department) records).*2 =
    omap (team_of sep) (filter (λ line, department_of sep line = Some department) lines).
Proof.
  rewrite mapM_Some. induction 1 as [|line [d t] lines records Hr _ IH]; [done|].
  apply hierarchy_record_Some in Hr as (_ & Hd & Ht).
  rewrite !filter_cons, Hd. simpl.
  destruct (decide (d = department)) as [->|Hne].
  - rewrite decide_True by done. rewrite fmap_cons. cbn [omap list_omap].
    rewrite Ht. simpl. by f_equal.
  - rewrite decide_False by congruence. done.
Qed.

Lemma hierarchy_records_departments sep lines records :
  mapM (hierarchy_record sep) lines = Some records →
  records.*1 = omap (department_of sep) lines.
Proof.
  rewrite mapM_Some. induction 1 as [|line [d t] lines records Hr _ IH]; [done|].
  apply hierarchy_record_Some in Hr as (_ & Hd & Ht).
  rewrite fmap_cons. cbn [omap list_omap]. rewrite Hd. simpl. by f_equal.
Qed.

Lemma elem_of_omap_department sep (lines : list string) department :
  department ∈ omap (department_of sep) lines ↔
    ∃ line, line ∈ lines ∧ department_of sep line = Some department.
Proof. apply list_elem_of_omap. Qed.

(** The hierarchy as a function of the data lines. *)
Lemma generate_hierarchy_Return file sep departments_list :
  generate_hierarchy file sep = Return departments_list →
  dict_keys departments_list = first_occurrences (omap (department_of sep) (data_lines file)) ∧
  ∀ department,
    department ∈ dict_keys departments_list →
    dict_get departments_list department =
      Some (list_to_set (department_teams sep department file)).
Proof.
  rewrite generate_hierarchy_eq.
  destruct (mapM _ _) as [records|] eqn:HmapM; [|done].
  intros [= <-]. split.
  - by rewrite dict_keys_group_nil, (hierarchy_records_departments _ _ _ HmapM).
  - intros department Hin. rewrite dict_get_group.
    rewrite dict_keys_group_nil, elem_of_first_occurrences in Hin.
    rewrite decide_True by by left.
    simpl. rewrite foldl_add_team, (hierarchy_records_of_department _ _ _ _ HmapM).
    f_equal. unfold department_teams, lines_of_department. set_solver.
Qed.

(** C6. The keys of the hierarchy are the distinct department values of
    the data lines (every one once, the header line excluded), and the
    value of a department is the set of the team values of its lines, so
    that a repeated (department, team) pair counts once. *)
Theorem hierarchy_departments_and_teams (file : list string) (sep : string)
    (departments_list : list (string * gset string)) :
  generate_hierarchy file sep = Return departments_list →
  NoDup (dict_keys departments_list) ∧
  (∀ department,
     department ∈ dict_keys departments_list ↔
     ∃ line, line ∈ data_lines file ∧ department_of sep line = Some department) ∧
  (∀ department teams,
     dict_get departments_list department = Some teams →
     teams = list_to_set (department_teams sep department file) ∧
     ∀ team, team ∈ teams ↔
             ∃ line, line ∈ data_lines file ∧
                     department_of sep line = Some department ∧
                     team_of sep line = Some team).
Proof.
  intros [Hkeys Hget]%generate_hierarchy_Return. split; [|split].
  - rewrite Hkeys. apply NoDup_first_occurrences.
  - intros department.
    by rewrite Hkeys, elem_of_first_occurrences, elem_of_omap_department.
  - intros department teams Hteams.
    assert (department ∈ dict_keys departments_list) as Hin
      by (apply dict_get_is_Some; eauto).
    rewrite (Hget _ Hin) in Hteams. injection Hteams as <-. split; [done|].
    intros team. rewrite elem_of_list_to_set.
    unfold department_teams, lines_of_department.
    rewrite list_elem_of_omap. split.
    + intros (line & [Hd Hl]%list_elem_of_filter & Ht). eauto.
    + intros (line & Hl & Hd & Ht). exists line. split; [|done].
      by apply list_elem_of_filter.
Qed.

(** The scenario of the specification: [{Eng: {Backend, Frontend}}]. *)
Example sample_hierarchy :
  generate_hierarchy sample_file ";" =
    Return [("Eng", {["Frontend"]} ∪ ({["Backend"]} ∪ ∅))].
Proof. vm_compute. reflexivity. Qed.

Lemma hierarchy_departments_and_teams_witness :
  let departments_list : list (string * gset string) :=
    [("Eng", {["Frontend"]} ∪ ({["Backend"]} ∪ ∅))] in
  NoDup (dict_keys departments_list) ∧
  (∀ department,
     department ∈ dict_keys departments_list ↔
     ∃ line, line ∈ data_lines sample_file ∧ department_of ";" line = Some department) ∧
  (∀ department teams,
     dict_get departments_list department = Some teams →
     teams = list_to_set (department_teams ";" department sample_file) ∧
     ∀ team, team ∈ teams ↔
             ∃ line, line ∈ data_lines sample_file ∧
                     department_of ";" line = Some department ∧
                     team_of ";" line = Some team).
Proof.
  apply (hierarchy_departments_and_teams sample_file ";").
  vm_compute. reflexivity.
Defined.

Lemma hierarchy_team_iff file sep departments_list department teams team :
  generate_hierarchy file sep = Return departments_list →
  dict_get departments_list department = Some teams →
  team ∈ teams ↔
    ∃ line, line ∈ data_lines file ∧ department_of sep line = Some department ∧
            team_of sep line = Some team.
Proof.
  intros [Hkeys Hget]%generate_hierarchy_Return Hteams.
  assert (department ∈ dict_keys departments_list) as Hin
    by (apply dict_get_is_Some; eauto).
  rewrite (Hget _ Hin) in Hteams. injection Hteams as <-.
  rewrite elem_of_list_to_set. unfold department_teams, lines_of_department.
  rewrite list_elem_of_omap. split.
  - intros (line & [Hd Hl]%list_elem_of_filter & Ht). eauto.
  - intros (line & Hl & Hd & Ht). exists line. split; [|done].
    by apply list_elem_of_filter.
Qed.

(** C7, as the specification states it, fails: two departments may both
    have a team of the same name, and the team is then listed under
    both. *)
Lemma shared_team_counterexample :
  ∃ departments_list,
    generate_hierarchy shared_team_file ";" = Return departments_list ∧
    ¬ no_shared_team departments_list.
Proof.
  exists [("Eng", {["Core"]} ∪ ∅); ("Ops", {["Core"]} ∪ ∅)].
  split; [vm_compute; reflexivity|].
  intros Hno.
  specialize (Hno "Eng" "Ops" _ _ "Core" eq_refl eq_refl).
  discriminate Hno; set_solver.
Qed.

(** C7, amended. A team name is a member of the team set of a department
    exactly when some data line carries that department with that team.
    Hence a team name whose data lines all carry the same department
    appears under that department and under no other. *)
Theorem team_under_departments_of_its_lines (file : list string) (sep : string)
    (departments_list : list (string * gset string)) :
  generate_hierarchy file sep = Return departments_list →
  (∀ department teams team,
     dict_get departments_list department = Some teams →
     team ∈ teams ↔
       ∃ line, line ∈ data_lines file ∧ department_of sep line = Some department ∧
               team_of sep line = Some team) ∧
  (∀ department team,
     (∃ line, line ∈ data_lines file ∧ department_of sep line = Some department ∧
              team_of sep line = Some team) →
     (∀ line, line ∈ data_lines file → team_of sep line = Some team →
              department_of sep line = Some department) →
     (∃ teams, dict_get departments_list department = Some teams ∧ team ∈ teams) ∧
     (∀ department' teams',
        dict_get departments_list department' = Some teams' → team ∈ teams' →
        department' = department)).
Proof.
  intros Hgen. split.
  - intros department teams team Hteams. by eapply hierarchy_team_iff.
  - intros department team Hline Hsingle. split.
    + destruct Hline as (line & Hl & Hd & Ht).
      pose proof (generate_hierarchy_Return _ _ _ Hgen) as [Hkeys _].
      assert (department ∈ dict_keys departments_list) as Hin.
      { rewrite Hkeys, elem_of_first_occurrences, elem_of_omap_department. eauto. }
      apply dict_get_is_Some in Hin as [teams Hteams].
      exists teams. split; [done|].
      apply (hierarchy_team_iff _ _ _ _ _ _ Hgen Hteams). eauto.
    + intros department' teams' Hteams' Hin'.
      apply (hierarchy_team_iff _ _ _ _ _ _ Hgen Hteams') in Hin'
        as (line & Hl & Hd & Ht).
      specialize (Hsingle line Hl Ht). congruence.
Qed.

Lemma team_under_departments_of_its_lines_witness :
  let departments_list : list (string * gset string) :=
    [("Eng", {["Core"]} ∪ ∅); ("Ops", {["Core"]} ∪ ∅)] in
  (∀ department teams team,
     dict_get departments_list department = Some teams →
     team ∈ teams ↔
       ∃ line, line ∈ data_lines shared_team_file ∧
               department_of ";" line = Some department ∧
               team_of ";" line = Some team) ∧
  (∀ department team,
     (∃ line, line ∈ data_lines shared_team_file ∧
              department_of ";" line = Some department ∧
              team_of ";" line = Some team) →
     (∀ line, line ∈ data_lines shared_team_file → team_of ";" line = Some team →
              department_of ";" line = Some department) →
     (∃ teams, dict_get departments_list department = Some teams ∧ team ∈ teams) ∧
     (∀ department' teams',
        dict_get departments_list department' = Some teams' → team ∈ teams' →
        department' = department)).
Proof.
  apply (team_under_departments_of_its_lines shared_team_file ";").
  vm_compute. reflexivity.
Defined.

(** ** The aggregation (C2, C1) *)

Lemma foldl_min_spec (x : Z) (l : list Z) :
  foldl Z.min x l ∈ x :: l ∧ ∀ y, y ∈ x :: l → foldl Z.min x l ≤ y.
Proof.
  revert x. induction l as [|z l IH]; intros x; simpl.
  - split; [by left|]. intros y [->|Hy]%elem_of_cons; [lia | by apply elem_of_nil in Hy].
  - destruct (IH (Z.min x z)) as [Hin Hle]. split.
    + apply elem_of_cons in Hin as [->|Hin].
      * destruct (Z.min_spec x z) as [[_ ->]|[_ ->]]; [by left | by right; left].
      * by do 2 right.
    + intros y Hy. apply elem_of_cons in Hy as [->|[->|Hy]%elem_of_cons].
      * specialize (Hle (Z.min x z)). etrans; [apply Hle; by left | lia].
      * specialize (Hle (Z.min x z)). etrans; [apply Hle; by left | lia].
      * apply Hle. by right.
Qed.

Lemma foldl_max_spec (x : Z) (l : list Z) :
  foldl Z.max x l ∈ x :: l ∧ ∀ y, y ∈ x :: l → y ≤ foldl Z.max x l.
Proof.
  revert x. induction l as [|z l IH]; intros x; simpl.
  - split; [by left|]. intros y [->|Hy]%elem_of_cons; [lia | by apply elem_of_nil in Hy].
  - destruct (IH (Z.max x z)) as [Hin Hle]. split.
    + apply elem_of_cons in Hin as [->|Hin].
      * destruct (Z.max_spec x z) as [[_ ->]|[_ ->]]; [by right; left | by left].
      * by do 2 right.
    + intros y Hy. apply elem_of_cons in Hy as [->|[->|Hy]%elem_of_cons].
      * specialize (Hle (Z.max x z)). etrans; [|apply Hle; by left]. lia.
      * specialize (Hle (Z.max x z)). etrans; [|apply Hle; by left]. lia.
      * apply Hle. by right.
Qed.

Lemma py_min_Return l lo :
  py_min l = Return lo → lo ∈ l ∧ ∀ y, y ∈ l → lo ≤ y.
Proof. destruct l as [|x l]; [done|]. intros [= <-]. apply foldl_min_spec. Qed.

Lemma py_max_Return l hi :
  py_max l = Return hi → hi ∈ l ∧ ∀ y, y ∈ l → y ≤ hi.
Proof. destruct l as [|x l]; [done|]. intros [= <-]. apply foldl_max_spec. Qed.

Lemma foldl_add_acc (a : Z) (l : list Z) : foldl Z.add a l = a + py_sum l.
Proof.
  unfold py_sum. revert a. induction l as [|x l IH]; intros a; simpl; [lia|].
  rewrite (IH (a + x)), (IH (0 + x)). lia.
Qed.

Lemma py_sum_cons x l : py_sum (x :: l) = x + py_sum l.
Proof. unfold py_sum at 1. simpl. by rewrite foldl_add_acc. Qed.

Lemma py_sum_bounds lo hi l :
  (∀ y, y ∈ l → lo ≤ y) → (∀ y, y ∈ l → y ≤ hi) →
  lo * Z.of_nat (length l) ≤ py_sum l ≤ hi * Z.of_nat (length l).
Proof.
  induction l as [|x l IH]; intros Hlo Hhi.
  - unfold py_sum. simpl. lia.
  - rewrite py_sum_cons. cbn [length].
    assert (lo ≤ x ≤ hi) by (split; [apply Hlo | apply Hhi]; by left).
    destruct IH as [IH1 IH2].
    + intros y Hy. apply Hlo. by right.
    + intros y Hy. apply Hhi. by right.
    + lia.
Qed.

(** What [summary_of] returns. *)
Lemma summary_of_Return department salaries entry :
  summary_of department salaries = Return entry →
  ∃ lo hi,
    py_min salaries = Return lo ∧ py_max salaries = Return hi ∧
    name entry = department ∧
    count entry = Z.of_nat (length salaries) ∧
    salary_range entry = str_of_int lo +:+ " - " +:+ str_of_int hi ∧
    int_truediv (py_sum salaries) (Z.of_nat (length salaries)) =
      Return (average_salary entry).
Proof.
  unfold summary_of.
  destruct (py_min salaries) as [lo|]; simpl; [|done].
  destruct (py_max salaries) as [hi|]; simpl; [|done].
  destruct (int_truediv _ _) as [average|]; simpl; [|done].
  intros [= <-]. by exists lo, hi.
Qed.

Section aggregation.
Variable int : string → option Z.

Lemma summaries_loop_Return items departments_list report :
  summaries_loop items departments_list = Return report ↔
    ∃ entries,
      Forall2 (λ item entry, summary_of item.1 item.2 = Return entry) items entries ∧
      report = departments_list ++ entries.
Proof.
  revert departments_list.
  induction items as [|[department salaries] items IH]; intros departments_list; simpl.
  - split.
    + intros [= <-]. exists []. split; [constructor | by rewrite app_nil_r].
    + intros (entries & ->%Forall2_nil_inv_l & ->). by rewrite app_nil_r.
  - destruct (summary_of department salaries) as [entry|e] eqn:Hentry; simpl.
    + rewrite IH. split.
      * intros (entries & Hall & ->). exists (entry :: entries).
        split; [by constructor | by rewrite <-app_assoc].
      * intros (entries & Hall & ->).
        apply Forall2_cons_inv_l in Hall as (entry' & entries' & Hentry' & Hall & ->).
        simpl in Hentry'. rewrite Hentry in Hentry'. injection Hentry' as <-.
        exists entries'. split; [done | by rewrite <-app_assoc].
    + split; [done|]. intros (entries & Hall & _).
      apply Forall2_cons_inv_l in Hall as (entry' & entries' & Hentry' & _).
      simpl in Hentry'. congruence.
Qed.

Lemma foldl_append_salary (records : list (string * Z)) (salaries : list Z) :
  foldl (λ salaries r, salaries ++ [r.2]) salaries records = salaries ++ records.*2.
Proof.
  revert salaries. induction records as [|r records IH]; intros salaries; simpl.
  - by rewrite app_nil_r.
  - by rewrite IH, <-app_assoc.
Qed.

Lemma salary_records_of_department sep lines records department :
  mapM (salary_record int sep) lines = Some records →
  salaries_of department records =
    omap (λ line, int (salary_field sep line))
         (filter (λ line, department_of sep line = Some department) lines) ∧
  length (salaries_of department records) =
    length (filter (λ line, department_of sep line = Some department) lines).
Proof.
  unfold salaries_of. rewrite mapM_Some.
  induction 1 as [|line [d z] lines records Hr _ [IH1 IH2]]; [done|].
  apply salary_record_Some in Hr as (_ & _ & Hd & Hz).
  rewrite !filter_cons, Hd. simpl.
  destruct (decide (d = department)) as [->|Hne].
  - rewrite decide_True by done. rewrite fmap_cons. cbn [omap list_omap length].
    rewrite Hz. simpl. split; [by f_equal | by f_equal].
  - rewrite decide_False by congruence. done.
Qed.

(** The report as a function of the data lines: the names are the
    departments in the order of their first occurrence, and every
    entry summarises the salaries of the lines of its department. *)
Lemma generate_report_by_department_Return file sep report :
  generate_report_by_department int file sep = Return report →
  name <$> report = first_occurrences (omap (department_of sep) (data_lines file)) ∧
  Forall (λ entry,
            summary_of (name entry) (department_salaries int sep (name entry) file)
              = Return entry ∧
            length (department_salaries int sep (name entry) file) =
              length (lines_of_department sep (name entry) file))
         report.
Proof.
  unfold generate_report_by_department. fold (data_lines file).
  rewrite salaries_loop_eq.
  destruct (mapM _ _) as [records|] eqn:HmapM; [|done]. simpl.
  intros (entries & Hall & ->)%summaries_loop_Return. simpl.
  pose proof (mapM_departments _ _ _ _ HmapM) as [Hdeps _].
  rewrite Hdeps, <-(dict_keys_group_nil [] (λ salary salaries, salaries ++ [salary])).
  set (d := group _ _ records []) in *.
  assert (∀ item, item ∈ d → item.2 = salaries_of item.1 records) as Hitems.
  { intros [department salaries] Hitem. simpl.
    apply elem_of_dict_get in Hitem; [|apply NoDup_dict_keys_group].
    unfold d in Hitem. rewrite dict_get_group in Hitem.
    destruct (decide _); [|done]. simpl in Hitem.
    rewrite foldl_append_salary in Hitem. by injection Hitem as <-. }
  clearbody d. unfold dict_keys.
  induction Hall as [|[department salaries] entry items entries Hentry _ IH];
    [done|].
  simpl in Hentry. rewrite !fmap_cons. simpl.
  pose proof (summary_of_Return _ _ _ Hentry) as (lo & hi & _ & _ & Hname & _).
  destruct IH as [IH1 IH2].
  { intros item Hitem. apply Hitems. by right. }
  rewrite Hname, IH1. split; [done|]. constructor; [|done].
  specialize (Hitems (department, salaries)). simpl in Hitems.
  rewrite Hname. unfold department_salaries, lines_of_department.
  destruct (salary_records_of_department sep _ _ department HmapM) as [<- <-].
  rewrite <-Hitems by by left. done.
Qed.
End aggregation.

(** C2. The report has exactly one entry per distinct department of the
    data lines, in the order in which the departments first occur: the
    names of the entries are the first occurrences of the department
    values.  In particular no name is repeated, and a name is in the
    report only if some data line bears it. *)
Theorem report_in_first_occurrence_order (int : string → option Z)
    (file : list string) (sep : string) (report : list department_summary) :
  generate_report_by_department int file sep = Return report →
  name <$> report = first_occurrences (omap (department_of sep) (data_lines file)) ∧
  NoDup (name <$> report) ∧
  (∀ department,
     department ∈ name <$> report ↔
     ∃ line, line ∈ data_lines file ∧ department_of sep line = Some department).
Proof.
  intros [Hnames _]%generate_report_by_department_Return. rewrite Hnames.
  split; [done|]. split; [apply NoDup_first_occurrences|].
  intros department. by rewrite elem_of_first_occurrences, elem_of_omap_department.
Qed.

Lemma report_in_first_occurrence_order_witness :
  let report :=
    [{| name := "Ops"; count := 2; salary_range := "500 - 700";
        average_salary := S754_finite false 5277655813324800 (-43) |};
     {| name := "Eng"; count := 1; salary_range := "1000 - 1000";
        average_salary := S754_finite false 8796093022208000 (-43) |}] in
  name <$> report =
    first_occurrences (omap (department_of ";") (data_lines interleaved_file)) ∧
  NoDup (name <$> report) ∧
  (∀ department,
     department ∈ name <$> report ↔
     ∃ line, line ∈ data_lines interleaved_file ∧
             department_of ";" line = Some department).
Proof.
  apply (report_in_first_occurrence_order py_int interleaved_file ";").
  vm_compute. reflexivity.
Defined.

Lemma NoDup_fmap_eq {A B} (f : A → B) (l : list A) (x y : A) :
  NoDup (f <$> l) → x ∈ l → y ∈ l → f x = f y → x = y.
Proof.
  induction l as [|z l IH]; intros Hnd Hx Hy Hf; [by apply elem_of_nil in Hx|].
  rewrite fmap_cons in Hnd. apply NoDup_cons in Hnd as [Hz Hnd].
  apply elem_of_cons in Hx as [->|Hx]; apply elem_of_cons in Hy as [->|Hy].
  - done.
  - exfalso. apply Hz. rewrite Hf. by apply list_elem_of_fmap_2.
  - exfalso. apply Hz. rewrite <-Hf. by apply list_elem_of_fmap_2.
  - by apply IH.
Qed.

(** *** When the aggregation returns *)

Lemma group_salaries_item (records : list (string * Z)) (item : string * list Z) :
  item ∈ group [] (λ salary salaries, salaries ++ [salary]) records [] →
  item.1 ∈ records.*1 ∧ item.2 = salaries_of item.1 records.
Proof.
  destruct item as [department salaries]. intros Hitem. simpl.
  assert (department ∈ records.*1) as Hin.
  { rewrite <-elem_of_first_occurrences, <-(dict_keys_group_nil [] (λ salary salaries, salaries ++ [salary])).
    unfold dict_keys. by apply (list_elem_of_fmap_2 fst) in Hitem. }
  split; [done|].
  apply elem_of_dict_get in Hitem; [|apply NoDup_dict_keys_group].
  rewrite dict_get_group, decide_True in Hitem by by left.
  simpl in Hitem. rewrite foldl_append_salary in Hitem. by injection Hitem as <-.
Qed.

Lemma summary_of_returns (department : string) (salaries : list Z) :
  salaries ≠ [] →
  (∀ y, y ∈ salaries → - 2 ^ 53 ≤ y ≤ 2 ^ 53) →
  ∃ entry, summary_of department salaries = Return entry.
Proof.
  intros Hne Hbound. unfold summary_of.
  destruct (py_min salaries) as [lo|] eqn:Hmin; [|by destruct salaries].
  destruct (py_max salaries) as [hi|] eqn:Hmax; [|by destruct salaries].
  apply py_min_Return in Hmin as [Hlo_in Hlo]. apply py_max_Return in Hmax as [Hhi_in Hhi].
  destruct (int_truediv_between (py_sum salaries) (Z.of_nat (length salaries)) lo hi)
    as (x & Hx & _).
  - destruct salaries; [done | simpl; lia].
  - by apply py_sum_bounds.
  - by apply Hbound.
  - by apply Hbound.
  - simpl. rewrite Hx. simpl. by eexists.
Qed.

Lemma summaries_loop_returns (items : list (string * list Z))
    (departments_list : list department_summary) :
  Forall (λ item, ∃ entry, summary_of item.1 item.2 = Return entry) items →
  ∃ report, summaries_loop items departments_list = Return report.
Proof.
  intros Hall. revert departments_list.
  induction Hall as [|[department salaries] items [entry Hentry] _ IH];
    intros departments_list; simpl.
  - by eexists.
  - simpl in Hentry. rewrite Hentry. simpl. apply IH.
Qed.

(** On a well-formed file whose salaries are at most [2^53] in magnitude
    the aggregation returns a report. *)
Lemma generate_report_by_department_returns (int : string → option Z)
    (file : list string) (sep : string) :
  sep ≠ EmptyString →
  (∀ line, line ∈ data_lines file → ¬ malformed int sep line) →
  (∀ line salary,
     line ∈ data_lines file → int (salary_field sep line) = Some salary →
     - 2 ^ 53 ≤ salary ≤ 2 ^ 53) →
  ∃ report, generate_report_by_department int file sep = Return report.
Proof.
  intros Hsep Hwell Hbound. unfold generate_report_by_department.
  fold (data_lines file). rewrite salaries_loop_eq.
  destruct (mapM _ _) as [records|] eqn:HmapM.
  - simpl. apply summaries_loop_returns, Forall_forall.
    intros item [Hkey Hsalaries]%group_salaries_item. rewrite Hsalaries.
    apply summary_of_returns.
    + apply list_elem_of_fmap in Hkey as (r & Hr & Hin). unfold salaries_of.
      intros Hnil. apply fmap_nil_inv in Hnil.
      assert (r ∈ filter (λ r, r.1 = item.1) records) as Hr'
        by by apply list_elem_of_filter.
      rewrite Hnil in Hr'. by apply elem_of_nil in Hr'.
    + intros y Hy. unfold salaries_of in Hy.
      apply list_elem_of_fmap in Hy as ([d z] & -> & [_ Hin]%list_elem_of_filter).
      apply mapM_Some in HmapM.
      apply list_elem_of_lookup in Hin as [i Hi].
      destruct (Forall2_lookup_r _ _ _ _ _ HmapM Hi) as (line & Hline & Hrec).
      apply salary_record_Some in Hrec as (_ & _ & _ & Hint).
      apply (Hbound line); [|done]. by eapply list_elem_of_lookup_2.
  - apply mapM_None, Exists_exists in HmapM as (line & Hin & Hnone).
    apply salary_record_None in Hnone as [?|Hbad]; [done|].
    by destruct (Hwell line Hin).
Qed.

(** The scenario of the specification: one department, two employees. *)
Example sample_aggregation :
  generate_report_by_department py_int sample_file ";" = Return sample_report ∧
  summary_values float_str_exact <$> sample_report =
    [["Eng"; "2"; "1000 - 3000"; "2000.0"]].
Proof. split; vm_compute; reflexivity. Qed.

(** C1, as the specification states it, fails on the order of the
    average: the quotient is rounded to binary64, and with a single salary
    of [2^53 + 1] the average is [2^53], below the minimum. *)
Lemma average_below_minimum_counterexample :
  ∃ entry,
    generate_report_by_department py_int big_salary_file ";" = Return [entry] ∧
    department_salaries py_int ";" "Eng" big_salary_file = [9007199254740993] ∧
    salary_range entry = "9007199254740993 - 9007199254740993" ∧
    int_le_float 9007199254740993 (average_salary entry) = false.
Proof.
  exists {| name := "Eng"; count := 1;
            salary_range := "9007199254740993 - 9007199254740993";
            average_salary := S754_finite false 4503599627370496 1 |}.
  repeat split; vm_compute; reflexivity.
Qed.

(** C1, amended. For every department of the data lines the report has
    one entry; its count is the number of data lines bearing the
    department, its range names the least and the greatest salary of
    these lines, and its average is the quotient of their sum by the count
    rounded once to binary64.  The exact mean lies between the minimum and
    the maximum, and so does the float when no salary of the department
    exceeds [2^53] in magnitude. *)
Theorem department_summary_correct (int : string → option Z) (file : list string)
    (sep : string) (report : list department_summary) (department : string) :
  generate_report_by_department int file sep = Return report →
  (∃ line, line ∈ data_lines file ∧ department_of sep line = Some department) →
  ∃ entry lo hi,
    entry ∈ report ∧ name entry = department ∧
    (∀ entry', entry' ∈ report → name entry' = department → entry' = entry) ∧
    let salaries := department_salaries int sep department file in
    count entry = Z.of_nat (length (lines_of_department sep department file)) ∧
    length salaries = length (lines_of_department sep department file) ∧
    lo ∈ salaries ∧ (∀ y, y ∈ salaries → lo ≤ y) ∧
    hi ∈ salaries ∧ (∀ y, y ∈ salaries → y ≤ hi) ∧
    salary_range entry = str_of_int lo +:+ " - " +:+ str_of_int hi ∧
    int_truediv (py_sum salaries) (count entry) = Return (average_salary entry) ∧
    lo * count entry ≤ py_sum salaries ≤ hi * count entry ∧
    (- 2 ^ 53 ≤ lo → hi ≤ 2 ^ 53 → float_between lo hi (average_salary entry)).
Proof.
  intros Hgen Hline.
  pose proof (generate_report_by_department_Return _ _ _ _ Hgen) as [Hnames Hall].
  assert (department ∈ name <$> report) as Hin.
  { rewrite Hnames, elem_of_first_occurrences. by apply elem_of_omap_department. }
  apply list_elem_of_fmap in Hin as (entry & Hname & Hentry).
  rewrite Forall_forall in Hall. destruct (Hall entry Hentry) as [Hsum Hlen].
  rewrite <-Hname in Hsum, Hlen.
  apply summary_of_Return in Hsum
    as (lo & hi & Hmin & Hmax & _ & Hcount & Hrange & Hdiv).
  apply py_min_Return in Hmin as [Hlo_in Hlo]. apply py_max_Return in Hmax as [Hhi_in Hhi].
  exists entry, lo, hi. split; [done|]. split; [done|]. split.
  { intros entry' Hentry' Hname'.
    apply (NoDup_fmap_eq name report); [|done..|congruence].
    rewrite Hnames. apply NoDup_first_occurrences. }
  cbv zeta. set (salaries := department_salaries int sep department file) in *.
  pose proof (py_sum_bounds lo hi salaries Hlo Hhi) as Hbounds.
  rewrite <-Hcount in Hdiv, Hbounds.
  repeat (split; [done || lia|]).
  intros Hlo53 Hhi53.
  destruct (int_truediv_between (py_sum salaries) (count entry) lo hi)
    as (x & Hx & Hbetween); [|done..|congruence].
  rewrite Hcount. destruct salaries; [by apply elem_of_nil in Hlo_in | simpl; lia].
Qed.

Lemma department_summary_correct_witness :
  ∃ entry lo hi,
    entry ∈ sample_report ∧ name entry = "Eng" ∧
    (∀ entry', entry' ∈ sample_report → name entry' = "Eng" → entry' = entry) ∧
    let salaries := department_salaries py_int ";" "Eng" sample_file in
    count entry = Z.of_nat (length (lines_of_department ";" "Eng" sample_file)) ∧
    length salaries = length (lines_of_department ";" "Eng" sample_file) ∧
    lo ∈ salaries ∧ (∀ y, y ∈ salaries → lo ≤ y) ∧
    hi ∈ salaries ∧ (∀ y, y ∈ salaries → y ≤ hi) ∧
    salary_range entry = str_of_int lo +:+ " - " +:+ str_of_int hi ∧
    int_truediv (py_sum salaries) (count entry) = Return (average_salary entry) ∧
    lo * count entry ≤ py_sum salaries ≤ hi * count entry ∧
    (- 2 ^ 53 ≤ lo → hi ≤ 2 ^ 53 → float_between lo hi (average_salary entry)).
Proof.
  apply (department_summary_correct py_int sample_file ";" sample_report "Eng").
  - vm_compute. reflexivity.
  - exists ("1;Eng;Backend;dev;2;1000" +:+ newline). split; [left | reflexivity].
Defined.

(** ** Rendering (C3, C4, C5) *)

Lemma append_cons (x : ascii) (a b : string) : String x a +:+ b = String x (a +:+ b).
Proof. reflexivity. Qed.

Lemma append_nil_l (b : string) : EmptyString +:+ b = b.
Proof. reflexivity. Qed.

Lemma append_assoc (a b c : string) : (a +:+ b) +:+ c = a +:+ (b +:+ c).
Proof. induction a as [|x a IH]; [done|]. by rewrite !append_cons, IH. Qed.

Lemma append_nil_r (a : string) : a +:+ EmptyString = a.
Proof. induction a as [|x a IH]; [done|]. by rewrite append_cons, IH. Qed.

Lemma all_continuation_app (a b : string) :
  all_continuation (a +:+ b) = all_continuation a && all_continuation b.
Proof.
  induction a as [|x a IH]; [done|].
  rewrite append_cons. cbn [all_continuation]. by rewrite IH, andb_assoc.
Qed.

(** [line[:-1]] removes a whole character, of one byte or of several. *)
Lemma drop_last_character (s : string) (c : ascii) (t : string) :
  is_continuation c = false → all_continuation t = true →
  drop_last (s +:+ String c t) = s.
Proof.
  intros Hc Ht. induction s as [|x s IH].
  - rewrite append_nil_l. cbn [drop_last]. by rewrite Ht.
  - rewrite append_cons. cbn [drop_last].
    rewrite all_continuation_app. cbn [all_continuation].
    by rewrite Hc, andb_false_r, IH.
Qed.

Lemma one_character_shape (sep : string) :
  one_character sep = true →
  ∃ c t, sep = String c t ∧ is_continuation c = false ∧ all_continuation t = true.
Proof.
  destruct sep as [|c t]; [done|]. unfold one_character.
  intros [[Hc Ht]%andb_true_iff _]%andb_true_iff.
  exists c, t. by apply negb_true_iff in Hc.
Qed.

Lemma foldl_render (sep acc : string) (xs : list string) :
  foldl (λ line x, line +:+ x +:+ sep) acc xs =
    acc +:+ foldr (λ x r, x +:+ sep +:+ r) EmptyString xs.
Proof.
  revert acc. induction xs as [|x xs IH]; intros acc; simpl.
  - by rewrite append_nil_r.
  - by rewrite IH, !append_assoc.
Qed.

Lemma foldr_render_concat (sep : string) (xs : list string) :
  xs ≠ [] →
  foldr (λ x r, x +:+ sep +:+ r) EmptyString xs = String.concat sep xs +:+ sep.
Proof.
  induction xs as [|x [|y xs] IH]; intros Hne; [done | |].
  - simpl. by rewrite append_nil_r.
  - specialize (IH ltac:(done)). cbn [foldr String.concat] in *.
    rewrite IH. by rewrite !append_assoc.
Qed.

(** With a separator of one character the rendered line is the fields
    joined by the separator. *)
Lemma render_line_single_char (sep : string) (xs : list string) :
  one_character sep = true →
  xs ≠ [] →
  render_line sep xs = String.concat sep xs.
Proof.
  intros (c & t & -> & Hc & Ht)%one_character_shape Hne. unfold render_line.
  rewrite foldl_render, foldr_render_concat by done. rewrite append_nil_l.
  by apply drop_last_character.
Qed.

(** *** Splitting at a separator of one character *)

Lemma prefix_cons (c x : ascii) (t s : string) :
  String.prefix (String c t) (String x s) = Ascii.eqb c x && String.prefix t s.
Proof.
  cbn [String.prefix]. destruct (ascii_dec c x) as [->|Hne].
  - by rewrite Ascii.eqb_refl.
  - by apply Ascii.eqb_neq in Hne as ->.
Qed.

Lemma prefix_nil (s : string) : String.prefix EmptyString s = true.
Proof. by destruct s. Qed.

Lemma prefix_app_refl (a b : string) : String.prefix a (a +:+ b) = true.
Proof.
  induction a as [|x a IH]; [apply prefix_nil|].
  by rewrite append_cons, prefix_cons, Ascii.eqb_refl, IH.
Qed.

(** The bytes that continue a character match no byte that begins one:
    an occurrence of the separator cannot reach from a field into the
    separator that follows it. *)
Lemma prefix_continuation (t f : string) (c : ascii) (rest : string) :
  all_continuation t = true → is_continuation c = false →
  String.prefix t (f +:+ String c rest) = String.prefix t f.
Proof.
  intros Ht Hc. revert f. induction t as [|y t IH]; intros f;
    [by rewrite !prefix_nil|].
  cbn [all_continuation] in Ht. apply andb_true_iff in Ht as [Hy Ht].
  destruct f as [|z f].
  - rewrite append_nil_l, prefix_cons.
    destruct (Ascii.eqb_spec y c) as [->|_]; [congruence | done].
  - by rewrite append_cons, !prefix_cons, IH.
Qed.

Lemma split_from_skip (sep pre rest : string) :
  split_from sep (pre +:+ rest) (String.length pre) = split_from sep rest 0.
Proof. induction pre as [|x pre IH]; [done|]. by rewrite append_cons. Qed.

Lemma split_from_field (c : ascii) (t field : string) :
  occurs (String c t) field = false →
  split_from (String c t) field 0 = [field].
Proof.
  induction field as [|x field IH]; [done|].
  cbn [occurs]. intros [Hx Hfield]%orb_false_elim.
  cbn [split_from]. change (if String.prefix (String c t) (String x field)
                            then ?a else ?b) with
    (if String.prefix (String c t) (String x field) then a else b).
  rewrite Hx, IH by done. done.
Qed.

Lemma split_from_field_app (c : ascii) (t field rest : string) :
  is_continuation c = false → all_continuation t = true →
  occurs (String c t) field = false →
  split_from (String c t) (field +:+ String c t +:+ rest) 0 =
    field :: split_from (String c t) rest 0.
Proof.
  intros Hc Ht. induction field as [|x field IH].
  - intros _. rewrite append_nil_l, append_cons.
    assert (String.prefix (String c t) (String c (t +:+ rest)) = true) as Hp
      by (rewrite <-append_cons; apply prefix_app_refl).
    cbn [split_from]. cbn [String.prefix] in Hp. cbn [String.prefix]. rewrite Hp.
    cbn [String.length]. rewrite Nat.sub_1_r. cbn [Nat.pred].
    by rewrite split_from_skip.
  - cbn [occurs]. intros [Hx Hfield]%orb_false_elim.
    rewrite append_cons.
    assert (String.prefix (String c t) (String x (field +:+ String c t +:+ rest)) = false)
      as Hp.
    { rewrite append_cons, prefix_cons, prefix_continuation by done.
      by rewrite <-prefix_cons. }
    cbn [split_from]. cbn [String.prefix] in Hp. cbn [String.prefix]. rewrite Hp.
    by rewrite IH.
Qed.

Lemma split_concat (c : ascii) (t : string) (fields : list string) :
  is_continuation c = false → all_continuation t = true →
  fields ≠ [] →
  Forall (λ field, occurs (String c t) field = false) fields →
  split_from (String c t) (String.concat (String c t) fields) 0 = fields.
Proof.
  intros Hc Ht. induction fields as [|x [|y fields] IH]; intros Hne Hall; [done | |].
  - cbn [String.concat]. apply split_from_field. by apply Forall_inv in Hall.
  - apply Forall_cons in Hall as [Hx Hall]. specialize (IH ltac:(done) Hall).
    cbn [String.concat] in *.
    rewrite split_from_field_app by done. by f_equal.
Qed.

(** The line feed that ends a line stays with the last field. *)
Lemma with_line_feed_cons (x : string) (fields : list string) :
  ∃ z l, with_line_feed (x :: fields) = z :: l.
Proof. destruct fields; by eexists _, _. Qed.

Lemma concat_with_line_feed (sep : string) (fields : list string) :
  fields ≠ [] →
  String.concat sep fields +:+ newline = String.concat sep (with_line_feed fields).
Proof.
  destruct fields as [|x fields]; [done|]. intros _. revert x.
  induction fields as [|y fields IH]; intros x; [done|].
  change (with_line_feed (x :: y :: fields)) with (x :: with_line_feed (y :: fields)).
  destruct (with_line_feed_cons y fields) as (z & l & Hw).
  specialize (IH y). rewrite Hw in *.
  change (String.concat sep (x :: z :: l)) with (x +:+ sep +:+ String.concat sep (z :: l)).
  change (String.concat sep (x :: y :: fields))
    with (x +:+ sep +:+ String.concat sep (y :: fields)).
  by rewrite !append_assoc, IH.
Qed.

Lemma contains_char_app (c : ascii) (a b : string) :
  contains_char c (a +:+ b) = contains_char c a || contains_char c b.
Proof.
  induction a as [|x a IH]; [done|].
  rewrite append_cons. cbn [contains_char]. by rewrite IH, orb_assoc.
Qed.

Lemma contains_char_concat (c : ascii) (sep : string) (fields : list string) :
  contains_char c sep = false →
  Forall (λ field, contains_char c field = false) fields →
  contains_char c (String.concat sep fields) = false.
Proof.
  intros Hsep. induction fields as [|x [|y fields] IH]; intros Hall; [done | |].
  - by apply Forall_inv in Hall.
  - apply Forall_cons in Hall as [Hx Hall]. specialize (IH Hall).
    cbn [String.concat] in *. rewrite !contains_char_app, Hx, Hsep, IH. done.
Qed.

(** A separator of one character that is not the line feed occurs in a
    field that ends with a line feed only where it occurs in the field. *)
Lemma occurs_line_feed (c : ascii) (t field : string) :
  is_continuation c = false → all_continuation t = true →
  String c t ≠ newline →
  occurs (String c t) field = false →
  occurs (String c t) (field +:+ newline) = false.
Proof.
  intros Hc Ht Hsep. induction field as [|x field IH].
  - intros _. rewrite append_nil_l. unfold newline. cbn [occurs].
    rewrite prefix_cons. rewrite orb_false_r.
    destruct (Ascii.eqb_spec c "010") as [->|]; [|done].
    destruct t as [|y t]; [done|]. cbn [String.prefix]. done.
  - cbn [occurs]. intros [Hx Hfield]%orb_false_elim.
    rewrite append_cons. cbn [occurs]. rewrite (IH Hfield), orb_false_r.
    unfold newline. rewrite prefix_cons, prefix_continuation by done.
    by rewrite <-prefix_cons.
Qed.

Lemma occurs_with_line_feed (c : ascii) (t : string) (fields : list string) :
  is_continuation c = false → all_continuation t = true →
  String c t ≠ newline →
  Forall (λ field, occurs (String c t) field = false) fields →
  Forall (λ field, occurs (String c t) field = false) (with_line_feed fields).
Proof.
  intros Hc Ht Hsep. induction fields as [|x [|y fields] IH]; intros Hall; [done | |].
  - apply Forall_inv in Hall. constructor; [|done]. by apply occurs_line_feed.
  - apply Forall_cons in Hall as [Hx Hall]. constructor; [done|]. by apply IH.
Qed.

(** *** Reading the lines of a written file *)

Lemma universal_newlines_line (line rest : string) :
  contains_char "013" line = false →
  universal_newlines (line +:+ newline +:+ rest) =
    line +:+ newline +:+ universal_newlines rest.
Proof.
  induction line as [|x line IH].
  - intros _. done.
  - cbn [contains_char]. intros [Hx Hline]%orb_false_elim.
    rewrite !append_cons. cbn [universal_newlines].
    rewrite Ascii.eqb_sym, Hx, IH by done. done.
Qed.

Lemma lines_of_line (line rest : string) :
  contains_char "010" line = false →
  lines_of (line +:+ newline +:+ rest) = (line +:+ newline) :: lines_of rest.
Proof.
  induction line as [|x line IH].
  - intros _. done.
  - cbn [contains_char]. intros [Hx Hline]%orb_false_elim.
    rewrite append_cons. cbn [lines_of].
    rewrite Ascii.eqb_sym, Hx, IH by done. done.
Qed.

Lemma readlines_line (line rest : string) :
  contains_char "010" line = false → contains_char "013" line = false →
  readlines (line +:+ newline +:+ rest) = (line +:+ newline) :: readlines rest.
Proof.
  intros Hlf Hcr. unfold readlines.
  by rewrite universal_newlines_line, lines_of_line.
Qed.

(** The file that [save_department_report] leaves behind. *)
Lemma files_write_rows (out : string) (g : department_summary → string)
    (report : list department_summary) (w : world) (text : string) :
  files w !! out = Some text →
  files (foldl (λ w department, write out (g department) w) w report) !! out =
    Some (text +:+ foldr (λ department r, g department +:+ r) EmptyString report).
Proof.
  revert w text. induction report as [|department report IH]; intros w text Hw; simpl.
  - by rewrite append_nil_r.
  - erewrite IH.
    + by rewrite append_assoc.
    + unfold write. simpl. by rewrite lookup_insert_eq, Hw.
Qed.

Lemma save_department_report_files float_str writable report out sep w :
  report ≠ [] →
  writable out = true →
  save_department_report float_str writable report out sep w =
    (Return (),
     (save_department_report float_str writable report out sep w).2) ∧
  files (save_department_report float_str writable report out sep w).2 !! out =
    Some (foldr (λ fields r, render_line sep fields +:+ newline +:+ r) EmptyString
                (report_rows float_str report)).
Proof.
  intros Hne Hout. destruct report as [|entry report]; [done|].
  unfold save_department_report. rewrite Hout. split; [done|].
  unfold report_rows. cbn [snd foldr].
  erewrite files_write_rows.
  - rewrite append_assoc. do 3 f_equal.
    generalize (entry :: report). intros l.
    induction l as [|x l IH]; simpl; [done|]. by rewrite IH, append_assoc.
  - unfold write, open_truncate. simpl. by rewrite lookup_insert_eq, lookup_insert_eq.
Qed.

(** C5, as the specification states it, fails: the program has no
    [EmptyReportError]; saving an empty report raises [IndexError]. *)
Lemma empty_report_error_counterexample :
  ¬ ∃ e w',
      save_department_report float_str_exact every_file [] "result.csv" ";" empty_world =
        (Raise e, w') ∧
      exception_name e = "EmptyReportError".
Proof. intros (e & w' & [= <- _] & Hname). discriminate Hname. Qed.

(** C5, amended. Saving an empty report fails with [IndexError], raised
    when the first entry is read for the header, after the output file
    has been created or truncated: no header is written and the output
    file is left empty.  (A file that cannot be opened for writing is
    not created: the save fails with the [OSError] of [open] and changes
    nothing.) *)
Theorem save_empty_report_raises (float_str : spec_float → string)
    (writable : string → bool) (output_filename separator : string) (w : world) :
  save_department_report float_str writable [] output_filename separator w =
    (if writable output_filename
     then (Raise IndexError, open_truncate output_filename w)
     else (Raise OSError, w)) ∧
  files (open_truncate output_filename w) !! output_filename = Some EmptyString ∧
  stdout (open_truncate output_filename w) = stdout w.
Proof.
  split; [unfold save_department_report; by destruct (writable _)|]. split; [|done].
  unfold open_truncate. simpl. apply lookup_insert_eq.
Qed.

(** C3 holds for a separator of one character ([render_line_single_char]),
    but not for a longer one: [line[:-1]] removes one character, so that a
    part of the trailing separator stays at the end of every line.  Here
    the program is run in file mode on a file separated by ["::"]. *)
Theorem long_separator_is_not_stripped :
  ∃ w',
    generate_report py_int float_str_exact every_file "test.csv" "result.csv" "::" "3"
                    (world_with "test.csv" colon_file) = (Return (), w') ∧
    files w' !! "result.csv" =
      Some ("Название::Численность::Вилка зарплат::Средняя зарплата:" +:+ newline +:+
            "Eng::2::1000 - 3000::2000.0:" +:+ newline) ∧
    render_line "::" summary_keys ≠ String.concat "::" summary_keys.
Proof.
  eexists. split; [vm_compute; reflexivity|]. split; [vm_compute; reflexivity|].
  vm_compute. discriminate.
Qed.

(** ** The round trip (C4) *)

Lemma byte_in_spec (lo hi : nat) (c : ascii) :
  byte_in lo hi c = true ↔ (lo ≤ nat_of_ascii c ≤ hi)%nat.
Proof.
  unfold byte_in. rewrite andb_true_iff, !Nat.leb_le. done.
Qed.

Lemma is_continuation_spec (c : ascii) :
  is_continuation c = true ↔ (128 ≤ nat_of_ascii c ≤ 191)%nat.
Proof. apply (byte_in_spec 128 191). Qed.

Lemma byte_in_false (lo hi : nat) (c : ascii) :
  (nat_of_ascii c < lo ∨ hi < nat_of_ascii c)%nat → byte_in lo hi c = false.
Proof.
  intros Hn. apply not_true_is_false. rewrite byte_in_spec. lia.
Qed.

(** A byte that continues a character begins none. *)
Lemma utf8_valid_continuation (y : ascii) (s : string) :
  is_continuation y = true → utf8_valid (String y s) = false.
Proof.
  intros Hy%is_continuation_spec.
  assert (byte_in 0 127 y = false) as H1 by (apply byte_in_false; lia).
  assert (byte_in 194 223 y = false) as H2 by (apply byte_in_false; lia).
  assert (∀ b, second_of_three y b = false) as H3.
  { intros b. unfold second_of_three.
    by rewrite !(byte_in_false _ _ y) by lia. }
  assert (∀ b, second_of_four y b = false) as H4.
  { intros b. unfold second_of_four.
    by rewrite !(byte_in_false _ _ y) by lia. }
  destruct s as [|b1 [|b2 [|b3 s4]]]; cbn [utf8_valid]; rewrite ?H1, ?H2, ?H3, ?H4; done.
Qed.

Lemma utf8_valid_ascii (x : ascii) (s : string) :
  byte_in 0 127 x = true → utf8_valid (String x s) = utf8_valid s.
Proof. intros Hx. cbn [utf8_valid]. by rewrite Hx. Qed.

Lemma contains_char_continuation (x : ascii) (t : string) :
  is_continuation x = false → all_continuation t = true → contains_char x t = false.
Proof.
  intros Hx. induction t as [|y t IH]; [done|].
  cbn [all_continuation contains_char]. intros [Hy Ht]%andb_true_iff.
  rewrite (IH Ht), orb_false_r. apply Ascii.eqb_neq. congruence.
Qed.

(** A separator of one character holds an ASCII character only when it
    is that character. *)
Lemma one_character_free (x : ascii) (sep : string) :
  one_character sep = true →
  byte_in 0 127 x = true →
  sep ≠ String x EmptyString →
  contains_char x sep = false.
Proof.
  destruct sep as [|c t]; [done|]. unfold one_character.
  intros [[Hc Ht]%andb_true_iff Hvalid]%andb_true_iff Hx Hne.
  assert (is_continuation x = false) as Hx'.
  { apply not_true_is_false. rewrite is_continuation_spec.
    apply byte_in_spec in Hx. lia. }
  cbn [contains_char]. rewrite (contains_char_continuation x t) by done.
  rewrite orb_false_r. apply Ascii.eqb_neq. intros ->.
  destruct t as [|y t]; [done|].
  cbn [all_continuation] in Ht. apply andb_true_iff in Ht as [Hy _].
  rewrite utf8_valid_ascii in Hvalid by done.
  by rewrite utf8_valid_continuation in Hvalid.
Qed.

Lemma reparse_rows (sep : string) (rows : list (list string)) :
  one_character sep = true →
  sep ≠ newline → sep ≠ carriage_return →
  Forall (λ fields,
            fields ≠ [] ∧
            Forall (λ field, occurs sep field = false ∧
                             contains_char "010" field = false ∧
                             contains_char "013" field = false) fields) rows →
  reparse sep
          (foldr (λ fields r, render_line sep fields +:+ newline +:+ r)
                 EmptyString rows) = with_line_feed <$> rows.
Proof.
  intros Hone Hlf Hcr.
  pose proof (one_character_free "010" sep Hone eq_refl Hlf) as Hsep_lf.
  pose proof (one_character_free "013" sep Hone eq_refl Hcr) as Hsep_cr.
  induction 1 as [|fields rows [Hne Hfields] _ IH]; [done|].
  cbn [foldr]. rewrite render_line_single_char by done.
  unfold reparse in *. rewrite readlines_line.
  - rewrite !fmap_cons, IH. f_equal.
    rewrite concat_with_line_feed by done.
    pose proof Hone as (c & t & -> & Hc & Ht)%one_character_shape.
    apply split_concat; [done..| |].
    + destruct fields as [|x fields]; [done|].
      by destruct (with_line_feed_cons x fields) as (z & l & ->).
    + apply occurs_with_line_feed; [done..|].
      eapply Forall_impl; [done|]. by intros field (? & _).
  - apply contains_char_concat; [done|].
    eapply Forall_impl; [done|]. by intros field (_ & ? & _).
  - apply contains_char_concat; [done|].
    eapply Forall_impl; [done|]. by intros field (_ & _ & ?).
Qed.

(** C4, as the specification states it, fails when the separator occurs
    in a label or in a rendered value: with a space for separator the
    labels ["Вилка зарплат"] and ["Средняя зарплата"] and the range
    ["1000 - 3000"] are cut into several fields.  The fields that the
    reader splits from the written file are not the labels and values of
    the report, with or without the line feed that ends every line. *)
Lemma roundtrip_space_counterexample :
  ∃ w' text,
    generate_report py_int float_str_exact every_file "test.csv" "result.csv" " " "3"
                    (world_with "test.csv" space_file) = (Return (), w') ∧
    generate_report_by_department py_int space_file " " = Return sample_report ∧
    files w' !! "result.csv" = Some text ∧
    reparse " " text ≠ report_rows float_str_exact sample_report ∧
    reparse " " text ≠ with_line_feed <$> report_rows float_str_exact sample_report.
Proof.
  eexists. eexists. split; [vm_compute; reflexivity|].
  split; [vm_compute; reflexivity|]. split; [vm_compute; reflexivity|].
  split; vm_compute; discriminate.
Qed.

(** C4, amended. For a non-empty report, an output file that can be
    opened for writing, and a separator of one character, other than the
    line feed and the carriage return, that occurs in no field label and
    in no rendered value (all of them text that can be encoded, without
    line feed or carriage return): reading the written file back line by
    line and splitting every line at the separator, as the loops of the
    program do, gives the labels and the rendered values of every entry
    back, as text; the last field of a line is followed by the line feed
    that ends the line. *)
Theorem save_then_reparse (float_str : spec_float → string) (writable : string → bool)
    (report : list department_summary) (output_filename separator : string)
    (w : world) :
  report ≠ [] →
  writable output_filename = true →
  one_character separator = true →
  separator ≠ newline → separator ≠ carriage_return →
  (∀ fields field,
     fields ∈ report_rows float_str report → field ∈ fields →
     utf8_valid field = true ∧ occurs separator field = false ∧
     contains_char "010" field = false ∧ contains_char "013" field = false) →
  save_department_report float_str writable report output_filename separator w =
    (Return (),
     (save_department_report float_str writable report output_filename separator w).2) ∧
  ∃ text,
    files (save_department_report float_str writable report output_filename
             separator w).2 !! output_filename = Some text ∧
    reparse separator text = with_line_feed <$> report_rows float_str report.
Proof.
  intros Hne Hout Hone Hlf Hcr Hfree.
  destruct (save_department_report_files float_str writable report output_filename
              separator w Hne Hout) as [Hret Hfiles].
  split; [done|]. eexists. split; [exact Hfiles|].
  apply reparse_rows; [done..|].
  apply Forall_forall. intros fields Hfields. split.
  - unfold report_rows in Hfields.
    apply elem_of_cons in Hfields as [->|Hfields]; [done|].
    by apply list_elem_of_fmap in Hfields as (entry & -> & _).
  - apply Forall_forall. intros field Hfield.
    by destruct (Hfree fields field Hfields Hfield) as (_ & ? & ? & ?).
Qed.

Lemma save_then_reparse_witness :
  save_department_report float_str_exact every_file sample_report "result.csv" ";"
                         empty_world =
    (Return (),
     (save_department_report float_str_exact every_file sample_report "result.csv" ";"
                             empty_world).2) ∧
  ∃ text,
    files (save_department_report float_str_exact every_file sample_report "result.csv"
             ";" empty_world).2 !! "result.csv" = Some text ∧
    reparse ";" text = with_line_feed <$> report_rows float_str_exact sample_report.
Proof.
  apply (save_then_reparse float_str_exact every_file sample_report "result.csv" ";"
           empty_world).
  - discriminate.
  - reflexivity.
  - reflexivity.
  - discriminate.
  - discriminate.
  - intros fields field Hfields Hfield. cbn in Hfields.
    apply elem_of_cons in Hfields as [->|Hfields].
    + repeat (apply elem_of_cons in Hfield as [->|Hfield]; [by vm_compute|]).
      by apply elem_of_nil in Hfield.
    + apply elem_of_cons in Hfields as [->|Hfields]; [|by apply elem_of_nil in Hfields].
      repeat (apply elem_of_cons in Hfield as [->|Hfield]; [by vm_compute|]).
      by apply elem_of_nil in Hfield.
Defined.

(** * Further properties of the engine *)

(** ** Which exceptions the aggregation raises *)

Lemma group_salaries_nonempty (records : list (string * Z)) (item : string * list Z) :
  item ∈ group [] (λ salary salaries, salaries ++ [salary]) records [] →
  item.2 ≠ [].
Proof.
  intros [Hkey ->]%group_salaries_item.
  apply list_elem_of_fmap in Hkey as (r & Hr & Hin). unfold salaries_of.
  intros Hnil. apply fmap_nil_inv in Hnil.
  assert (r ∈ filter (λ r, r.1 = item.1) records) as Hr'
    by by apply list_elem_of_filter.
  rewrite Hnil in Hr'. by apply elem_of_nil in Hr'.
Qed.

Lemma int_truediv_cases (a b : Z) :
  b ≠ 0 → (∃ x, int_truediv a b = Return x) ∨ int_truediv a b = Raise OverflowError.
Proof.
  intros Hb. unfold int_truediv. destruct (Z.eqb_spec b 0) as [|_]; [done|].
  destruct (SFdiv _ _ _ _); eauto.
Qed.

Lemma summary_of_cases (department : string) (salaries : list Z) :
  salaries ≠ [] →
  (∃ entry, summary_of department salaries = Return entry) ∨
  summary_of department salaries = Raise OverflowError.
Proof.
  intros Hne. unfold summary_of. destruct salaries as [|x salaries]; [done|].
  cbn [py_min py_max mbind result_bind].
  destruct (int_truediv_cases (py_sum (x :: salaries))
              (Z.of_nat (length (x :: salaries)))) as [[avg ->]| ->].
  - simpl. lia.
  - left. by eexists.
  - by right.
Qed.

Lemma summaries_loop_Raise (items : list (string * list Z))
    (departments_list : list department_summary) (e : exception) :
  Forall (λ item, item.2 ≠ []) items →
  summaries_loop items departments_list = Raise e → e = OverflowError.
Proof.
  intros Hall. revert departments_list.
  induction Hall as [|[department salaries] items Hne _ IH]; intros departments_list;
    [done|].
  cbn [summaries_loop]. destruct (summary_of_cases department salaries Hne) as [[entry ->]| ->].
  - simpl. apply IH.
  - by intros [= <-].
Qed.

Lemma generate_report_by_department_Raise (int : string → option Z) (file : list string)
    (sep : string) (e : exception) :
  generate_report_by_department int file sep = Raise e →
  (e = ValueError ∧
   ∃ line, line ∈ data_lines file ∧ salary_record int sep line = None) ∨
  e = OverflowError.
Proof.
  unfold generate_report_by_department. fold (data_lines file).
  rewrite salaries_loop_eq. destruct (mapM _ _) as [records|] eqn:HmapM; simpl.
  - intros He. right. eapply summaries_loop_Raise; [|done].
    apply Forall_forall. intros item. apply group_salaries_nonempty.
  - intros [= <-]. left. split; [done|]. by apply mapM_None, Exists_exists in HmapM.
Qed.

(** X1. The aggregation raises nothing but [ValueError] and
    [OverflowError]: [min] and [max] never see an empty list and the
    count is never zero.  It raises [ValueError] exactly when some data
    line cannot be read (empty separator, fewer than three fields, or a
    salary that is not an integer). *)
Theorem aggregation_raises_only (int : string → option Z) (file : list string)
    (sep : string) :
  (∀ e, generate_report_by_department int file sep = Raise e →
        e = ValueError ∨ e = OverflowError) ∧
  (generate_report_by_department int file sep = Raise ValueError ↔
   ∃ line, line ∈ data_lines file ∧ (sep = EmptyString ∨ malformed int sep line)).
Proof.
  split.
  - intros e [[-> _]| ->]%generate_report_by_department_Raise; auto.
  - split.
    + intros [[_ (line & Hin & Hnone)]|]%generate_report_by_department_Raise; [|done].
      exists line. split; [done|]. by apply salary_record_None.
    + intros (line & Hin & Hbad). apply (salaries_loop_raises _ _ _ line); [done|].
      by apply salary_record_None.
Qed.

(** X2. On a file whose data lines are all well formed and whose salaries
    are at most [2^53] in magnitude the aggregation returns a report. *)
Theorem aggregation_returns (int : string → option Z) (file : list string)
    (sep : string) :
  sep ≠ EmptyString →
  (∀ line, line ∈ data_lines file → ¬ malformed int sep line) →
  (∀ line salary,
     line ∈ data_lines file → int (salary_field sep line) = Some salary →
     - 2 ^ 53 ≤ salary ≤ 2 ^ 53) →
  ∃ report, generate_report_by_department int file sep = Return report.
Proof. apply generate_report_by_department_returns. Qed.

Lemma sample_file_lines (P : string → Prop) :
  P ("1;Eng;Backend;dev;2;1000" +:+ newline) →
  P ("2;Eng;Frontend;dev;2;3000" +:+ newline) →
  ∀ line, line ∈ data_lines sample_file → P line.
Proof.
  intros H1 H2 line Hin. cbn in Hin.
  apply elem_of_cons in Hin as [->|Hin]; [done|].
  apply elem_of_cons in Hin as [->|Hin]; [done|].
  by apply elem_of_nil in Hin.
Qed.

Lemma aggregation_returns_witness :
  ∃ report, generate_report_by_department py_int sample_file ";" = Return report.
Proof.
  apply (aggregation_returns py_int sample_file ";").
  - discriminate.
  - apply sample_file_lines; intros [H|H]; vm_compute in H; (lia || discriminate).
  - intros line salary Hin. revert line Hin.
    apply (sample_file_lines
             (λ line, py_int (salary_field ";" line) = Some salary →
                      - 2 ^ 53 ≤ salary ≤ 2 ^ 53));
      intros H; vm_compute in H; injection H as <-; lia.
Defined.

(** X3. A department whose salaries are all the same value [s], of
    magnitude at most [2^53], has the range ["s - s"] and the average [s]
    exactly; a department with one record is the least case. *)
Theorem constant_salaries_average_exact (int : string → option Z) (file : list string)
    (sep : string) (report : list department_summary) (entry : department_summary)
    (s : Z) :
  generate_report_by_department int file sep = Return report →
  entry ∈ report →
  (∀ y, y ∈ department_salaries int sep (name entry) file → y = s) →
  - 2 ^ 53 ≤ s ≤ 2 ^ 53 →
  salary_range entry = str_of_int s +:+ " - " +:+ str_of_int s ∧
  float_between s s (average_salary entry).
Proof.
  intros Hgen Hentry Hconst Hs.
  pose proof (generate_report_by_department_Return _ _ _ _ Hgen) as [_ Hall].
  rewrite Forall_forall in Hall. destruct (Hall entry Hentry) as [Hsum _].
  apply summary_of_Return in Hsum as (lo & hi & Hmin & Hmax & _ & _ & Hrange & Hdiv).
  apply py_min_Return in Hmin as [Hlo_in Hlo]. apply py_max_Return in Hmax as [Hhi_in Hhi].
  rewrite (Hconst lo Hlo_in) in *. rewrite (Hconst hi Hhi_in) in *.
  split; [done|].
  set (salaries := department_salaries int sep (name entry) file) in *.
  destruct (int_truediv_between (py_sum salaries) (Z.of_nat (length salaries)) s s)
    as (x & Hx & Hbetween); [| |lia..|congruence].
  - destruct salaries; [by apply elem_of_nil in Hlo_in | simpl; lia].
  - by apply py_sum_bounds.
Qed.

Lemma constant_salaries_average_exact_witness :
  let entry := {| name := "Eng"; count := 1; salary_range := "1000 - 1000";
                  average_salary := S754_finite false 8796093022208000 (-43) |} in
  salary_range entry = str_of_int 1000 +:+ " - " +:+ str_of_int 1000 ∧
  float_between 1000 1000 (average_salary entry).
Proof.
  apply (constant_salaries_average_exact py_int interleaved_file ";"
           [{| name := "Ops"; count := 2; salary_range := "500 - 700";
               average_salary := S754_finite false 5277655813324800 (-43) |};
            {| name := "Eng"; count := 1; salary_range := "1000 - 1000";
               average_salary := S754_finite false 8796093022208000 (-43) |}]).
  - vm_compute. reflexivity.
  - right. left.
  - intros y Hy. vm_compute in Hy.
    apply elem_of_cons in Hy as [->|Hy]; [done | by apply elem_of_nil in Hy].
  - lia.
Defined.

(** ** The order of the data lines *)

Lemma mapM_Permutation {A B} (f : A → option B) (l1 l2 : list A) (k1 : list B) :
  l1 ≡ₚ l2 → mapM f l1 = Some k1 → ∃ k2, mapM f l2 = Some k2 ∧ k1 ≡ₚ k2.
Proof.
  intros Hperm. revert k1.
  induction Hperm as [|x l1 l2 _ IH|x y l|l1 l2 l3 _ IH1 _ IH2]; intros k1 Hk1.
  - exists k1. done.
  - cbn [mapM] in *. destruct (f x) as [b|]; [|done]. simpl in *.
    destruct (mapM f l1) as [k|] eqn:Hk; [|done]. injection Hk1 as <-.
    destruct (IH k eq_refl) as (k2 & -> & Hk2). exists (b :: k2).
    split; [done | by constructor].
  - cbn [mapM] in *. destruct (f y) as [b|]; [|done]. simpl in *.
    destruct (f x) as [a|]; [|done]. simpl in *.
    destruct (mapM f l) as [k|]; [|done]. injection Hk1 as <-.
    exists (a :: b :: k). split; [done | constructor].
  - destruct (IH1 k1 Hk1) as (k2 & Hk2 & Hp12).
    destruct (IH2 k2 Hk2) as (k3 & Hk3 & Hp23).
    exists k3. split; [done | by etrans].
Qed.

Lemma py_sum_Permutation (l1 l2 : list Z) : l1 ≡ₚ l2 → py_sum l1 = py_sum l2.
Proof.
  induction 1 as [|x l1 l2 _ IH|x y l|l1 l2 l3 _ IH1 _ IH2].
  - done.
  - by rewrite !py_sum_cons, IH.
  - rewrite !py_sum_cons. lia.
  - by etrans.
Qed.

Lemma py_min_Permutation (l1 l2 : list Z) : l1 ≡ₚ l2 → py_min l1 = py_min l2.
Proof.
  intros Hperm.
  destruct (py_min l1) as [lo1|e1] eqn:H1, (py_min l2) as [lo2|e2] eqn:H2.
  - apply py_min_Return in H1 as [Hin1 Hle1]. apply py_min_Return in H2 as [Hin2 Hle2].
    f_equal. apply Z.le_antisymm.
    + apply Hle1. by rewrite Hperm.
    + apply Hle2. by rewrite <-Hperm.
  - destruct l2; [|done]. apply Permutation_nil_r in Hperm. by subst.
  - destruct l1; [|done]. symmetry in Hperm. apply Permutation_nil_r in Hperm. by subst.
  - destruct l1, l2; try done. by injection H1 as <-; injection H2 as <-.
Qed.

Lemma py_max_Permutation (l1 l2 : list Z) : l1 ≡ₚ l2 → py_max l1 = py_max l2.
Proof.
  intros Hperm.
  destruct (py_max l1) as [hi1|e1] eqn:H1, (py_max l2) as [hi2|e2] eqn:H2.
  - apply py_max_Return in H1 as [Hin1 Hle1]. apply py_max_Return in H2 as [Hin2 Hle2].
    f_equal. apply Z.le_antisymm.
    + apply Hle2. by rewrite <-Hperm.
    + apply Hle1. by rewrite Hperm.
  - destruct l2; [|done]. apply Permutation_nil_r in Hperm. by subst.
  - destruct l1; [|done]. symmetry in Hperm. apply Permutation_nil_r in Hperm. by subst.
  - destruct l1, l2; try done. by injection H1 as <-; injection H2 as <-.
Qed.

Lemma summary_of_Permutation (department : string) (salaries1 salaries2 : list Z) :
  salaries1 ≡ₚ salaries2 →
  summary_of department salaries1 = summary_of department salaries2.
Proof.
  intros Hperm. unfold summary_of.
  by rewrite (py_min_Permutation _ _ Hperm), (py_max_Permutation _ _ Hperm),
    (py_sum_Permutation _ _ Hperm), (Permutation_length Hperm).
Qed.

Lemma department_salaries_Permutation (int : string → option Z) (sep department : string)
    (file1 file2 : list string) :
  data_lines file1 ≡ₚ data_lines file2 →
  department_salaries int sep department file1 ≡ₚ
    department_salaries int sep department file2.
Proof.
  intros Hperm. unfold department_salaries, lines_of_department. by rewrite Hperm.
Qed.

Lemma report_subset_of_permuted (int : string → option Z) (sep : string)
    (file1 file2 : list string) (report1 report2 : list department_summary) :
  data_lines file1 ≡ₚ data_lines file2 →
  generate_report_by_department int file1 sep = Return report1 →
  generate_report_by_department int file2 sep = Return report2 →
  ∀ entry, entry ∈ report1 → entry ∈ report2.
Proof.
  intros Hperm [Hnames1 Hall1]%generate_report_by_department_Return
    [Hnames2 Hall2]%generate_report_by_department_Return entry Hentry.
  rewrite Forall_forall in Hall1, Hall2.
  destruct (Hall1 entry Hentry) as [Hsum1 _].
  assert (name entry ∈ name <$> report2) as Hin2.
  { rewrite Hnames2, elem_of_first_occurrences, <-Hperm.
    rewrite <-elem_of_first_occurrences, <-Hnames1. by apply list_elem_of_fmap_2. }
  apply list_elem_of_fmap in Hin2 as (entry2 & Hname & Hentry2).
  destruct (Hall2 entry2 Hentry2) as [Hsum2 _].
  rewrite <-Hname in Hsum2.
  rewrite (summary_of_Permutation _ _ _
             (department_salaries_Permutation int sep (name entry) _ _ Hperm)) in Hsum1.
  rewrite Hsum1 in Hsum2. by injection Hsum2 as ->.
Qed.

Lemma report_NoDup (int : string → option Z) (sep : string) (file : list string)
    (report : list department_summary) :
  generate_report_by_department int file sep = Return report → NoDup report.
Proof.
  intros [Hnames _]%generate_report_by_department_Return.
  apply (NoDup_fmap_1 name). rewrite Hnames. apply NoDup_first_occurrences.
Qed.

Lemma returns_on_permuted_file (int : string → option Z) (sep : string)
    (file1 file2 : list string) (report1 : list department_summary) :
  data_lines file1 ≡ₚ data_lines file2 →
  generate_report_by_department int file1 sep = Return report1 →
  ∃ report2, generate_report_by_department int file2 sep = Return report2.
Proof.
  intros Hperm Hgen1.
  pose proof (generate_report_by_department_Return _ _ _ _ Hgen1) as [Hnames1 Hall1].
  rewrite Forall_forall in Hall1.
  unfold generate_report_by_department in Hgen1 |- *. fold (data_lines file1) in Hgen1.
  fold (data_lines file2). rewrite salaries_loop_eq in Hgen1 |- *.
  destruct (mapM _ (data_lines file1)) as [records1|] eqn:HmapM1; [|done].
  destruct (mapM_Permutation _ _ _ _ Hperm HmapM1) as (records2 & HmapM2 & Hrecords).
  rewrite HmapM2. simpl. apply summaries_loop_returns, Forall_forall.
  intros item [Hkey Hsalaries]%group_salaries_item.
  assert (item.1 ∈ name <$> report1) as Hin.
  { rewrite Hnames1, elem_of_first_occurrences.
    destruct (mapM_departments _ _ _ _ HmapM1) as [-> _]. by rewrite Hrecords. }
  apply list_elem_of_fmap in Hin as (entry & Hname & Hentry).
  destruct (Hall1 entry Hentry) as [Hsum _]. exists entry.
  rewrite <-Hsum, Hsalaries, <-Hname.
  apply summary_of_Permutation.
  destruct (salary_records_of_department int sep _ _ item.1 HmapM2) as [-> _].
  fold (lines_of_department sep item.1 file2).
  fold (department_salaries int sep item.1 file2).
  symmetry. by apply department_salaries_Permutation.
Qed.

(** X4. The report does not depend on the order of the data lines, up to
    the order of its entries: when the data lines of two files are the
    same lines in another order and the aggregation returns a report on
    the first file, it returns on the second one a report with the same
    entries (same names, counts, ranges and averages). *)
Theorem aggregation_order_independent (int : string → option Z) (sep : string)
    (file1 file2 : list string) (report1 : list department_summary) :
  data_lines file1 ≡ₚ data_lines file2 →
  generate_report_by_department int file1 sep = Return report1 →
  ∃ report2,
    generate_report_by_department int file2 sep = Return report2 ∧
    report1 ≡ₚ report2.
Proof.
  intros Hperm Hgen1.
  destruct (returns_on_permuted_file _ _ _ _ _ Hperm Hgen1) as [report2 Hgen2].
  exists report2. split; [done|].
  apply NoDup_Permutation; [by eapply report_NoDup..|].
  intros entry. split.
  - by eapply report_subset_of_permuted.
  - eapply report_subset_of_permuted; [|done..]. done.
Qed.

Lemma aggregation_order_independent_witness :
  ∃ report2,
    generate_report_by_department py_int reordered_file ";" = Return report2 ∧
    [{| name := "Ops"; count := 2; salary_range := "500 - 700";
        average_salary := S754_finite false 5277655813324800 (-43) |};
     {| name := "Eng"; count := 1; salary_range := "1000 - 1000";
        average_salary := S754_finite false 8796093022208000 (-43) |}] ≡ₚ report2.
Proof.
  apply (aggregation_order_independent py_int ";" interleaved_file reordered_file).
  - cbn [data_lines tail interleaved_file reordered_file].
    etrans; [apply Permutation_swap|]. etrans; [apply perm_skip, Permutation_swap|].
    apply Permutation_swap.
  - vm_compute. reflexivity.
Defined.

(** * Further properties of the modes of [generate_report] *)

Lemma world_eq (w1 w2 : world) :
  files w1 = files w2 → stdout w1 = stdout w2 → w1 = w2.
Proof. destruct w1, w2. simpl. by intros -> ->. Qed.

Lemma foldl_print_files {A} (f : A → list string) (l : list A) (w : world) :
  files (foldl (λ w x, foldl (λ w line, print line w) w (f x)) w l) = files w.
Proof.
  revert w. induction l as [|x l IH]; intros w; [done|].
  cbn [foldl]. rewrite IH. generalize (f x). intros lines. revert w.
  induction lines as [|line lines IHl]; intros w; [done|].
  cbn [foldl]. by rewrite IHl.
Qed.

Lemma foldl_print_stdout (lines : list string) (w : world) :
  foldl (λ w line, print line w) w lines =
    {| files := files w; stdout := stdout w ++ lines |}.
Proof.
  revert w. induction lines as [|line lines IH]; intros w; cbn [foldl].
  - destruct w. simpl. by rewrite app_nil_r.
  - rewrite IH. simpl. by rewrite <-app_assoc.
Qed.

Lemma print_department_report_world (float_str : spec_float → string)
    (report : list department_summary) (w : world) :
  print_department_report float_str report w =
    {| files := files w;
       stdout := stdout w ++ concat (report_block float_str <$> report) |}.
Proof.
  unfold print_department_report. revert w.
  induction report as [|department report IH]; intros w; cbn [foldl].
  - destruct w. simpl. by rewrite app_nil_r.
  - rewrite IH. simpl. by rewrite <-!app_assoc.
Qed.

Lemma foldl_print_map_files {A} (g : A → string) (l : list A) (w : world) :
  files (foldl (λ w x, print (g x) w) w l) = files w.
Proof.
  revert w. induction l as [|x l IH]; intros w; [done|].
  cbn [foldl]. by rewrite IH.
Qed.

Lemma print_department_hierarchy_files (departments_list : list (string * gset string))
    (w : world) :
  files (print_department_hierarchy departments_list w) = files w.
Proof.
  unfold print_department_hierarchy. generalize (dict_keys departments_list).
  intros keys. revert w. induction keys as [|department keys IH]; intros w; [done|].
  cbn [foldl]. rewrite IH. by rewrite foldl_print_map_files.
Qed.

(** The world after [save_department_report]. *)
Lemma foldl_write_world (out : string) (g : department_summary → string)
    (report : list department_summary) (w : world) (m : gmap string string)
    (text : string) :
  files w = <[out := text]> m →
  foldl (λ w department, write out (g department) w) w report =
    {| files := <[out := text +:+ foldr (λ department r, g department +:+ r)
                                        EmptyString report]> m;
       stdout := stdout w |}.
Proof.
  revert w text. induction report as [|department report IH]; intros w text Hw.
  - cbn [foldl foldr]. rewrite append_nil_r. by apply world_eq.
  - cbn [foldl foldr]. erewrite IH.
    + by rewrite append_assoc.
    + unfold write. cbn [files]. by rewrite Hw, lookup_insert_eq, insert_insert_eq.
Qed.

Lemma foldr_rows (float_str : spec_float → string) (sep : string)
    (report : list department_summary) :
  foldr (λ department r,
           (render_line sep (summary_values float_str department) +:+ newline) +:+ r)
        EmptyString report =
  foldr (λ fields r, render_line sep fields +:+ newline +:+ r) EmptyString
        (summary_values float_str <$> report).
Proof.
  induction report as [|x l IH]; [done|].
  rewrite fmap_cons. cbn [foldr]. by rewrite IH, append_assoc.
Qed.

Lemma save_department_report_world (float_str : spec_float → string)
    (writable : string → bool)
    (report : list department_summary) (out sep : string) (w : world) :
  save_department_report float_str writable report out sep w =
    if writable out then
      (match report with [] => Raise IndexError | _ :: _ => Return () end,
       {| files := <[out := rendered_report float_str sep report]> (files w);
          stdout := stdout w |})
    else (Raise OSError, w).
Proof.
  unfold save_department_report. destruct (writable out); [|done].
  destruct report as [|entry report]; [done|]. f_equal.
  rewrite (foldl_write_world out _ _ _ (files w)
             (render_line sep summary_keys +:+ newline)).
  - cbn [stdout write open_truncate]. do 3 f_equal.
    unfold rendered_report, report_rows.
    rewrite foldr_rows, append_assoc. done.
  - unfold write, open_truncate. cbn [files].
    by rewrite lookup_insert_eq, insert_insert_eq.
Qed.

(** X5. The two text modes never touch the file system: with option
    ['1'] or ['2'] the files after the run are the files before it,
    whatever the outcome. *)
Theorem text_modes_keep_files (int : string → option Z)
    (float_str : spec_float → string) (writable : string → bool)
    (input_filename output_filename separator option : string) (w : world) :
  option = "1" ∨ option = "2" →
  files (generate_report int float_str writable input_filename output_filename separator
                         option w).2 = files w.
Proof.
  intros Hoption. unfold generate_report.
  destruct (files w !! input_filename) as [text|]; [|done].
  destruct (negb (utf8_valid text)); [done|].
  destruct (decide (option = "1")) as [->|Hne].
  - destruct (generate_hierarchy _ _); [|done].
    apply print_department_hierarchy_files.
  - destruct Hoption as [?| ->]; [done|].
    destruct (generate_report_by_department _ _ _); [|done].
    rewrite decide_True by done. by rewrite print_department_report_world.
Qed.

Lemma text_modes_keep_files_witness :
  files (generate_report py_int float_str_exact every_file "test.csv" "result.csv" ";" "2"
                         (world_with "test.csv" sample_file)).2 =
    files (world_with "test.csv" sample_file).
Proof.
  apply (text_modes_keep_files py_int float_str_exact every_file
           "test.csv" "result.csv" ";" "2").
  by right.
Defined.

(** X6. The file mode prints nothing and changes no file but the output
    file.  When the input is valid UTF-8, its aggregation returns a
    report and the output file can be opened for writing, the output file
    holds after the run the report rendered from the first character on
    (the old content is lost); when the output file cannot be opened for
    writing, the run changes nothing. *)
Theorem file_mode_writes_output_only (int : string → option Z)
    (float_str : spec_float → string) (writable : string → bool)
    (input_filename output_filename separator option : string) (w : world) :
  option ≠ "1" → option ≠ "2" →
  let w' := (generate_report int float_str writable input_filename output_filename
                             separator option w).2 in
  stdout w' = stdout w ∧
  (∀ filename, filename ≠ output_filename → files w' !! filename = files w !! filename) ∧
  (∀ text report,
     files w !! input_filename = Some text →
     utf8_valid text = true →
     generate_report_by_department int (readlines text) separator = Return report →
     writable output_filename = true →
     files w' !! output_filename = Some (rendered_report float_str separator report)) ∧
  (writable output_filename = false → w' = w).
Proof.
  intros H1 H2. cbv zeta. unfold generate_report.
  destruct (files w !! input_filename) as [text|]; [|done].
  destruct (utf8_valid text) eqn:Hvalid; cbn [negb].
  2: { cbn [snd]. repeat split; try done. intros text' report' [= <-]. congruence. }
  rewrite decide_False by done.
  destruct (generate_report_by_department _ _ _) as [report|e] eqn:Hgen.
  2: { cbn [snd]. repeat split; try done. intros text' report' [= <-]. congruence. }
  rewrite decide_False by done. rewrite save_department_report_world.
  destruct (writable output_filename); cbn [snd files stdout].
  2: { repeat split; done. }
  split; [done|]. split; [|split; [|done]].
  - intros filename Hne. by rewrite lookup_insert_ne.
  - intros text' report' [= <-] _ Hgen' _. rewrite Hgen in Hgen'. injection Hgen' as <-.
    by rewrite lookup_insert_eq.
Qed.

Lemma file_mode_writes_output_only_witness :
  let w := world_with "test.csv" sample_file in
  let w' := (generate_report py_int float_str_exact every_file "test.csv" "result.csv"
                             ";" "3" w).2 in
  stdout w' = stdout w ∧
  (∀ filename, filename ≠ "result.csv" → files w' !! filename = files w !! filename) ∧
  (∀ text report,
     files w !! "test.csv" = Some text →
     utf8_valid text = true →
     generate_report_by_department py_int (readlines text) ";" = Return report →
     every_file "result.csv" = true →
     files w' !! "result.csv" = Some (rendered_report float_str_exact ";" report)) ∧
  (every_file "result.csv" = false → w' = w).
Proof.
  apply (file_mode_writes_output_only py_int float_str_exact every_file
           "test.csv" "result.csv" ";" "3");
    discriminate.
Defined.

(** X7. The file mode is idempotent when the output file is not the input
    file: a second run on the world that the first run leaves gives the
    same outcome and the same world. *)
Theorem file_mode_idempotent (int : string → option Z)
    (float_str : spec_float → string) (writable : string → bool)
    (input_filename output_filename separator option : string) (w : world) :
  option ≠ "1" → option ≠ "2" →
  input_filename ≠ output_filename →
  let run := generate_report int float_str writable input_filename output_filename
                             separator option in
  run (run w).2 = run w.
Proof.
  intros H1 H2 Hne. cbv zeta. unfold generate_report.
  destruct (files w !! input_filename) as [text|] eqn:Htext.
  - destruct (utf8_valid text) eqn:Hvalid; cbn [negb].
    2: { cbn [snd]. by rewrite Htext, Hvalid. }
    rewrite decide_False by done.
    destruct (generate_report_by_department _ _ _) as [report|e] eqn:Hgen.
    + rewrite decide_False by done. rewrite save_department_report_world.
      destruct (writable output_filename) eqn:Hout.
      * cbn [snd files]. rewrite lookup_insert_ne, Htext, Hvalid by done. cbn [negb].
        rewrite decide_False, Hgen, decide_False by done.
        rewrite save_department_report_world, Hout. cbn [files stdout].
        by rewrite insert_insert_eq.
      * cbn [snd]. rewrite Htext, Hvalid. cbn [negb].
        rewrite decide_False, Hgen, decide_False by done.
        by rewrite save_department_report_world, Hout.
    + cbn [snd]. rewrite Htext, Hvalid. cbn [negb].
      rewrite decide_False, Hgen by done. done.
  - cbn [snd]. by rewrite Htext.
Qed.

Lemma file_mode_idempotent_witness :
  let run := generate_report py_int float_str_exact every_file "test.csv" "result.csv"
                             ";" "3" in
  run (run (world_with "test.csv" sample_file)).2 = run (world_with "test.csv" sample_file).
Proof.
  apply (file_mode_idempotent py_int float_str_exact every_file
           "test.csv" "result.csv" ";" "3");
    discriminate.
Defined.

(** X8. The text mode of the report prints, for every entry in the order
    of the report, the four labelled values and an empty line, after what
    the console already shows: five lines for an entry.  It changes no
    file. *)
Theorem print_department_report_lines (float_str : spec_float → string)
    (report : list department_summary) (w : world) :
  print_department_report float_str report w =
    {| files := files w;
       stdout := stdout w ++ concat (report_block float_str <$> report) |} ∧
  length (stdout (print_department_report float_str report w)) =
    (length (stdout w) + 5 * length report)%nat.
Proof.
  rewrite print_department_report_world. cbn [stdout]. split; [done|].
  rewrite length_app. f_equal.
  induction report as [|department report IH]; [done|].
  rewrite fmap_cons. cbn [concat]. rewrite length_app, IH. simpl. lia.
Qed.

(** X9. A run that raises leaves the world as it was, with one exception:
    saving an empty report raises [IndexError] after the output file has
    been truncated.  In particular the text modes print nothing when a
    line of the input is malformed. *)
Theorem failed_run_changes_nothing (int : string → option Z)
    (float_str : spec_float → string) (writable : string → bool)
    (input_filename output_filename separator option : string) (w w' : world)
    (e : exception) :
  generate_report int float_str writable input_filename output_filename separator
                  option w =
    (Raise e, w') →
  w' = w ∨ (e = IndexError ∧ option ≠ "1" ∧ option ≠ "2" ∧
            w' = open_truncate output_filename w).
Proof.
  unfold generate_report.
  destruct (files w !! input_filename) as [text|]; [|intros [= _ <-]; by left].
  destruct (negb (utf8_valid text)); [intros [= _ <-]; by left|].
  destruct (decide (option = "1")) as [->|H1].
  - destruct (generate_hierarchy _ _); [done|]. intros [= _ <-]. by left.
  - destruct (generate_report_by_department _ _ _) as [report|e'];
      [|intros [= _ <-]; by left].
    destruct (decide (option = "2")) as [->|H2]; [done|].
    rewrite save_department_report_world.
    destruct (writable output_filename); [|intros [= _ <-]; by left].
    destruct report as [|entry report]; [|done].
    intros [= <- <-]. right. done.
Qed.

Lemma failed_run_changes_nothing_witness :
  let w := world_with "test.csv" bad_salary_file in
  w = w ∨ (ValueError = IndexError ∧ "2" ≠ "1" ∧ "2" ≠ "2" ∧
           w = open_truncate "result.csv" w).
Proof.
  apply (failed_run_changes_nothing py_int float_str_exact every_file
           "test.csv" "result.csv" ";" "2").
  vm_compute. reflexivity.
Defined.

(** * Properties of the command line *)

(** ** [validate_files] *)

Section validation.
Variable int : string → option Z.
Variable mtime : string → Z.
Variable reads_ahead : string → bool.

Lemma filecmp_cmp_true f1 f2 w :
  filecmp_cmp mtime f1 f2 w = Return true ↔ taken_for_same mtime f1 f2 w.
Proof.
  unfold filecmp_cmp, taken_for_same.
  destruct (files w !! f1) as [c1|], (files w !! f2) as [c2|];
    try (split; [done | by intros (? & ? & ? & ? & _)]).
  split.
  - intros [= [Hlen Hsame]%andb_prop]. exists c1, c2.
    apply Nat.eqb_eq in Hlen. repeat split; [done|].
    apply orb_prop in Hsame as [?%Z.eqb_eq|?%String.eqb_eq]; auto.
  - intros (? & ? & [= <-] & [= <-] & Hlen & Hsame). f_equal.
    apply andb_true_intro. split; [by apply Nat.eqb_eq|].
    apply orb_true_intro. destruct Hsame as [?| ->].
    + left. by apply Z.eqb_eq.
    + right. apply String.eqb_refl.
Qed.

Lemma validate_files_unfold input_filename output_filename separator w :
  validate_files int mtime reads_ahead input_filename output_filename separator w =
    same ← (if path_exists output_filename w
            then uncaught (filecmp_cmp mtime input_filename output_filename w)
            else Success false);
    if (same : bool) then Failure (ValueErrorWith "Input and output files are the same")
    else check_input int reads_ahead input_filename separator w.
Proof. reflexivity. Qed.

Lemma check_input_Success input_filename separator w :
  check_input int reads_ahead input_filename separator w = Success () ↔
    ∃ text,
      files w !! input_filename = Some text ∧
      List.last (split_from "." input_filename 0) EmptyString = "csv" ∧
      decode_error reads_ahead text = false ∧
      second_line_ok int separator text.
Proof.
  unfold check_input.
  destruct (files w !! input_filename) as [text|]; [|split; [done | by intros (? & ? & _)]].
  transitivity (List.last (split_from "." input_filename 0) EmptyString = "csv" ∧
                decode_error reads_ahead text = false ∧
                second_line_ok int separator text);
    [|split; [intros (? & ? & ?); by exists text | by intros (? & [= <-] & ? & ? & ?)]].
  destruct (String.eqb_spec (List.last (split_from "." input_filename 0) EmptyString)
              "csv") as [Hext|Hext]; cbn [negb].
  2: { split; [done|]. by intros [? _]. }
  destruct (decode_error reads_ahead text) eqn:Hdecode.
  { split; [done|]. by intros (_ & ? & _). }
  unfold second_line_ok, fields_of, str_split.
  destruct separator as [|c separator].
  { split; [done|]. by intros (_ & _ & ? & _). }
  cbn [uncaught mbind outcome_bind].
  destruct (split_from (String c separator) _ 0)
    as [|f0 [|f1 [|f2 [|f3 [|f4 [|f5 [|f6 fields]]]]]]];
    simpl;
    try (split; [done | by intros (_ & _ & _ & ? & ? & ? & ? & ? & ? & ? & _)]).
  - destruct (int f5) as [z|] eqn:Hint; cbn [bool_decide].
    + split; [|done]. intros _. split; [exact Hext|]. split; [reflexivity|].
      split; [discriminate|].
      exists f0, f1, f2, f3, f4, f5. split; [reflexivity|]. rewrite Hint. by eexists.
    + split; [done|].
      intros (_ & _ & _ & g0 & g1 & g2 & g3 & g4 & g5 & Heq & [z Hz]).
      injection Heq as -> -> -> -> -> ->. congruence.
  - destruct (int f5) as [z|];
      (split; [done | by intros (_ & _ & _ & ? & ? & ? & ? & ? & ? & ? & _)]).
Qed.

Lemma validate_files_Success input_filename output_filename separator w :
  validate_files int mtime reads_ahead input_filename output_filename separator w =
    Success () ↔
    ¬ taken_for_same mtime input_filename output_filename w ∧
    ∃ text,
      files w !! input_filename = Some text ∧
      List.last (split_from "." input_filename 0) EmptyString = "csv" ∧
      decode_error reads_ahead text = false ∧
      second_line_ok int separator text.
Proof.
  rewrite validate_files_unfold, <-check_input_Success. unfold path_exists.
  destruct (files w !! output_filename) as [content|] eqn:Hout.
  - rewrite bool_decide_true by done.
    destruct (filecmp_cmp mtime input_filename output_filename w) as [[|]|e] eqn:Hcmp;
      cbn [uncaught mbind outcome_bind].
    + split; [done|]. intros [Hnot _]. exfalso. by apply Hnot, filecmp_cmp_true.
    + split; [|by intros [_ ?]]. intros Hcheck. split; [|done].
      intros Hsame%filecmp_cmp_true. congruence.
    + split; [done|]. intros [_ (text & Hin & _)%check_input_Success].
      unfold filecmp_cmp in Hcmp. by rewrite Hin, Hout in Hcmp.
  - rewrite bool_decide_false by (by intros [? ?]).
    cbn [mbind outcome_bind]. split; [|by intros [_ ?]].
    intros Hcheck. split; [|done]. intros (? & ? & _ & ? & _). congruence.
Qed.
End validation.

Lemma split_from_empty (sep : string) : split_from sep EmptyString 0 = [EmptyString].
Proof. done. Qed.

(** After a successful validation the input has a first data line that
    both loops can read. *)
Lemma validated_data_line (int : string → option Z) (mtime : string → Z)
    (reads_ahead : string → bool)
    (input_filename output_filename separator text : string) (w : world) :
  validate_files int mtime reads_ahead input_filename output_filename separator w =
    Success () →
  files w !! input_filename = Some text →
  separator ≠ EmptyString ∧
  ∃ line rest,
    data_lines (readlines text) = line :: rest ∧
    length (fields_of separator line) = 6%nat ∧
    is_Some (int (salary_field separator line)).
Proof.
  intros (_ & text' & Htext' & _ & _ & Hsep & f0 & f1 & f2 & f3 & f4 & f5 & Hfields & Hint)
    %validate_files_Success Htext.
  rewrite Htext in Htext'. injection Htext' as <-. split; [done|].
  destruct (readlines text) as [|header [|line rest]] eqn:Hlines;
    cbn [nth] in Hfields;
    try (unfold fields_of in Hfields; by rewrite split_from_empty in Hfields).
  exists line, rest. split; [done|]. split; [by rewrite Hfields|].
  unfold salary_field. by rewrite Hfields.
Qed.

Lemma first_data_line_not_malformed (int : string → option Z) (separator line : string) :
  length (fields_of separator line) = 6%nat →
  is_Some (int (salary_field separator line)) →
  ¬ malformed int separator line.
Proof. intros Hlen [z Hz] [Hshort|Hnone]; [lia | congruence]. Qed.

(** X10. [validate_files] accepts exactly the configurations in which the
    input file exists, the part of its name after the last dot is [csv],
    the reader meets no invalid UTF-8 while it reads the first two lines,
    the second line splits at the (non-empty) separator into exactly six
    fields of which the last is an integer, and the output file is not
    taken for the same file as the input.  On a file that is valid UTF-8
    the reader meets no invalid byte; on a file with an invalid byte in
    one of its first two lines it meets one; an invalid byte further on
    is met or not, as the reader has read ahead or not. *)
Theorem validate_files_accepts_iff (int : string → option Z) (mtime : string → Z)
    (reads_ahead : string → bool)
    (input_filename output_filename separator : string) (w : world) :
  (validate_files int mtime reads_ahead input_filename output_filename separator w =
     Success () ↔
   ¬ taken_for_same mtime input_filename output_filename w ∧
   ∃ text,
     files w !! input_filename = Some text ∧
     List.last (split_from "." input_filename 0) EmptyString = "csv" ∧
     decode_error reads_ahead text = false ∧
     second_line_ok int separator text) ∧
  (∀ text, utf8_valid text = true → decode_error reads_ahead text = false) ∧
  (∀ text, utf8_valid text = false →
           forallb utf8_valid (take 2 (readlines text)) = false →
           decode_error reads_ahead text = true).
Proof.
  split; [apply validate_files_Success|]. unfold decode_error. split.
  - by intros text ->.
  - by intros text -> ->.
Qed.

(** X11. A validated input always has a first data line that the engine
    can read: it has six fields and an integer salary, so it is not
    malformed, and neither the hierarchy nor the report built from the
    validated file is empty. *)
Theorem validated_input_has_data (int : string → option Z) (mtime : string → Z)
    (reads_ahead : string → bool)
    (input_filename output_filename separator text : string) (w : world) :
  validate_files int mtime reads_ahead input_filename output_filename separator w =
    Success () →
  files w !! input_filename = Some text →
  (∃ line rest,
     data_lines (readlines text) = line :: rest ∧ ¬ malformed int separator line) ∧
  (∀ report,
     generate_report_by_department int (readlines text) separator = Return report →
     report ≠ []) ∧
  (∀ departments_list,
     generate_hierarchy (readlines text) separator = Return departments_list →
     departments_list ≠ []).
Proof.
  intros Hvalid Htext.
  destruct (validated_data_line _ _ _ _ _ _ _ _ Hvalid Htext)
    as (Hsep & line & rest & Hlines & Hlen & Hint).
  assert (∃ department, department_of separator line = Some department) as [d Hd].
  { unfold department_of.
    destruct (fields_of separator line) as [|f0 [|f1 fields]]; try done. by exists f1. }
  split; [|split].
  - exists line, rest. split; [done|]. by apply first_data_line_not_malformed.
  - intros report [Hnames _]%generate_report_by_department_Return ->.
    rewrite Hlines in Hnames. cbn [omap list_omap] in Hnames. by rewrite Hd in Hnames.
  - intros departments_list [Hkeys _]%generate_hierarchy_Return ->.
    rewrite Hlines in Hkeys. cbn [omap list_omap] in Hkeys. by rewrite Hd in Hkeys.
Qed.

Lemma sample_validates :
  validate_files py_int sample_mtime one_block "test.csv" "result.csv" ";"
                 (world_with "test.csv" sample_file) = Success ().
Proof. vm_compute. reflexivity. Qed.

Lemma validated_input_has_data_witness :
  let text := foldr String.append EmptyString sample_file in
  (∃ line rest,
     data_lines (readlines text) = line :: rest ∧ ¬ malformed py_int ";" line) ∧
  (∀ report,
     generate_report_by_department py_int (readlines text) ";" = Return report →
     report ≠ []) ∧
  (∀ departments_list,
     generate_hierarchy (readlines text) ";" = Return departments_list →
     departments_list ≠ []).
Proof.
  apply (validated_input_has_data py_int sample_mtime one_block "test.csv" "result.csv" ";"
           (foldr String.append EmptyString sample_file)
           (world_with "test.csv" sample_file)).
  - vm_compute. reflexivity.
  - reflexivity.
Defined.

(** X12. When the output file exists and the input file does not, the
    comparison of the two files raises [FileNotFoundError] before the
    check that would report the missing input as a [ValueError]. *)
Theorem validate_files_missing_input (int : string → option Z) (mtime : string → Z)
    (reads_ahead : string → bool)
    (input_filename output_filename separator content : string) (w : world) :
  files w !! output_filename = Some content →
  files w !! input_filename = None →
  validate_files int mtime reads_ahead input_filename output_filename separator w =
    Failure (Uncaught FileNotFoundError).
Proof.
  intros Hout Hin. unfold validate_files, path_exists, filecmp_cmp.
  rewrite bool_decide_true by (by rewrite Hout). by rewrite Hin.
Qed.

Lemma validate_files_missing_input_witness :
  validate_files py_int sample_mtime one_block "test.csv" "result.csv" ";"
                 (world_with "result.csv" sample_file) =
    Failure (Uncaught FileNotFoundError).
Proof.
  apply (validate_files_missing_input py_int sample_mtime one_block "test.csv" "result.csv" ";"
           (foldr String.append EmptyString sample_file)); reflexivity.
Defined.

Lemma check_input_not_same (int : string → option Z) (reads_ahead : string → bool)
    (input_filename separator : string) (w : world) :
  check_input int reads_ahead input_filename separator w ≠
    Failure (ValueErrorWith "Input and output files are the same").
Proof.
  unfold check_input.
  destruct (files w !! input_filename); [|discriminate].
  destruct (negb _); [discriminate|].
  destruct (decode_error _ _); [discriminate|].
  destruct (str_split _ _) as [fields|e]; cbn [uncaught mbind outcome_bind];
    [|discriminate].
  destruct (fields !! 5%nat); [|discriminate].
  destruct (int _); [|discriminate].
  destruct (bool_decide _); discriminate.
Qed.

(** X13. The run is refused with ['Input and output files are the same']
    exactly when both files exist, have the same size, and have the same
    modification time or the same content; the contents are not read when
    the times agree.  In particular an existing file is never accepted as
    its own output. *)
Theorem validate_files_same_iff (int : string → option Z) (mtime : string → Z)
    (reads_ahead : string → bool)
    (input_filename output_filename separator : string) (w : world) :
  (validate_files int mtime reads_ahead input_filename output_filename separator w =
     Failure (ValueErrorWith "Input and output files are the same") ↔
   taken_for_same mtime input_filename output_filename w) ∧
  (validate_files int mtime reads_ahead input_filename input_filename separator w ≠
     Success ()).
Proof.
  split.
  - rewrite validate_files_unfold. unfold path_exists.
    destruct (files w !! output_filename) as [content|] eqn:Hout.
    + rewrite bool_decide_true by done. rewrite <-filecmp_cmp_true.
      destruct (filecmp_cmp mtime input_filename output_filename w) as [[|]|e];
        cbn [uncaught mbind outcome_bind].
      * done.
      * split; [|done]. intros Hsame. by apply check_input_not_same in Hsame.
      * split; done.
    + rewrite bool_decide_false by (by intros [? ?]). cbn [mbind outcome_bind].
      split.
      * intros Hsame. by apply check_input_not_same in Hsame.
      * intros (? & ? & _ & ? & _). congruence.
  - intros (Hnot & text & Hin & _)%validate_files_Success. apply Hnot.
    exists text, text. auto.
Qed.

(** ** [parse_parameters] *)

Lemma record_flag_Success (i : nat) (v : string)
    (options options' : list (string * parameter_options)) :
  record_flag i v options = Success options' →
  Forall2 (λ e e',
             same_option e e' ∧
             if decide (v ∈ option_keys e.2)
             then option_index e.2 = 0%nat ∧ option_index e'.2 = i
             else option_index e'.2 = option_index e.2)
          options options'.
Proof.
  revert options'. induction options as [|[name o] options IH]; intros options'.
  - intros [= <-]. constructor.
  - cbn [record_flag].
    destruct (decide (v ∈ option_keys o)) as [Hin|Hin].
    + rewrite (bool_decide_true _ Hin).
      destruct (decide (option_index o = 0%nat)) as [Hz|Hnz].
      * rewrite bool_decide_false by (intros ?; done).
        cbn [mbind outcome_bind].
        destruct (record_flag i v options) as [options''|] eqn:Hrest; [|done].
        cbn [mbind outcome_bind]. intros [= <-]. constructor; [|by apply IH].
        cbn [fst snd option_keys option_index]. rewrite decide_True by done. done.
      * by rewrite bool_decide_true by done.
    + rewrite (bool_decide_false _ Hin). cbn [mbind outcome_bind].
      destruct (record_flag i v options) as [options''|] eqn:Hrest; [|done].
      cbn [mbind outcome_bind]. intros [= <-]. constructor; [|by apply IH].
      cbn [fst snd]. rewrite decide_False by done. done.
Qed.

Lemma record_flag_Failure (i : nat) (v : string)
    (options : list (string * parameter_options)) (e : cli_exception) :
  record_flag i v options = Failure e → ∃ message, e = AttributeError message.
Proof.
  induction options as [|[name o] options IH]; [done|]. cbn [record_flag].
  destruct (bool_decide (v ∈ option_keys o)).
  - destruct (bool_decide (option_index o ≠ 0%nat)).
    + intros [= <-]. by eexists.
    + cbn [mbind outcome_bind]. destruct (record_flag i v options); [done|].
      cbn [mbind outcome_bind]. intros [= <-]. by apply IH.
  - cbn [mbind outcome_bind]. destruct (record_flag i v options); [done|].
    cbn [mbind outcome_bind]. intros [= <-]. by apply IH.
Qed.

Lemma record_flags_Failure (start : nat) (arguments : list string)
    (options : list (string * parameter_options)) (e : cli_exception) :
  record_flags start arguments options = Failure e → ∃ message, e = AttributeError message.
Proof.
  revert start options. induction arguments as [|v arguments IH]; intros start options;
    [done|].
  cbn [record_flags].
  destruct (record_flag start v options) as [options'|e'] eqn:Hflag;
    cbn [mbind outcome_bind].
  - apply IH.
  - intros [= <-]. by eapply record_flag_Failure.
Qed.

Lemma scanned_nil (keys : list string) (start index : nat) :
  scanned keys start [] index index.
Proof.
  split; [|split].
  - intros _ v Hv. by apply elem_of_nil in Hv.
  - intros j v Hj. by rewrite lookup_nil in Hj.
  - by left.
Qed.

Lemma scanned_cons (keys : list string) (start : nat) (v : string)
    (arguments : list string) (index index1 index' : nat) :
  (if decide (v ∈ keys) then index = 0%nat ∧ index1 = start else index1 = index) →
  scanned keys (S start) arguments index1 index' →
  scanned keys start (v :: arguments) index index'.
Proof.
  intros Hstep (Hset & Hocc & Hlast).
  assert (index1 ≠ 0%nat → index' = index1) as Hkeep.
  { intros Hnz. destruct Hlast as [?|(j & u & Hj & Hu & _)]; [done|].
    exfalso. eapply Hset; [done| |done]. by eapply list_elem_of_lookup_2. }
  split; [|split].
  - intros Hnz u Hu. destruct (decide (v ∈ keys)) as [Hin|Hin].
    + by destruct Hstep.
    + subst index1. apply elem_of_cons in Hu as [->|Hu]; [done|]. by apply Hset.
  - intros [|j] u Hj Hu Hpos.
    + injection Hj as <-. rewrite decide_True in Hstep by done.
      destruct Hstep as [_ ->]. rewrite Hkeep by lia. lia.
    + rewrite (Hocc j u); [lia|done..|lia].
  - destruct Hlast as [->|(j & u & Hj & Hu & ->)].
    + destruct (decide (v ∈ keys)) as [Hin|Hin].
      * destruct Hstep as [_ ->]. right. exists 0%nat, v. split; [done|]. split; [done|lia].
      * by left.
    + right. exists (S j), u. split; [done|]. split; [done|lia].
Qed.

Lemma record_flags_Success (start : nat) (arguments : list string)
    (options options' : list (string * parameter_options)) :
  record_flags start arguments options = Success options' →
  Forall2 (λ e e',
             same_option e e' ∧
             scanned (option_keys e.2) start arguments
                     (option_index e.2) (option_index e'.2))
          options options'.
Proof.
  revert start options. induction arguments as [|v arguments IH]; intros start options.
  - intros [= <-]. apply Forall_Forall2_diag, Forall_forall. intros e _.
    split; [done | apply scanned_nil].
  - cbn [record_flags].
    destruct (record_flag start v options) as [options1|] eqn:Hflag; [|done].
    cbn [mbind outcome_bind]. intros Hrest.
    apply record_flag_Success in Hflag. apply IH in Hrest.
    clear IH. revert options' Hrest.
    induction Hflag as [|e e1 options options1 [(Hn & Hk & Hv) Hstep] _ IHf];
      intros options' Hrest.
    + apply Forall2_nil_inv_l in Hrest as ->. constructor.
    + apply Forall2_cons_inv_l in Hrest
        as (e' & options'' & [(Hn' & Hk' & Hv') Hscan] & Hrest & ->).
      constructor; [|by apply IHf].
      split; [unfold same_option; repeat split; congruence|].
      rewrite Hk in Hscan. by eapply scanned_cons.
Qed.

Lemma read_values_Success (argv : list string)
    (options options' : list (string * parameter_options)) :
  read_values argv options = Success options' →
  Forall2 (λ e e',
             e'.1 = e.1 ∧ (option_index e.2 + 1 ≠ length argv)%nat ∧
             if decide (option_index e.2 = 0%nat)
             then option_value e'.2 = option_value e.2
             else argv !! (option_index e.2 + 1)%nat = Some (option_value e'.2))
          options options'.
Proof.
  revert options'. induction options as [|[name o] options IH]; intros options'.
  - intros [= <-]. constructor.
  - cbn [read_values]. case_bool_decide as Hlen; [done|].
    destruct (decide (option_index o = 0%nat)) as [Hz|Hnz].
    + rewrite bool_decide_false by (intros ?; done). cbn [mbind outcome_bind].
      destruct (read_values argv options) as [options''|]; [|done].
      cbn [mbind outcome_bind]. intros [= <-]. constructor; [|by apply IH].
      cbn [fst snd]. rewrite decide_True by done. done.
    + rewrite bool_decide_true by done.
      destruct (argv !! (option_index o + 1)%nat) as [v|] eqn:Hv; [|done].
      cbn [mbind outcome_bind].
      destruct (read_values argv options) as [options''|]; [|done].
      cbn [mbind outcome_bind]. intros [= <-]. constructor; [|by apply IH].
      cbn [fst snd option_value]. rewrite decide_False by done. done.
Qed.

Lemma read_values_Failure (argv : list string)
    (options : list (string * parameter_options)) (e : cli_exception) :
  Forall (λ e, (option_index e.2 < length argv)%nat ∨ option_index e.2 = 0%nat) options →
  read_values argv options = Failure e → ∃ message, e = AttributeError message.
Proof.
  induction 1 as [|[name o] options Hbound _ IH]; [done|]. cbn [read_values].
  case_bool_decide as Hlen; [intros [= <-]; by eexists|].
  assert ((if bool_decide (option_index o ≠ 0%nat)
           then match argv !! (option_index o + 1)%nat with
                | Some v => Success {| option_keys := option_keys o;
                                       option_index := option_index o;
                                       option_value := v |}
                | None => Failure (Uncaught IndexError)
                end
           else Success o) ≠ Failure (Uncaught IndexError)) as Hok.
  { case_bool_decide as Hnz; [|done].
    destruct (argv !! (option_index o + 1)%nat) eqn:Hv; [done|].
    apply lookup_ge_None in Hv. simpl in Hbound. lia. }
  destruct (if bool_decide (option_index o ≠ 0%nat) then _ else _) as [o'|e'] eqn:Ho.
  - cbn [mbind outcome_bind]. destruct (read_values argv options); [done|].
    cbn [mbind outcome_bind]. intros [= <-]. by apply IH.
  - cbn [mbind outcome_bind]. intros [= <-].
    case_bool_decide; [|done]. by destruct (argv !! _).
Qed.

Lemma flag_value_of_scanned (keys : list string) (argv : list string)
    (index' : nat) (default_value v : string) :
  scanned keys 0 argv 0 index' →
  (if decide (index' = 0%nat) then v = default_value
   else argv !! (index' + 1)%nat = Some v) →
  flag_value keys default_value argv v.
Proof.
  intros (_ & Hocc & Hlast) Hvalue. split.
  - intros k [Hk (u & Hu & Hin)].
    rewrite (Hocc k u Hu Hin) in Hvalue by lia. simpl in Hvalue.
    rewrite decide_False in Hvalue by lia. done.
  - intros Hnone. destruct Hlast as [->|(j & u & Hj & Hu & ->)].
    + by rewrite decide_True in Hvalue.
    + destruct j as [|j]; [by rewrite decide_True in Hvalue|].
      destruct (Hnone (S j)). split; [lia|]. by exists u.
Qed.

Lemma flag_value_short (keys : list string) (argv : list string) (default_value : string) :
  length argv = 1%nat → flag_value keys default_value argv default_value.
Proof.
  intros Hlen. split; [|done]. intros k [Hk (u & Hu & _)].
  apply lookup_lt_Some in Hu. lia.
Qed.

(** The two passes of [parse_parameters] on the three parameters. *)
Lemma passes_Success (argv : list string)
    (options : list (string * parameter_options)) :
  (record_flags 0 argv parameters_options ≫= read_values argv) = Success options →
  flag_value input_keys INPUT_FILE argv (value_of "input_filename" options) ∧
  flag_value output_keys OUTPUT_FILE argv (value_of "output_filename" options) ∧
  flag_value separator_keys SEPARATOR argv (value_of "separator" options).
Proof.
  destruct (record_flags 0 argv parameters_options) as [options1|] eqn:Hflags; [|done].
  cbn [mbind outcome_bind]. intros Hvalues.
  apply record_flags_Success in Hflags. apply read_values_Success in Hvalues.
  unfold parameters_options in Hflags.
  apply Forall2_cons_inv_l in Hflags
    as ([n1 o1] & ? & [(Hn1 & Hk1 & Hv1) Hs1] & Hflags & ->).
  apply Forall2_cons_inv_l in Hflags
    as ([n2 o2] & ? & [(Hn2 & Hk2 & Hv2) Hs2] & Hflags & ->).
  apply Forall2_cons_inv_l in Hflags
    as ([n3 o3] & ? & [(Hn3 & Hk3 & Hv3) Hs3] & ->%Forall2_nil_inv_l & ->).
  apply Forall2_cons_inv_l in Hvalues as ([m1 p1] & ? & (Hm1 & _ & Hp1) & Hvalues & ->).
  apply Forall2_cons_inv_l in Hvalues as ([m2 p2] & ? & (Hm2 & _ & Hp2) & Hvalues & ->).
  apply Forall2_cons_inv_l in Hvalues
    as ([m3 p3] & ? & (Hm3 & _ & Hp3) & ->%Forall2_nil_inv_l & ->).
  cbn [fst snd option_keys option_index option_value] in *. subst.
  unfold value_of. cbn [dict_get].
  rewrite !decide_True by done.
  rewrite (decide_False (P := "input_filename" = "output_filename")) by discriminate.
  rewrite (decide_False (P := "input_filename" = "separator")) by discriminate.
  rewrite (decide_False (P := "output_filename" = "separator")) by discriminate.
  cbn [fmap option_fmap option_map default].
  rewrite Hv1 in Hp1. rewrite Hv2 in Hp2. rewrite Hv3 in Hp3.
  split; [|split]; by eapply flag_value_of_scanned.
Qed.

Lemma passes_Failure (argv : list string) (e : cli_exception) :
  (record_flags 0 argv parameters_options ≫= read_values argv) = Failure e →
  ∃ message, e = AttributeError message.
Proof.
  destruct (record_flags 0 argv parameters_options) as [options1|e1] eqn:Hflags;
    cbn [mbind outcome_bind].
  - apply read_values_Failure.
    apply record_flags_Success in Hflags.
    assert (Forall (λ e, option_index e.2 = 0%nat) parameters_options) as Hzero
      by (repeat constructor).
    induction Hflags as [|e0 e1 l l' [_ (_ & _ & Hlast)] _ IH]; [constructor|].
    apply Forall_cons in Hzero as [Hz Hzero]. constructor; [|by apply IH].
    destruct Hlast as [->|(j & u & Hj & _ & ->)]; [by right|].
    left. apply lookup_lt_Some in Hj. lia.
  - intros [= <-]. by eapply record_flags_Failure.
Qed.

Lemma parse_parameters_unfold (int : string → option Z) (mtime : string → Z)
    (reads_ahead : string → bool)
    (argv : list string) (w : world) :
  length argv ≠ 1%nat →
  parse_parameters int mtime reads_ahead argv w =
    options ← (record_flags 0 argv parameters_options ≫= read_values argv);
    _ ← validate_files int mtime reads_ahead (value_of "input_filename" options)
                       (value_of "output_filename" options)
                       (value_of "separator" options) w;
    Success (value_of "input_filename" options, value_of "output_filename" options,
             value_of "separator" options).
Proof.
  intros Hlen. unfold parse_parameters. rewrite bool_decide_false by done.
  destruct (record_flags 0 argv parameters_options); [|done].
  cbn [mbind outcome_bind]. by destruct (read_values argv _).
Qed.

Lemma parse_parameters_Success (int : string → option Z) (mtime : string → Z)
    (reads_ahead : string → bool)
    (argv : list string) (w : world) (input_filename output_filename separator : string) :
  parse_parameters int mtime reads_ahead argv w =
    Success (input_filename, output_filename, separator) →
  validate_files int mtime reads_ahead input_filename output_filename separator w = Success () ∧
  flag_value input_keys INPUT_FILE argv input_filename ∧
  flag_value output_keys OUTPUT_FILE argv output_filename ∧
  flag_value separator_keys SEPARATOR argv separator.
Proof.
  destruct (decide (length argv = 1%nat)) as [Hlen|Hlen].
  - unfold parse_parameters. rewrite bool_decide_true by done.
    destruct (validate_files _ _ _ _ _ _) as [[]|] eqn:Hvalid; [|done].
    cbn [mbind outcome_bind]. intros [= <- <- <-].
    split; [done|]. repeat split; by apply flag_value_short.
  - rewrite parse_parameters_unfold by done.
    destruct (_ ≫= read_values argv) as [options|] eqn:Hpasses; [|done].
    cbn [mbind outcome_bind].
    destruct (validate_files _ _ _ _ _ _) as [[]|] eqn:Hvalid; [|done].
    cbn [mbind outcome_bind]. intros [= <- <- <-].
    split; [done|]. by apply passes_Success.
Qed.

Lemma validate_files_Uncaught (int : string → option Z) (mtime : string → Z)
    (reads_ahead : string → bool)
    (input_filename output_filename separator : string) (w : world) (e : exception) :
  validate_files int mtime reads_ahead input_filename output_filename separator w =
    Failure (Uncaught e) →
  (e = FileNotFoundError ∧ files w !! input_filename = None ∧
   is_Some (files w !! output_filename)) ∨
  (e = ValueError ∧
   (separator = EmptyString ∨
    ∃ text, files w !! input_filename = Some text ∧
            decode_error reads_ahead text = true)).
Proof.
  rewrite validate_files_unfold. unfold path_exists.
  assert (check_input int reads_ahead input_filename separator w =
            Failure (Uncaught e) →
          e = ValueError ∧
          (separator = EmptyString ∨
           ∃ text, files w !! input_filename = Some text ∧
                   decode_error reads_ahead text = true)) as Hcheck.
  { unfold check_input. destruct (files w !! input_filename) as [text|]; [|done].
    destruct (negb _); [done|].
    destruct (decode_error reads_ahead text) eqn:Hdecode; [intros [= <-]; eauto|].
    destruct separator; [intros [= <-]; auto|].
    cbn [str_split uncaught mbind outcome_bind].
    destruct (_ !! 5%nat); [|done]. destruct (int _); [|done].
    by destruct (bool_decide _). }
  destruct (files w !! output_filename) as [content|] eqn:Hout.
  - rewrite bool_decide_true by done. unfold filecmp_cmp at 1.
    destruct (files w !! input_filename) as [text|] eqn:Hin.
    + rewrite Hout. cbn [uncaught mbind outcome_bind].
      destruct (_ && _); [done|]. intros ?. right. by apply Hcheck.
    + cbn [uncaught mbind outcome_bind]. intros [= <-]. left. eauto.
  - rewrite bool_decide_false by (by intros [? ?]). cbn [mbind outcome_bind].
    intros ?. right. by apply Hcheck.
Qed.

(** X14. What [parse_parameters] returns has passed [validate_files], and
    every returned value is the argument that follows the flag of the
    parameter (in either spelling, anywhere after the script name), or the
    default when the flag does not occur. *)
Theorem parse_parameters_returns (int : string → option Z) (mtime : string → Z)
    (reads_ahead : string → bool)
    (argv : list string) (w : world) (input_filename output_filename separator : string) :
  parse_parameters int mtime reads_ahead argv w =
    Success (input_filename, output_filename, separator) →
  validate_files int mtime reads_ahead input_filename output_filename separator w = Success () ∧
  flag_value input_keys INPUT_FILE argv input_filename ∧
  flag_value output_keys OUTPUT_FILE argv output_filename ∧
  flag_value separator_keys SEPARATOR argv separator.
Proof. apply parse_parameters_Success. Qed.

Lemma parse_parameters_returns_witness :
  let argv := ["report.py"; "--separator"; ";"; "-if"; "test.csv"] in
  validate_files py_int sample_mtime one_block "test.csv" "result.csv" ";"
                 (world_with "test.csv" sample_file) = Success () ∧
  flag_value input_keys INPUT_FILE argv "test.csv" ∧
  flag_value output_keys OUTPUT_FILE argv "result.csv" ∧
  flag_value separator_keys SEPARATOR argv ";".
Proof.
  apply (parse_parameters_returns py_int sample_mtime one_block
           ["report.py"; "--separator"; ";"; "-if"; "test.csv"]
           (world_with "test.csv" sample_file)).
  vm_compute. reflexivity.
Defined.

(** X15. A flag may be used once: when the flag of one parameter occurs at
    two positions after the script name, in the same or in the other
    spelling, [parse_parameters] raises [AttributeError]. *)
Theorem duplicate_flag_rejected (int : string → option Z) (mtime : string → Z)
    (reads_ahead : string → bool)
    (argv : list string) (w : world) (keys : list string) (j k : nat) :
  keys ∈ [input_keys; output_keys; separator_keys] →
  flag_at keys argv j → flag_at keys argv k → j ≠ k →
  ∃ message, parse_parameters int mtime reads_ahead argv w = Failure (AttributeError message).
Proof.
  intros Hkeys Hj Hk Hjk.
  assert (length argv ≠ 1%nat) as Hlen.
  { destruct Hj as [Hj1 (u & Hu & _)]. apply lookup_lt_Some in Hu. lia. }
  rewrite parse_parameters_unfold by done.
  destruct (_ ≫= read_values argv) as [options|e] eqn:Hpasses; cbn [mbind outcome_bind].
  - exfalso.
    destruct (record_flags 0 argv parameters_options) as [options1|] eqn:Hflags; [|done].
    apply record_flags_Success in Hflags. unfold parameters_options in Hflags.
    apply Forall2_cons_inv_l in Hflags as (e1 & ? & [_ (_ & Hs1 & _)] & Hflags & ->).
    apply Forall2_cons_inv_l in Hflags as (e2 & ? & [_ (_ & Hs2 & _)] & Hflags & ->).
    apply Forall2_cons_inv_l in Hflags as (e3 & ? & [_ (_ & Hs3 & _)] & _ & ->).
    cbn [snd option_keys] in *.
    destruct Hj as [Hj1 (u & Hu & Hin)], Hk as [Hk1 (u' & Hu' & Hin')].
    apply elem_of_cons in Hkeys as [->|Hkeys];
      [|apply elem_of_cons in Hkeys as [->|Hkeys];
        [|apply elem_of_cons in Hkeys as [->|Hkeys]; [|by apply elem_of_nil in Hkeys]]].
    + pose proof (Hs1 j u Hu Hin ltac:(lia)). pose proof (Hs1 k u' Hu' Hin' ltac:(lia)). lia.
    + pose proof (Hs2 j u Hu Hin ltac:(lia)). pose proof (Hs2 k u' Hu' Hin' ltac:(lia)). lia.
    + pose proof (Hs3 j u Hu Hin ltac:(lia)). pose proof (Hs3 k u' Hu' Hin' ltac:(lia)). lia.
  - destruct (passes_Failure _ _ Hpasses) as [message ->]. by exists message.
Qed.

Lemma duplicate_flag_rejected_witness :
  ∃ message,
    parse_parameters py_int sample_mtime one_block
      ["report.py"; "-s"; ";"; "--separator"; ","] (world_with "test.csv" sample_file) =
      Failure (AttributeError message).
Proof.
  apply (duplicate_flag_rejected py_int sample_mtime one_block
           ["report.py"; "-s"; ";"; "--separator"; ","] (world_with "test.csv" sample_file)
           separator_keys 1 3).
  - right. right. left.
  - split; [lia|]. exists "-s". split; [reflexivity | left].
  - split; [lia|]. exists "--separator". split; [reflexivity | right; left].
  - lia.
Defined.

(** X16. A flag needs a value: when the last argument is a flag,
    [parse_parameters] raises [AttributeError]. *)
Theorem trailing_flag_rejected (int : string → option Z) (mtime : string → Z)
    (reads_ahead : string → bool)
    (argv : list string) (w : world) (keys : list string) :
  keys ∈ [input_keys; output_keys; separator_keys] →
  flag_at keys argv (length argv - 1) →
  ∃ message, parse_parameters int mtime reads_ahead argv w = Failure (AttributeError message).
Proof.
  intros Hkeys [Hk1 (u & Hu & Hin)].
  assert (length argv ≠ 1%nat) as Hlen by lia.
  rewrite parse_parameters_unfold by done.
  destruct (_ ≫= read_values argv) as [options|e] eqn:Hpasses; cbn [mbind outcome_bind].
  - exfalso.
    destruct (record_flags 0 argv parameters_options) as [options1|] eqn:Hflags; [|done].
    cbn [mbind outcome_bind] in Hpasses.
    apply record_flags_Success in Hflags. apply read_values_Success in Hpasses.
    unfold parameters_options in Hflags.
    apply Forall2_cons_inv_l in Hflags as (e1 & ? & [_ (_ & Hs1 & _)] & Hflags & ->).
    apply Forall2_cons_inv_l in Hflags as (e2 & ? & [_ (_ & Hs2 & _)] & Hflags & ->).
    apply Forall2_cons_inv_l in Hflags
      as (e3 & ? & [_ (_ & Hs3 & _)] & ->%Forall2_nil_inv_l & ->).
    apply Forall2_cons_inv_l in Hpasses as (? & ? & (_ & Hl1 & _) & Hpasses & ->).
    apply Forall2_cons_inv_l in Hpasses as (? & ? & (_ & Hl2 & _) & Hpasses & ->).
    apply Forall2_cons_inv_l in Hpasses as (? & ? & (_ & Hl3 & _) & _ & ->).
    cbn [snd option_keys] in *.
    apply elem_of_cons in Hkeys as [->|Hkeys];
      [|apply elem_of_cons in Hkeys as [->|Hkeys];
        [|apply elem_of_cons in Hkeys as [->|Hkeys]; [|by apply elem_of_nil in Hkeys]]].
    + pose proof (Hs1 _ u Hu Hin ltac:(lia)). lia.
    + pose proof (Hs2 _ u Hu Hin ltac:(lia)). lia.
    + pose proof (Hs3 _ u Hu Hin ltac:(lia)). lia.
  - destruct (passes_Failure _ _ Hpasses) as [message ->]. by exists message.
Qed.

Lemma trailing_flag_rejected_witness :
  ∃ message,
    parse_parameters py_int sample_mtime one_block
      ["report.py"; "-s"; ";"; "-if"] (world_with "test.csv" sample_file) =
      Failure (AttributeError message).
Proof.
  apply (trailing_flag_rejected py_int sample_mtime one_block
           ["report.py"; "-s"; ";"; "-if"] (world_with "test.csv" sample_file) input_keys).
  - left.
  - split; [simpl; lia|]. exists "-if". split; [reflexivity | left].
Defined.

Lemma parse_uncaught_cases (int : string → option Z) (mtime : string → Z)
    (reads_ahead : string → bool)
    (argv : list string) (w : world) (e : exception) :
  parse_parameters int mtime reads_ahead argv w = Failure (Uncaught e) →
  e = FileNotFoundError ∨ e = ValueError.
Proof.
  assert (∀ i o s, validate_files int mtime reads_ahead i o s w = Failure (Uncaught e) →
                   e = FileNotFoundError ∨ e = ValueError) as Hvalid.
  { intros i o s [[-> _]|[-> _]]%validate_files_Uncaught; auto. }
  destruct (decide (length argv = 1%nat)) as [Hlen|Hlen].
  - unfold parse_parameters. rewrite bool_decide_true by done.
    destruct (validate_files _ _ _ _ _ _) as [[]|e'] eqn:Hv; [done|].
    cbn [mbind outcome_bind]. intros [= ->]. by eapply Hvalid.
  - rewrite parse_parameters_unfold by done.
    destruct (_ ≫= read_values argv) as [options|e'] eqn:Hpasses; cbn [mbind outcome_bind].
    + destruct (validate_files _ _ _ _ _ _) as [[]|e'] eqn:Hv; [done|].
      cbn [mbind outcome_bind]. intros [= ->]. by eapply Hvalid.
    + intros [= ->]. by destruct (passes_Failure _ _ Hpasses).
Qed.



(** * The script as a whole *)

Lemma generate_hierarchy_Raise (file : list string) (sep : string) (e : exception) :
  generate_hierarchy file sep = Raise e → e = ValueError.
Proof. rewrite generate_hierarchy_eq. destruct (mapM _ _); [done|]. by intros [= <-]. Qed.

Lemma generate_hierarchy_returns (file : list string) (sep : string) :
  sep ≠ EmptyString →
  (∀ line, line ∈ data_lines file → (3 ≤ length (fields_of sep line))%nat) →
  ∃ departments_list, generate_hierarchy file sep = Return departments_list.
Proof.
  intros Hsep Hall. rewrite generate_hierarchy_eq.
  destruct (mapM _ _) as [records|] eqn:HmapM; [by eexists|].
  apply mapM_None, Exists_exists in HmapM as (line & Hin & Hnone).
  apply hierarchy_record_None in Hnone as [?|Hshort]; [done|].
  specialize (Hall line Hin). lia.
Qed.

Lemma foldl_print_map (A : Type) (g : A → string) (l : list A) (w : world) :
  foldl (λ w x, print (g x) w) w l =
    {| files := files w; stdout := stdout w ++ (g <$> l) |}.
Proof.
  revert w. induction l as [|x l IH]; intros w; cbn [foldl].
  - destruct w. simpl. by rewrite app_nil_r.
  - rewrite IH. simpl. by rewrite <-app_assoc.
Qed.

Lemma print_department_hierarchy_world (departments_list : list (string * gset string))
    (w : world) :
  print_department_hierarchy departments_list w =
    {| files := files w;
       stdout := stdout w ++
                 concat (hierarchy_block departments_list <$> dict_keys departments_list) |}.
Proof.
  unfold print_department_hierarchy. generalize (dict_keys departments_list).
  intros keys. revert w. induction keys as [|department keys IH]; intros w; cbn [foldl].
  - destruct w. simpl. by rewrite app_nil_r.
  - rewrite IH. fold team_line.
    rewrite (foldl_print_map _ team_line). simpl.
    unfold hierarchy_block at 2. by rewrite <-!app_assoc.
Qed.

Lemma get_menu_option_world (typed : option string) (w : world) :
  (get_menu_option typed w).2 = menu_printed w.
Proof.
  unfold get_menu_option. rewrite foldl_print_stdout. fold (menu_printed w).
  destruct typed as [option|]; [|done]. by destruct (bool_decide _).
Qed.

Lemma get_menu_option_Success (typed : option string) (w : world) (option : string) :
  (get_menu_option typed w).1 = Success option ↔
    typed = Some option ∧ option ∈ ["1"; "2"; "3"].
Proof.
  unfold get_menu_option. destruct typed as [typed|]; [|by split; [|intros [? _]]].
  case_bool_decide as Hin; simpl.
  - split; [by intros [= <-] | by intros [[= ->] _]].
  - split; [done | by intros [[= ->] ?]].
Qed.

Lemma validate_files_distinct (int : string → option Z) (mtime : string → Z)
    (reads_ahead : string → bool)
    (input_filename output_filename separator : string) (w : world) :
  validate_files int mtime reads_ahead input_filename output_filename separator w = Success () →
  input_filename ≠ output_filename.
Proof.
  intros (Hnot & text & Hin & _)%validate_files_Success <-. apply Hnot.
  exists text, text. auto.
Qed.

Lemma validated_report_nonempty (int : string → option Z) (mtime : string → Z)
    (reads_ahead : string → bool)
    (input_filename output_filename separator text : string) (w : world)
    (report : list department_summary) :
  validate_files int mtime reads_ahead input_filename output_filename separator w = Success () →
  files w !! input_filename = Some text →
  generate_report_by_department int (readlines text) separator = Return report →
  report ≠ [].
Proof.
  intros Hvalid Htext [Hnames _]%generate_report_by_department_Return ->.
  destruct (validated_data_line _ _ _ _ _ _ _ _ Hvalid Htext)
    as (Hsep & line & rest & Hlines & Hlen & Hint).
  rewrite Hlines in Hnames. cbn [omap list_omap] in Hnames. unfold department_of in Hnames.
  by destruct (fields_of separator line) as [|f0 [|f1 fields]].
Qed.

(** The three ways in which [main] goes on after [parse_parameters]. *)
Lemma main_parse_Failure (int : string → option Z) (float_str : spec_float → string)
    (writable : string → bool) (mtime : string → Z) (reads_ahead : string → bool)
    (argv : list string) (typed : option string) (w : world)
    (e : cli_exception) :
  parse_parameters int mtime reads_ahead argv w = Failure e →
  main int float_str writable mtime reads_ahead argv typed w = (Failure e, w).
Proof. unfold main. by intros ->. Qed.

Lemma main_menu_Failure (int : string → option Z) (float_str : spec_float → string)
    (writable : string → bool) (mtime : string → Z) (reads_ahead : string → bool)
    (argv : list string) (typed : option string) (w : world)
    (input_file output_file separator : string) :
  parse_parameters int mtime reads_ahead argv w = Success (input_file, output_file, separator) →
  (∀ option, typed = Some option → option ∉ ["1"; "2"; "3"]) →
  ∃ e, main int float_str writable mtime reads_ahead argv typed w = (Failure e, menu_printed w) ∧
       ∀ e', e ≠ Uncaught e'.
Proof.
  intros Hparse Hbad. unfold main. rewrite Hparse.
  unfold get_menu_option. rewrite foldl_print_stdout. fold (menu_printed w).
  destruct typed as [option|]; [|by eexists].
  rewrite bool_decide_false by (by apply Hbad). by eexists.
Qed.

Lemma main_menu_Success (int : string → option Z) (float_str : spec_float → string)
    (writable : string → bool) (mtime : string → Z) (reads_ahead : string → bool)
    (argv : list string) (w : world)
    (input_file output_file separator option : string) :
  parse_parameters int mtime reads_ahead argv w = Success (input_file, output_file, separator) →
  option ∈ ["1"; "2"; "3"] →
  main int float_str writable mtime reads_ahead argv (Some option) w =
    (uncaught (generate_report int float_str writable input_file output_file separator option
                               (menu_printed w)).1,
     (generate_report int float_str writable input_file output_file separator option
                      (menu_printed w)).2).
Proof.
  intros Hparse Hin. unfold main. rewrite Hparse.
  pose proof (get_menu_option_world (Some option) w) as Hw.
  pose proof (get_menu_option_Success (Some option) w option) as [_ Hr].
  specialize (Hr (conj eq_refl Hin)).
  destruct (get_menu_option (Some option) w) as [r w']; simpl in *; subst.
  by destruct (generate_report _ _ _ _ _ _ _ _).
Qed.

Lemma menu_option_cases (option : string) :
  option ∈ ["1"; "2"; "3"] → option = "1" ∨ option = "2" ∨ option = "3".
Proof.
  intros Hin. repeat (apply elem_of_cons in Hin as [->|Hin]; [auto|]).
  by apply elem_of_nil in Hin.
Qed.

Lemma typed_cases (typed : option string) :
  (∃ option, typed = Some option ∧ option ∈ ["1"; "2"; "3"]) ∨
  (∀ option, typed = Some option → option ∉ ["1"; "2"; "3"]).
Proof.
  destruct typed as [option|]; [|by right].
  destruct (decide (option ∈ ["1"; "2"; "3"])) as [Hin|Hnot]; [left; eauto|].
  right. by intros ? [= <-].
Qed.

(** X18. The hierarchy mode prints every department once, in the order
    in which the departments first occur in the file, each followed by
    one line for each of its teams, every team once. *)
Theorem hierarchy_mode_prints (file : list string) (sep : string)
    (departments_list : list (string * gset string)) (w : world) :
  generate_hierarchy file sep = Return departments_list →
  let departments := first_occurrences (omap (department_of sep) (data_lines file)) in
  print_department_hierarchy departments_list w =
    {| files := files w;
       stdout := stdout w ++ concat (hierarchy_block departments_list <$> departments) |} ∧
  ∀ department,
    department ∈ departments →
    ∃ teams,
      hierarchy_block departments_list department =
        ("Департамент: " +:+ department) :: (team_line <$> teams) ∧
      NoDup teams ∧
      ∀ team, team ∈ teams ↔ team ∈ department_teams sep department file.
Proof.
  intros [Hkeys Hteams]%generate_hierarchy_Return departments. split.
  - rewrite print_department_hierarchy_world. by rewrite Hkeys.
  - intros department Hin. unfold hierarchy_block.
    rewrite Hteams by (by rewrite Hkeys). cbn [default].
    eexists. split; [done|]. split; [apply NoDup_elements|].
    intros team. rewrite elem_of_elements. apply elem_of_list_to_set.
Qed.

Lemma hierarchy_mode_prints_witness :
  let departments_list : list (string * gset string) :=
    [("Eng", {["Frontend"]} ∪ ({["Backend"]} ∪ ∅))] in
  let departments :=
    first_occurrences (omap (department_of ";") (data_lines sample_file)) in
  print_department_hierarchy departments_list empty_world =
    {| files := files empty_world;
       stdout := stdout empty_world ++
                 concat (hierarchy_block departments_list <$> departments) |} ∧
  ∀ department,
    department ∈ departments →
    ∃ teams,
      hierarchy_block departments_list department =
        ("Департамент: " +:+ department) :: (team_line <$> teams) ∧
      NoDup teams ∧
      ∀ team, team ∈ teams ↔ team ∈ department_teams ";" department sample_file.
Proof.
  apply (hierarchy_mode_prints sample_file ";").
  vm_compute. reflexivity.
Defined.

Lemma main_Uncaught (int : string → option Z) (float_str : spec_float → string)
    (writable : string → bool) (mtime : string → Z) (reads_ahead : string → bool)
    (argv : list string) (typed : option string) (w : world) (e : exception) :
  (main int float_str writable mtime reads_ahead argv typed w).1 = Failure (Uncaught e) →
  e = ValueError ∨ e = OverflowError ∨ e = FileNotFoundError ∨ e = OSError.
Proof.
  destruct (parse_parameters int mtime reads_ahead argv w) as [[[i o] s]|e'] eqn:Hparse.
  2: { rewrite (main_parse_Failure _ _ _ _ _ _ _ _ _ Hparse). simpl. intros [= ->].
       apply parse_uncaught_cases in Hparse as [->| ->]; auto. }
  pose proof Hparse as (Hvalid & _)%parse_parameters_Success.
  pose proof Hvalid as (_ & text & Htext & _)%validate_files_Success.
  destruct (typed_cases typed) as [(option & -> & Hin)|Hbad].
  2: { destruct (main_menu_Failure int float_str writable mtime reads_ahead argv typed w
                   i o s Hparse Hbad) as (e' & -> & Hcaught).
       simpl. intros [= ->]. by destruct (Hcaught e). }
  rewrite (main_menu_Success _ _ _ _ _ _ _ _ _ _ _ Hparse Hin). cbn [fst].
  unfold generate_report. cbn [files menu_printed]. rewrite Htext.
  destruct (negb (utf8_valid text)); [cbn; intros [= <-]; auto|].
  destruct (decide (option = "1")) as [->|Hne1].
  - destruct (generate_hierarchy _ _) as [departments_list|e'] eqn:Hgen; [done|].
    simpl. intros [= ->]. left. by eapply generate_hierarchy_Raise.
  - destruct (generate_report_by_department _ _ _) as [report|e'] eqn:Hgen.
    2: { simpl. intros [= ->].
         apply generate_report_by_department_Raise in Hgen as [[-> _]| ->]; auto. }
    destruct (decide (option = "2")) as [->|Hne2]; [done|].
    rewrite save_department_report_world.
    destruct (writable o); [|cbn; intros [= <-]; auto].
    cbn [fst uncaught].
    pose proof (validated_report_nonempty _ _ _ _ _ _ _ _ _ Hvalid Htext Hgen).
    by destruct report.
Qed.

(** X19. The script never ends in an [IndexError] or a
    [ZeroDivisionError]: the argument after a flag is read only where it
    exists, the validated second line keeps the report that is saved from
    being empty, and no department is without a salary. *)
Theorem main_uncaught (int : string → option Z) (float_str : spec_float → string)
    (writable : string → bool) (mtime : string → Z) (reads_ahead : string → bool)
    (argv : list string) (typed : option string) (w : world) :
  (main int float_str writable mtime reads_ahead argv typed w).1 ≠
    Failure (Uncaught IndexError) ∧
  (main int float_str writable mtime reads_ahead argv typed w).1 ≠
    Failure (Uncaught ZeroDivisionError).
Proof.
  split; intros [?|[?|[?|?]]]%main_Uncaught; discriminate.
Qed.

(** X20. What a run of the script does to the world.  Either the command
    line or the files are rejected and nothing is printed or written; or
    the menu is printed first and no file changes; or, in mode 3 only, on
    an input that is valid UTF-8 and with an output file that can be
    opened for writing, the report of the whole input is written to the
    output file, which is not the input file, and nothing but the menu is
    printed. *)
Theorem main_effect (int : string → option Z) (float_str : spec_float → string)
    (writable : string → bool) (mtime : string → Z) (reads_ahead : string → bool)
    (argv : list string) (typed : option string) (w : world) :
  let run := main int float_str writable mtime reads_ahead argv typed w in
  (∃ e, parse_parameters int mtime reads_ahead argv w = Failure e ∧
        run = (Failure e, w)) ∨
  (files run.2 = files w ∧ ∃ printed, stdout run.2 = stdout w ++ menu_lines ++ printed) ∨
  (∃ input_file output_file separator text report,
     parse_parameters int mtime reads_ahead argv w =
       Success (input_file, output_file, separator) ∧
     typed = Some "3" ∧ input_file ≠ output_file ∧
     files w !! input_file = Some text ∧ utf8_valid text = true ∧
     generate_report_by_department int (readlines text) separator = Return report ∧
     report ≠ [] ∧ writable output_file = true ∧
     run = (Success (),
            {| files := <[output_file := rendered_report float_str separator report]>
                          (files w);
               stdout := stdout w ++ menu_lines |})).
Proof.
  intros run. subst run.
  destruct (parse_parameters int mtime reads_ahead argv w) as [[[i o] s]|e'] eqn:Hparse.
  2: { left. exists e'. split; [done|]. by apply main_parse_Failure. }
  right.
  pose proof Hparse as (Hvalid & _)%parse_parameters_Success.
  pose proof Hvalid as (_ & text & Htext & _)%validate_files_Success.
  destruct (typed_cases typed) as [(option & -> & Hin)|Hbad].
  2: { destruct (main_menu_Failure int float_str writable mtime reads_ahead argv typed w
                   i o s Hparse Hbad) as (e' & -> & _).
       left. split; [done|]. exists []. by rewrite app_nil_r. }
  rewrite (main_menu_Success _ _ _ _ _ _ _ _ _ _ _ Hparse Hin).
  unfold generate_report. cbn [files menu_printed]. rewrite Htext.
  destruct (utf8_valid text) eqn:Hutf8; cbn [negb].
  2: { left. cbn [fst snd files stdout menu_printed]. split; [done|].
       exists []. by rewrite app_nil_r. }
  destruct (decide (option = "1")) as [->|Hne1].
  - left. destruct (generate_hierarchy _ _) as [departments_list|e'] eqn:Hgen.
    + rewrite print_department_hierarchy_world. cbn [fst snd files stdout menu_printed].
      split; [done|]. eexists. by rewrite <-app_assoc.
    + cbn [fst snd files stdout menu_printed]. split; [done|].
      exists []. by rewrite app_nil_r.
  - destruct (generate_report_by_department _ _ _) as [report|e'] eqn:Hgen.
    2: { left. cbn [fst snd files stdout menu_printed]. split; [done|].
         exists []. by rewrite app_nil_r. }
    destruct (decide (option = "2")) as [->|Hne2].
    + left. rewrite print_department_report_world. cbn [fst snd files stdout menu_printed].
      split; [done|]. eexists. by rewrite <-app_assoc.
    + rewrite save_department_report_world.
      destruct (writable o) eqn:Hout.
      2: { left. cbn [fst snd files stdout menu_printed]. split; [done|].
           exists []. by rewrite app_nil_r. }
      right. destruct (menu_option_cases option Hin) as [?|[?| ->]]; [done..|].
      exists i, o, s, text, report.
      pose proof (validated_report_nonempty _ _ _ _ _ _ _ _ _ Hvalid Htext Hgen) as Hne.
      repeat split; try done.
      * by eapply validate_files_distinct.
      * cbn [fst snd files stdout menu_printed]. by destruct report.
Qed.

(** X21. A run succeeds whenever the command line and the files pass
    [parse_parameters], the user types one of the three options, the
    input is valid UTF-8, every data line of the input has at least three
    fields and an integer salary, no salary exceeds [2^53] in magnitude
    and, for option 3, the output file can be opened for writing. *)
Theorem main_succeeds (int : string → option Z) (float_str : spec_float → string)
    (writable : string → bool) (mtime : string → Z) (reads_ahead : string → bool)
    (argv : list string) (w : world)
    (input_file output_file separator option text : string) :
  parse_parameters int mtime reads_ahead argv w =
    Success (input_file, output_file, separator) →
  files w !! input_file = Some text →
  option ∈ ["1"; "2"; "3"] →
  utf8_valid text = true →
  (∀ line, line ∈ data_lines (readlines text) → ¬ malformed int separator line) →
  (∀ line salary,
     line ∈ data_lines (readlines text) →
     int (salary_field separator line) = Some salary → - 2 ^ 53 ≤ salary ≤ 2 ^ 53) →
  (option = "3" → writable output_file = true) →
  (main int float_str writable mtime reads_ahead argv (Some option) w).1 = Success ().
Proof.
  intros Hparse Htext Hin Hutf8 Hwell Hbound Hout.
  pose proof Hparse as (Hvalid & _)%parse_parameters_Success.
  destruct (validated_data_line _ _ _ _ _ _ _ _ Hvalid Htext) as (Hsep & _).
  rewrite (main_menu_Success _ _ _ _ _ _ _ _ _ _ _ Hparse Hin). cbn [fst].
  unfold generate_report. cbn [files menu_printed]. rewrite Htext, Hutf8. cbn [negb].
  destruct (decide (option = "1")) as [->|Hne1].
  - destruct (generate_hierarchy_returns (readlines text) separator Hsep) as [d ->];
      [|done].
    intros line Hline. specialize (Hwell line Hline). unfold malformed in Hwell.
    destruct (decide (3 ≤ length (fields_of separator line))%nat); [done|].
    destruct Hwell. left. lia.
  - destruct (generate_report_by_department_returns int (readlines text) separator
                Hsep Hwell Hbound) as [report Hgen].
    rewrite Hgen. destruct (decide (option = "2")) as [->|Hne2]; [done|].
    rewrite save_department_report_world.
    destruct (menu_option_cases option Hin) as [?|[?| ->]]; [done..|].
    rewrite Hout by done. cbn [fst uncaught].
    pose proof (validated_report_nonempty _ _ _ _ _ _ _ _ _ Hvalid Htext Hgen).
    by destruct report.
Qed.

Lemma sample_text_lines : readlines (foldr String.append EmptyString sample_file) = sample_file.
Proof. vm_compute. reflexivity. Qed.

Lemma main_succeeds_witness :
  (main py_int float_str_exact every_file sample_mtime one_block ["report.py"] (Some "3")
        (world_with "test.csv" sample_file)).1 = Success ().
Proof.
  apply (main_succeeds py_int float_str_exact every_file sample_mtime one_block
           ["report.py"]
           (world_with "test.csv" sample_file) "test.csv" "result.csv" ";" "3"
           (foldr String.append EmptyString sample_file)).
  - vm_compute. reflexivity.
  - reflexivity.
  - right. right. left.
  - vm_compute. reflexivity.
  - rewrite sample_text_lines.
    apply sample_file_lines; intros [H|H]; vm_compute in H; (lia || discriminate).
  - rewrite sample_text_lines. intros line salary Hin. revert line Hin.
    apply (sample_file_lines
             (λ line, py_int (salary_field ";" line) = Some salary →
                      - 2 ^ 53 ≤ salary ≤ 2 ^ 53));
      intros H; vm_compute in H; injection H as <-; lia.
  - reflexivity.
Defined.

(** X22. [generate_hierarchy] returns exactly when every data line can be
    split (the separator is not empty) into at least three fields; the
    salary field plays no part.  Whatever it raises is a [ValueError]. *)
Theorem hierarchy_returns_iff (file : list string) (sep : string) :
  ((∃ departments_list, generate_hierarchy file sep = Return departments_list) ↔
   ∀ line, line ∈ data_lines file →
           sep ≠ EmptyString ∧ (3 ≤ length (fields_of sep line))%nat) ∧
  (∀ e, generate_hierarchy file sep = Raise e → e = ValueError).
Proof.
  split; [|apply generate_hierarchy_Raise].
  rewrite generate_hierarchy_eq. split.
  - intros [departments_list Hgen] line Hin.
    destruct (mapM _ _) as [records|] eqn:HmapM; [|done].
    assert (is_Some (hierarchy_record sep line)) as [r Hr].
    { assert (is_Some (mapM (hierarchy_record sep) (data_lines file))) as Hsome by eauto.
      rewrite mapM_is_Some, Forall_forall in Hsome. by apply Hsome. }
    destruct (decide (sep = EmptyString)) as [Hsep|Hsep].
    { assert (hierarchy_record sep line = None) by (apply hierarchy_record_None; auto).
      congruence. }
    split; [done|].
    destruct (decide (3 ≤ length (fields_of sep line))%nat) as [|Hshort]; [done|].
    assert (hierarchy_record sep line = None)
      by (apply hierarchy_record_None; right; lia).
    congruence.
  - intros Hall. destruct (mapM _ _) as [records|] eqn:HmapM; [by eexists|].
    apply mapM_None, Exists_exists in HmapM as (line & Hin & Hnone).
    destruct (Hall line Hin) as [Hsep Hlen].
    apply hierarchy_record_None in Hnone as [?|?]; [done | lia].
Qed.
